(** * Ledger application protocol layer (celo/hw/index.ts, celo/ledger.ts)

    A shallow embedding of the frame builders, the chunking loops, the
    sequential dispatch and the response parsers of the [Ledger] class, and
    of [LEDGER.getAccount], followed by the properties proved about them.

    Conventions
    - JavaScript integers are [Z]; a number that may be [NaN] is [jsnum].
    - A [Buffer] is a list of bytes; every mutation returns the new buffer.
    - A synchronous throw and a rejected promise are both [Throw e].
    - The transport is a function of the frames sent so far and of the
      frame being sent; an operation threads the list of frames sent. *)

From Stdlib Require Import ZArith NArith List String Ascii Bool Lia DecimalString.
From Stdlib.Strings Require Import Byte.
Import ListNotations.
Local Open Scope Z_scope.
Set Warnings "-register-all".

(* ================================================================== *)
(** * Part I. The embedding                                            *)
(* ================================================================== *)

(** ** Thrown values and results *)

(** What a [throw] or a rejection can carry.  [TransportStatusError] is an
    error object with a numeric [statusCode]; [TransportError] an error
    object without one; [ThrownFalsy] a falsy value ([null], [undefined]),
    which the guards [e && ...] of the source look for. *)
Inductive js_error : Type :=
| TransportStatusError (statusCode : Z)
| TransportError (message : string)
| ThrownFalsy
| RangeError (message : string)
| TypeError (message : string)
| EthAppPleaseEnableContractData (message : string).

(** [e && e.statusCode === code] *)
Definition statusCode_is (e : js_error) (code : Z) : bool :=
  match e with
  | TransportStatusError c => c =? code
  | _ => false
  end.

Inductive result (A : Type) : Type :=
| Ok (a : A)
| Throw (e : js_error).
Arguments Ok {A} a.
Arguments Throw {A} e.

Definition rbind {A B} (r : result A) (k : A -> result B) : result B :=
  match r with
  | Ok a => k a
  | Throw e => Throw e
  end.

Declare Scope result_scope.
Delimit Scope result_scope with result.
Notation "x <- c ;; k" := (rbind c (fun x => k))
  (at level 61, c at next level, right associativity) : result_scope.

(** A JavaScript number that may be [NaN] ([None]). *)
Definition jsnum : Type := option Z.

Definition jsadd (a b : jsnum) : jsnum :=
  match a, b with
  | Some x, Some y => Some (x + y)
  | _, _ => None
  end.

(** ** Buffers *)

Definition Buffer : Type := list byte.

Definition len {A} (l : list A) : Z := Z.of_nat (List.length l).

Definition byte_of_Z (z : Z) : byte :=
  match Byte.of_N (Z.to_N (z mod 256)) with
  | Some b => b
  | None => x00
  end.

Definition Z_of_byte (b : byte) : Z := Z.of_N (Byte.to_N b).

Definition zeros (n : nat) : Buffer := repeat x00 n.

(** [Buffer.alloc(size)] (zero filled); a negative size is a RangeError. *)
Definition Buffer_alloc (size : Z) : result Buffer :=
  if size <? 0 then Throw (RangeError "ERR_OUT_OF_RANGE size")
  else Ok (zeros (Z.to_nat size)).

(** [buffer[i]]: [None] is [undefined]. *)
Definition index (b : Buffer) (i : jsnum) : option byte :=
  match i with
  | Some i => if i <? 0 then None else nth_error b (Z.to_nat i)
  | None => None
  end.

(** The number read from [buffer[i]], [NaN] when it is [undefined] and it
    enters an addition. *)
Definition index_num (b : Buffer) (i : jsnum) : jsnum :=
  option_map Z_of_byte (index b i).

(** [buffer[i] = v]: the value is stored modulo 256, an index outside the
    buffer is ignored. *)
Definition set_index (b : Buffer) (i : Z) (v : Z) : Buffer :=
  if (0 <=? i) && (i <? len b)
  then firstn (Z.to_nat i) b ++ byte_of_Z v :: skipn (S (Z.to_nat i)) b
  else b.

(** [adjustOffset] of Node's [Buffer.prototype.slice]. *)
Definition adjustOffset (offset : jsnum) (length : Z) : Z :=
  match offset with
  | None => 0
  | Some offset =>
      if offset =? 0 then 0
      else if offset <? 0 then
             (if offset + length >? 0 then offset + length else 0)
      else if offset <? length then offset
      else length
  end.

(** [buffer.slice(start, end)], and [array.slice(start, end)] for the
    arguments the source passes. *)
Definition slice {A} (b : list A) (start end_ : jsnum) : list A :=
  let srcLength := len b in
  let s := adjustOffset start srcLength in
  let e := adjustOffset end_ srcLength in
  let newLength := if e >? s then e - s else 0 in
  firstn (Z.to_nat newLength) (skipn (Z.to_nat s) b).

(** [source.copy(target, targetStart, sourceStart, sourceEnd)], returning
    the target after the copy. *)
Definition copy (source target : Buffer) (targetStart sourceStart sourceEnd : Z)
  : result Buffer :=
  if targetStart <? 0 then Throw (RangeError "ERR_OUT_OF_RANGE targetStart")
  else if (sourceStart <? 0) || (sourceStart >? len source)
  then Throw (RangeError "ERR_OUT_OF_RANGE sourceStart")
  else if sourceEnd <? 0 then Throw (RangeError "ERR_OUT_OF_RANGE sourceEnd")
  else if (targetStart >=? len target) || (sourceStart >=? sourceEnd)
  then Ok target
  else
    let sourceEnd :=
      if sourceEnd - sourceStart >? len target - targetStart
      then sourceStart + len target - targetStart else sourceEnd in
    let nb := sourceEnd - sourceStart in
    let sourceLen := len source - sourceStart in
    let nb := if nb >? sourceLen then sourceLen else nb in
    if nb <=? 0 then Ok target
    else
      Ok (firstn (Z.to_nat targetStart) target
          ++ firstn (Z.to_nat nb) (skipn (Z.to_nat sourceStart) source)
          ++ skipn (Z.to_nat (targetStart + nb)) target).

(** [source.copy(target, targetStart)] *)
Definition copy_to (source target : Buffer) (targetStart : Z) : result Buffer :=
  copy source target targetStart 0 (len source).

(** The four bytes of [value], most significant first. *)
Definition uint32be (value : Z) : Buffer :=
  [ byte_of_Z (value / 16777216); byte_of_Z (value / 65536);
    byte_of_Z (value / 256); byte_of_Z value ].

(** [buffer.writeUInt32BE(value, offset)] *)
Definition writeUInt32BE (b : Buffer) (value offset : Z) : result Buffer :=
  if (value <? 0) || (value >? 4294967295)
  then Throw (RangeError "ERR_OUT_OF_RANGE value")
  else if (offset <? 0) || (offset + 4 >? len b)
  then Throw (RangeError "ERR_OUT_OF_RANGE offset")
  else Ok (firstn (Z.to_nat offset) b ++ uint32be value
           ++ skipn (Z.to_nat (offset + 4)) b).

(** The [width] bytes of a buffer from [offset] on. *)
Definition field (b : Buffer) (offset width : Z) : Buffer :=
  firstn (Z.to_nat width) (skipn (Z.to_nat offset) b).

(** ** Hexadecimal strings *)

Definition hexDigit (d : N) : ascii :=
  match d with
  | 0 => "0" | 1 => "1" | 2 => "2" | 3 => "3" | 4 => "4" | 5 => "5"
  | 6 => "6" | 7 => "7" | 8 => "8" | 9 => "9" | 10 => "a" | 11 => "b"
  | 12 => "c" | 13 => "d" | 14 => "e" | _ => "f"
  end%N%char.

(** The value of a hexadecimal digit, either case; [None] for any other
    character. *)
Definition hexValue (c : ascii) : option N :=
  let n := N_of_ascii c in
  (if (48 <=? n) && (n <=? 57) then Some (n - 48)
   else if (97 <=? n) && (n <=? 102) then Some (n - 87)
   else if (65 <=? n) && (n <=? 70) then Some (n - 55)
   else None)%N.

(** [buffer.toString("hex")] *)
Fixpoint toString_hex (b : Buffer) : string :=
  match b with
  | [] => EmptyString
  | x :: rest =>
      String (hexDigit (Byte.to_N x / 16))
        (String (hexDigit (Byte.to_N x mod 16)) (toString_hex rest))
  end.

(** [buffer.toString("ascii")]: the high bit of every byte is dropped. *)
Fixpoint toString_ascii (b : Buffer) : string :=
  match b with
  | [] => EmptyString
  | x :: rest => String (ascii_of_N (Byte.to_N x mod 128)) (toString_ascii rest)
  end.

(** [Buffer.from(str, "hex")]: two digits make a byte; decoding stops at
    the first pair that is not two hexadecimal digits, and a trailing
    single character is dropped. *)
Fixpoint Buffer_from_hex (s : string) : Buffer :=
  match s with
  | String hi (String lo rest) =>
      match hexValue hi, hexValue lo with
      | Some h, Some l => byte_of_Z (Z.of_N (16 * h + l)) :: Buffer_from_hex rest
      | _, _ => []
      end
  | _ => []
  end.

(** [n.toString(16)] for a non-negative integer, [acc] being the digits
    already produced. *)
Fixpoint toString16_aux (fuel : nat) (n : N) (acc : string) : string :=
  let acc' := String (hexDigit (n mod 16)) acc in
  match fuel with
  | O => acc'
  | S fuel' => if (n <? 16)%N then acc' else toString16_aux fuel' (n / 16) acc'
  end.

Definition toString16 (n : N) : string :=
  toString16_aux (N.to_nat (N.log2 n)) n EmptyString.

(** [str.padStart(targetLength, "0")] *)
Definition padStart (s : string) (targetLength : nat) : string :=
  String.append
    (String.concat EmptyString
       (repeat "0"%string (targetLength - String.length s))) s.

(** [str.startsWith("0x") ? str.slice(2) : str], then decoded as hex. *)
Definition hexBuffer (str : string) : Buffer :=
  match str with
  | String "0" (String "x" rest) => Buffer_from_hex rest
  | _ => Buffer_from_hex str
  end.

(** [maybeHexBuffer]: [None] is [null] or [undefined]; the empty string is
    falsy as well. *)
Definition maybeHexBuffer (str : option string) : option Buffer :=
  match str with
  | None => None
  | Some EmptyString => None
  | Some s => Some (hexBuffer s)
  end.

(** A [BigNumber] holding a non-negative integer. *)
Definition BigNumber : Type := N.

(** [Buffer.from(value.toString(16).padStart(2 * width, "0"), "hex")] *)
Definition magnitude_bytes (value : BigNumber) (width : nat) : Buffer :=
  Buffer_from_hex (padStart (toString16 value) (2 * width)).

(** The number a buffer holds, most significant byte first. *)
Fixpoint N_of_bytes (b : Buffer) : N :=
  match b with
  | [] => 0
  | x :: rest => Byte.to_N x * 256 ^ N.of_nat (List.length rest) + N_of_bytes rest
  end%N.

(** The number a string of hexadecimal digits denotes. *)
Fixpoint N_of_hex (s : string) : N :=
  match s with
  | EmptyString => 0
  | String c rest =>
      match hexValue c with
      | Some d => d * 16 ^ N.of_nat (String.length rest) + N_of_hex rest
      | None => 0
      end
  end%N.

(** Every character is a lower-case hexadecimal digit. *)
Fixpoint lower_hex (s : string) : Prop :=
  match s with
  | EmptyString => True
  | String c rest => (exists d, (d < 16)%N /\ c = hexDigit d) /\ lower_hex rest
  end.


(** ** The [rlp] package: decoded values and [encode] *)

(** What [decode] returns: a buffer, or an array of such values. *)
Inductive rlp_value : Type :=
| RlpBuffer (b : Buffer)
| RlpArray (items : list rlp_value).

(** [rlpTx.length] *)
Definition rlp_length (v : rlp_value) : Z :=
  match v with
  | RlpBuffer b => len b
  | RlpArray items => len items
  end.

(** [rlpTx.slice(start)] *)
Definition rlp_slice (v : rlp_value) (start : Z) : rlp_value :=
  match v with
  | RlpBuffer b => RlpBuffer (slice b (Some start) (Some (len b)))
  | RlpArray items => RlpArray (slice items (Some start) (Some (len items)))
  end.

(** [intToHex]: the hexadecimal digits, padded to an even count. *)
Definition intToHex (i : N) : string :=
  let hex := toString16 i in
  if Nat.odd (String.length hex) then String "0" hex else hex.

(** [encodeLength(len, offset)] *)
Definition encodeLength (length : Z) (offset : Z) : Buffer :=
  if length <? 56 then [byte_of_Z (length + offset)]
  else
    let hexLength := intToHex (Z.to_N length) in
    let lLength := Z.of_nat (String.length hexLength) / 2 in
    let firstByte := intToHex (Z.to_N (offset + 55 + lLength)) in
    Buffer_from_hex (String.append firstByte hexLength).

(** [encode(input)] *)
Fixpoint encode (input : rlp_value) : Buffer :=
  match input with
  | RlpArray items =>
      let buf := List.concat (List.map encode items) in
      encodeLength (len buf) 192 ++ buf
  | RlpBuffer inputBuf =>
      match inputBuf with
      | [x] => if Z_of_byte x <? 128 then inputBuf
               else encodeLength (len inputBuf) 128 ++ inputBuf
      | _ => encodeLength (len inputBuf) 128 ++ inputBuf
      end
  end.

(** ** Frames, the transport and promises *)

(** One call of [transport.send(cla, ins, p1, p2, data)]. *)
Record apdu : Type := mk_apdu {
  cla : Z; ins : Z; p1 : Z; p2 : Z; data : Buffer
}.

(** A promise, run against the frames sent so far: it yields the frames
    sent once it settles, and its resolution or rejection. *)
Definition Promise (A : Type) : Type := list apdu -> list apdu * result A.

Definition resolve {A} (a : A) : Promise A := fun sent => (sent, Ok a).
Definition reject {A} (e : js_error) : Promise A := fun sent => (sent, Throw e).

(** A synchronous computation inside a promise-returning method. *)
Definition lift {A} (c : result A) : Promise A := fun sent => (sent, c).

(** [p.then(onFulfilled, onRejected)] *)
Definition then2 {A B} (p : Promise A) (onFulfilled : A -> Promise B)
    (onRejected : js_error -> Promise B) : Promise B :=
  fun sent =>
    match p sent with
    | (sent', Ok a) => onFulfilled a sent'
    | (sent', Throw e) => onRejected e sent'
    end.

(** [p.then(onFulfilled)] *)
Definition then1 {A B} (p : Promise A) (onFulfilled : A -> Promise B) : Promise B :=
  then2 p onFulfilled reject.

Declare Scope promise_scope.
Delimit Scope promise_scope with promise.
Notation "x <-- p ;;; k" := (then1 p (fun x => k))
  (at level 61, p at next level, right associativity) : promise_scope.

(** Modelled from the spec: [foreach] of ./utils, which is not among the
    sources.  Section 4.4: the frames are sent strictly in order, each one
    awaited before the next is issued, and an error on a frame aborts the
    rest of the sequence.  [st] is the state the callback's closure
    assigns ([response] in the callers). *)
Fixpoint foreach {A S} (arr : list A) (callback : A -> Z -> S -> Promise S)
    (i : Z) (st : S) : Promise S :=
  match arr with
  | [] => resolve st
  | x :: rest =>
      then1 (callback x i st) (fun st' => foreach rest callback (i + 1) st')
  end.

(** ** Result records *)

Record AddressResult : Type := mk_AddressResult {
  publicKey : string; address : string; chainCode : option string
}.

(** [signTransaction]: [v] is a hex string. *)
Record TxSignature : Type := mk_TxSignature {
  tx_v : string; tx_r : string; tx_s : string
}.

(** [signPersonalMessage], [signEIP712HashedMessage]: [v] is [response[0]],
    [None] when that is [undefined]. *)
Record MsgSignature : Type := mk_MsgSignature {
  msg_v : option byte; msg_r : string; msg_s : string
}.

Record StarkSignature : Type := mk_StarkSignature {
  stark_r : string; stark_s : string
}.

Record AppConfiguration : Type := mk_AppConfiguration {
  arbitraryDataEnabled : Z; erc20ProvisioningNecessary : Z;
  starkEnabled : Z; starkv2Supported : Z; version : string
}.

Inductive StarkQuantizationType : Type :=
| eth | erc20 | erc721 | erc20mintable | erc721mintable.

Definition starkQuantizationTypeMap (t : StarkQuantizationType) : Z :=
  match t with
  | eth => 1 | erc20 => 2 | erc721 => 3 | erc20mintable => 4
  | erc721mintable => 5
  end.

(** ** Pieces shared by the frame builders *)

(** [paths.forEach((element, index) => buffer.writeUInt32BE(element, 1 + 4 * index))],
    from [index] on. *)
Fixpoint forEach_writeUInt32BE (buffer : Buffer) (paths : list Z) (index : Z)
  : result Buffer :=
  match paths with
  | [] => Ok buffer
  | element :: rest =>
      (buffer <- writeUInt32BE buffer element (1 + 4 * index);;
       forEach_writeUInt32BE buffer rest (index + 1))%result
  end.

(** [buffer[0] = paths.length; paths.forEach(...)] *)
Definition write_path_header (buffer : Buffer) (paths : list Z) : result Buffer :=
  forEach_writeUInt32BE (set_index buffer 0 (len paths)) paths 0.

(** [if (addressHex) addressHex.copy(buffer, offset)] *)
Definition copy_if_present (source : option Buffer) (buffer : Buffer) (offset : Z)
  : result Buffer :=
  match source with
  | Some b => copy_to b buffer offset
  | None => Ok buffer
  end.

(** [if (value) Buffer.from(value.toString(16).padStart(64, "0"), "hex").copy(buffer, offset)];
    a [BigNumber] object is truthy whatever its value. *)
Definition copy_magnitude_if_present (value : option BigNumber) (width : nat)
    (buffer : Buffer) (offset : Z) : result Buffer :=
  match value with
  | Some n => copy_to (magnitude_bytes n width) buffer offset
  | None => Ok buffer
  end.

(** [{ r: response.slice(1, 1 + 32).toString("hex"),
       s: response.slice(1 + 32, 1 + 32 + 32).toString("hex") }] *)
Definition parse_r (response : Buffer) : string :=
  toString_hex (slice response (Some 1) (Some (1 + 32))).
Definition parse_s (response : Buffer) : string :=
  toString_hex (slice response (Some (1 + 32)) (Some (1 + 32 + 32))).

(** [remapTransactionRelatedErrors] *)
Definition remapTransactionRelatedErrors (e : js_error) : js_error :=
  if statusCode_is e 0x6a80
  then EthAppPleaseEnableContractData
         "Please enable Contract data on the Ethereum app Settings"
  else e.

(** The text of [`${response[i]}`]. *)
Definition show_index (b : option byte) : string :=
  match b with
  | Some x => NilZero.string_of_uint (N.to_uint (Byte.to_N x))
  | None => "undefined"
  end.

(** ** The chunking loops *)

(** The body of [signTransaction]'s loop from [Buffer.alloc] to the copy:
    the frame for the chunk of [chunkSize] bytes at [offset]. *)
Definition signTransaction_buffer (paths : list Z) (rawTx : Buffer)
    (offset chunkSize : Z) : result Buffer :=
  (buffer <- Buffer_alloc
               (if offset =? 0 then 1 + len paths * 4 + chunkSize else chunkSize);;
   if offset =? 0 then
     buffer <- write_path_header buffer paths;;
     copy rawTx buffer (1 + 4 * len paths) offset (offset + chunkSize)
   else
     copy rawTx buffer 0 offset (offset + chunkSize))%result.

(** [while (offset !== rawTx.length) { ... }] of [signTransaction]; [None]
    when [fuel] iterations do not reach the exit. *)
Fixpoint signTransaction_loop (fuel : nat) (paths : list Z) (rawTx : Buffer)
    (rlpOffset : Z) (offset : Z) (toSend : list Buffer)
  : option (result (list Buffer)) :=
  match fuel with
  | O => None
  | S fuel' =>
      if offset =? len rawTx then Some (Ok toSend)
      else
        let maxChunkSize := if offset =? 0 then 150 - 1 - len paths * 4 else 150 in
        let chunkSize :=
          if offset + maxChunkSize >? len rawTx then len rawTx - offset
          else maxChunkSize in
        let chunkSize :=
          if negb (rlpOffset =? 0) && (offset + chunkSize =? rlpOffset)
          then chunkSize - 1 else chunkSize in
        match signTransaction_buffer paths rawTx offset chunkSize with
        | Throw e => Some (Throw e)
        | Ok buffer =>
            signTransaction_loop fuel' paths rawTx rlpOffset
              (offset + chunkSize) (toSend ++ [buffer])
        end
  end.

(** [rlpOffset] as [signTransaction] computes it from the decoded
    transaction. *)
Definition signTransaction_rlpOffset (rawTx : Buffer) (rlpTx : rlp_value) : Z :=
  if rlp_length rlpTx >? 6 then
    let rlpVrs := encode (rlp_slice rlpTx (-3)) in
    len rawTx - (len rlpVrs - 1)
  else 0.

(** The frames [toSend] of [signTransaction].  A chunk is at least one byte
    long unless the loop never exits, so one more iteration than there are
    bytes is enough whenever it exits at all. *)
Definition signTransaction_toSend (paths : list Z) (rawTx : Buffer)
    (rlpTx : rlp_value) : option (result (list Buffer)) :=
  signTransaction_loop (S (List.length rawTx)) paths rawTx
    (signTransaction_rlpOffset rawTx rlpTx) 0 [].

(** The body of [signPersonalMessage]'s loop. *)
Definition signPersonalMessage_buffer (paths : list Z) (message : Buffer)
    (offset chunkSize : Z) : result Buffer :=
  (buffer <- Buffer_alloc
               (if offset =? 0 then 1 + len paths * 4 + 4 + chunkSize
                else chunkSize);;
   if offset =? 0 then
     buffer <- write_path_header buffer paths;;
     buffer <- writeUInt32BE buffer (len message) (1 + 4 * len paths);;
     copy message buffer (1 + 4 * len paths + 4) offset (offset + chunkSize)
   else
     copy message buffer 0 offset (offset + chunkSize))%result.

(** [while (offset !== message.length) { ... }] of [signPersonalMessage]. *)
Fixpoint signPersonalMessage_loop (fuel : nat) (paths : list Z)
    (message : Buffer) (offset : Z) (toSend : list Buffer)
  : option (result (list Buffer)) :=
  match fuel with
  | O => None
  | S fuel' =>
      if offset =? len message then Some (Ok toSend)
      else
        let maxChunkSize :=
          if offset =? 0 then 150 - 1 - len paths * 4 - 4 else 150 in
        let chunkSize :=
          if offset + maxChunkSize >? len message then len message - offset
          else maxChunkSize in
        match signPersonalMessage_buffer paths message offset chunkSize with
        | Throw e => Some (Throw e)
        | Ok buffer =>
            signPersonalMessage_loop fuel' paths message
              (offset + chunkSize) (toSend ++ [buffer])
        end
  end.

Definition signPersonalMessage_toSend (paths : list Z) (message : Buffer)
  : option (result (list Buffer)) :=
  signPersonalMessage_loop (S (List.length message)) paths message 0 [].

(** The payload-bearing regions of a frame sequence, concatenated: frame 0
    without its first [header] bytes, the later frames whole. *)
Definition payload_regions (header : Z) (frames : list Buffer) : Buffer :=
  match frames with
  | [] => []
  | first :: continuation =>
      skipn (Z.to_nat header) first ++ List.concat continuation
  end.

(** The payload offsets at which the frames of a sequence end, [offset]
    being where the sequence starts and [header] what frame 0 carries
    before its payload. *)
Fixpoint chunk_boundaries (header : Z) (offset : Z) (frames : list Buffer)
  : list Z :=
  match frames with
  | [] => []
  | frame :: rest =>
      let boundary := offset + len frame - header in
      boundary :: chunk_boundaries 0 boundary rest
  end.

(** The size [signTransaction]'s loop settles on for the chunk at
    [offset], the second [chunkSize] of the loop above. *)
Definition signTransaction_chunkSize (paths : list Z) (rawTx : Buffer)
    (rlpOffset : Z) (offset : Z) : Z :=
  let maxChunkSize := if offset =? 0 then 150 - 1 - len paths * 4 else 150 in
  let chunkSize :=
    if offset + maxChunkSize >? len rawTx then len rawTx - offset
    else maxChunkSize in
  if negb (rlpOffset =? 0) && (offset + chunkSize =? rlpOffset)
  then chunkSize - 1 else chunkSize.

(** The boundary the loop proposes for the chunk at [offset], before the
    test against [rlpOffset]. *)
Definition signTransaction_proposed (paths : list Z) (rawTx : Buffer)
    (offset : Z) : Z :=
  let maxChunkSize := if offset =? 0 then 150 - 1 - len paths * 4 else 150 in
  offset + (if offset + maxChunkSize >? len rawTx then len rawTx - offset
            else maxChunkSize).

Definition signPersonalMessage_chunkSize (paths : list Z) (message : Buffer)
    (offset : Z) : Z :=
  let maxChunkSize :=
    if offset =? 0 then 150 - 1 - len paths * 4 - 4 else 150 in
  if offset + maxChunkSize >? len message then len message - offset
  else maxChunkSize.

(** The shape the two loops share: [chunkSize offset] is the size of the
    chunk at [offset], [build offset size] its frame, [length] the length
    of the payload. *)
Fixpoint chunk_loop (chunkSize : Z -> Z) (build : Z -> Z -> result Buffer)
    (length : Z) (fuel : nat) (offset : Z) (toSend : list Buffer)
  : option (result (list Buffer)) :=
  match fuel with
  | O => None
  | S fuel' =>
      if offset =? length then Some (Ok toSend)
      else
        match build offset (chunkSize offset) with
        | Throw e => Some (Throw e)
        | Ok buffer =>
            chunk_loop chunkSize build length fuel'
              (offset + chunkSize offset) (toSend ++ [buffer])
        end
  end.

(** [boundaries] are reached from [offset] by chunks of the sizes
    [chunkSize] gives, each of at least one byte. *)
Fixpoint chunk_chain (chunkSize : Z -> Z) (offset : Z) (boundaries : list Z)
  : Prop :=
  match boundaries with
  | [] => True
  | boundary :: rest =>
      boundary = offset + chunkSize offset
      /\ 0 < chunkSize offset
      /\ chunk_chain chunkSize boundary rest
  end.

(** ** The operations of [class Ledger] *)

Section Ledger.

(** [this.transport.send]: what the call settles to, given the frames
    sent before it and the frame it sends. *)
Variable transport_send : list apdu -> apdu -> result Buffer.

(** [splitPath] of ./utils, which is not among the sources: whatever it
    returns or throws. *)
Variable splitPath : string -> result (list Z).

(** [decode] of the [rlp] package: whatever it returns or throws. *)
Variable decode : Buffer -> result rlp_value.

Definition send (cla ins p1 p2 : Z) (data : Buffer) : Promise Buffer :=
  fun sent =>
    let frame := mk_apdu cla ins p1 p2 data in
    (sent ++ [frame], transport_send sent frame).

(** The buffer [getAddress], [starkGetPublicKey] and [eth2GetPublicKey]
    send: the path header alone. *)
Definition path_buffer (path : string) : result Buffer :=
  (paths <- splitPath path;;
   buffer <- Buffer_alloc (1 + len paths * 4);;
   write_path_header buffer paths)%result.

Definition getAddress (path : string) (boolDisplay boolChaincode : bool)
  : Promise AddressResult :=
  (buffer <-- lift (path_buffer path);;;
   response <-- send 0xe0 0x02 (if boolDisplay then 0x01 else 0x00)
                  (if boolChaincode then 0x01 else 0x00) buffer;;;
   let publicKeyLength := index_num response (Some 0) in
   let addressLength :=
     index_num response (jsadd (Some 1) publicKeyLength) in
   let publicKey :=
     toString_hex (slice response (Some 1) (jsadd (Some 1) publicKeyLength)) in
   let address :=
     String.append "0x"
       (toString_ascii
          (slice response
             (jsadd (jsadd (Some 1) publicKeyLength) (Some 1))
             (jsadd (jsadd (jsadd (Some 1) publicKeyLength) (Some 1))
                addressLength))) in
   if boolChaincode then
     resolve
       (mk_AddressResult publicKey address
          (Some
             (toString_hex
                (slice response
                   (jsadd (jsadd (jsadd (Some 1) publicKeyLength) (Some 1))
                      addressLength)
                   (jsadd
                      (jsadd (jsadd (jsadd (Some 1) publicKeyLength) (Some 1))
                         addressLength)
                      (Some 32))))))
   else resolve (mk_AddressResult publicKey address None))%promise.

(** The rejection handler of the four operations with a fallback:
    [if (e && e.statusCode === 0x6d00) return false; throw e;] *)
Definition unsupported_is_false (e : js_error) : Promise bool :=
  if statusCode_is e 0x6d00 then resolve false else reject e.

Definition provideERC20TokenInformation (data : Buffer) : Promise bool :=
  then2 (send 0xe0 0x0a 0x00 0x00 data)
    (fun _ => resolve true)
    unsupported_is_false.

(** The callback [signTransaction] and [signPersonalMessage] give to
    [foreach]: send the frame and assign [response]. *)
Definition send_chunk (ins : Z) (data : Buffer) (i : Z)
    (response : option Buffer) : Promise (option Buffer) :=
  (apduResponse <-- send 0xe0 ins (if i =? 0 then 0x00 else 0x80) 0x00 data;;;
   resolve (Some apduResponse))%promise.

(** Reading [response] after the dispatch: it is [undefined] when no
    frame was sent, and a property access on it is a TypeError. *)
Definition defined_response (response : option Buffer) : result Buffer :=
  match response with
  | Some r => Ok r
  | None => Throw (TypeError "Cannot read properties of undefined")
  end.

(** [None] when the chunking loop never exits. *)
Definition signTransaction (path rawTxHex : string)
  : option (Promise TxSignature) :=
  match splitPath path with
  | Throw e => Some (reject e)
  | Ok paths =>
      let rawTx := Buffer_from_hex rawTxHex in
      match decode rawTx with
      | Throw e => Some (reject e)
      | Ok rlpTx =>
          match signTransaction_toSend paths rawTx rlpTx with
          | None => None
          | Some (Throw e) => Some (reject e)
          | Some (Ok toSend) =>
              Some
                (then2 (foreach toSend (send_chunk 0x04) 0 None)
                   (fun response =>
                      response <-- lift (defined_response response);;;
                      let v := toString_hex (slice response (Some 0) (Some 1)) in
                      let r := parse_r response in
                      let s := parse_s response in
                      resolve (mk_TxSignature v r s))%promise
                   (fun e => reject (remapTransactionRelatedErrors e)))
          end
      end
  end.

Definition getAppConfiguration : Promise AppConfiguration :=
  (response <-- send 0xe0 0x06 0x00 0x00 [];;;
   let flags :=
     match index response (Some 0) with
     | Some b => Z_of_byte b
     | None => 0
     end in
   resolve
     (mk_AppConfiguration (Z.land flags 0x01) (Z.land flags 0x02)
        (Z.land flags 0x04) (Z.land flags 0x08)
        (String.concat "."
           [show_index (index response (Some 1));
            show_index (index response (Some 2));
            show_index (index response (Some 3))])))%promise.

(** [None] when the chunking loop never exits. *)
Definition signPersonalMessage (path messageHex : string)
  : option (Promise MsgSignature) :=
  match splitPath path with
  | Throw e => Some (reject e)
  | Ok paths =>
      let message := Buffer_from_hex messageHex in
      match signPersonalMessage_toSend paths message with
      | None => None
      | Some (Throw e) => Some (reject e)
      | Some (Ok toSend) =>
          Some
            (response <-- foreach toSend (send_chunk 0x08) 0 None;;;
             response <-- lift (defined_response response);;;
             let v := index response (Some 0) in
             let r := parse_r response in
             let s := parse_s response in
             resolve (mk_MsgSignature v r s))%promise
      end
  end.

Definition signEIP712HashedMessage_buffer
    (path domainSeparatorHex hashStructMessageHex : string) : result Buffer :=
  (let domainSeparator := hexBuffer domainSeparatorHex in
   let hashStruct := hexBuffer hashStructMessageHex in
   paths <- splitPath path;;
   buffer <- Buffer_alloc (1 + len paths * 4 + 32 + 32);;
   buffer <- write_path_header buffer paths;;
   let offset := 1 + 4 * len paths in
   buffer <- copy_to domainSeparator buffer offset;;
   let offset := offset + 32 in
   copy_to hashStruct buffer offset)%result.

Definition signEIP712HashedMessage
    (path domainSeparatorHex hashStructMessageHex : string)
  : Promise MsgSignature :=
  (buffer <-- lift (signEIP712HashedMessage_buffer path domainSeparatorHex
                      hashStructMessageHex);;;
   response <-- send 0xe0 0x0c 0x00 0x00 buffer;;;
   let v := index response (Some 0) in
   let r := parse_r response in
   let s := parse_s response in
   resolve (mk_MsgSignature v r s))%promise.

Definition starkGetPublicKey (path : string) (boolDisplay : bool)
  : Promise Buffer :=
  (buffer <-- lift (path_buffer path);;;
   response <-- send 0xf0 0x02 (if boolDisplay then 0x01 else 0x00) 0x00 buffer;;;
   resolve (slice response (Some 0) (Some (len response - 2))))%promise.

(** The response handler of the Stark signing operations. *)
Definition parse_stark (response : Buffer) : Promise StarkSignature :=
  resolve (mk_StarkSignature (parse_r response) (parse_s response)).

Definition starkSignOrder_buffer (path : string)
    (sourceTokenAddress : option string) (sourceQuantization : BigNumber)
    (destinationTokenAddress : option string)
    (destinationQuantization : BigNumber)
    (sourceVault destinationVault : Z) (amountSell amountBuy : BigNumber)
    (nonce timestamp : Z) : result Buffer :=
  (let sourceTokenAddressHex := maybeHexBuffer sourceTokenAddress in
   let destinationTokenAddressHex := maybeHexBuffer destinationTokenAddress in
   paths <- splitPath path;;
   buffer <- Buffer_alloc
               (1 + len paths * 4 + 20 + 32 + 20 + 32 + 4 + 4 + 8 + 8 + 4 + 4);;
   buffer <- write_path_header buffer paths;;
   let offset := 1 + 4 * len paths in
   buffer <- copy_if_present sourceTokenAddressHex buffer offset;;
   let offset := offset + 20 in
   buffer <- copy_to (magnitude_bytes sourceQuantization 32) buffer offset;;
   let offset := offset + 32 in
   buffer <- copy_if_present destinationTokenAddressHex buffer offset;;
   let offset := offset + 20 in
   buffer <- copy_to (magnitude_bytes destinationQuantization 32) buffer offset;;
   let offset := offset + 32 in
   buffer <- writeUInt32BE buffer sourceVault offset;;
   let offset := offset + 4 in
   buffer <- writeUInt32BE buffer destinationVault offset;;
   let offset := offset + 4 in
   buffer <- copy_to (magnitude_bytes amountSell 8) buffer offset;;
   let offset := offset + 8 in
   buffer <- copy_to (magnitude_bytes amountBuy 8) buffer offset;;
   let offset := offset + 8 in
   buffer <- writeUInt32BE buffer nonce offset;;
   let offset := offset + 4 in
   writeUInt32BE buffer timestamp offset)%result.

Definition starkSignOrder (path : string)
    (sourceTokenAddress : option string) (sourceQuantization : BigNumber)
    (destinationTokenAddress : option string)
    (destinationQuantization : BigNumber)
    (sourceVault destinationVault : Z) (amountSell amountBuy : BigNumber)
    (nonce timestamp : Z) : Promise StarkSignature :=
  (buffer <-- lift (starkSignOrder_buffer path sourceTokenAddress
                      sourceQuantization destinationTokenAddress
                      destinationQuantization sourceVault destinationVault
                      amountSell amountBuy nonce timestamp);;;
   response <-- send 0xf0 0x04 0x01 0x00 buffer;;;
   parse_stark response)%promise.

(** [if (!(type in starkQuantizationTypeMap)) throw new Error(...)]: every
    value of the type is a key of the map. *)
Definition check_quantization_type (type : StarkQuantizationType)
    (message : string) : result unit :=
  match type with
  | eth | erc20 | erc721 | erc20mintable | erc721mintable => Ok tt
  end.

Definition starkSignOrder_v2_buffer (path : string)
    (sourceTokenAddress : option string)
    (sourceQuantizationType : StarkQuantizationType)
    (sourceQuantization sourceMintableBlobOrTokenId : option BigNumber)
    (destinationTokenAddress : option string)
    (destinationQuantizationType : StarkQuantizationType)
    (destinationQuantization destinationMintableBlobOrTokenId : option BigNumber)
    (sourceVault destinationVault : Z) (amountSell amountBuy : BigNumber)
    (nonce timestamp : Z) : result Buffer :=
  (let sourceTokenAddressHex := maybeHexBuffer sourceTokenAddress in
   let destinationTokenAddressHex := maybeHexBuffer destinationTokenAddress in
   _ <- check_quantization_type sourceQuantizationType
          "eth.starkSignOrderv2 invalid source quantization type";;
   _ <- check_quantization_type destinationQuantizationType
          "eth.starkSignOrderv2 invalid destination quantization type";;
   paths <- splitPath path;;
   buffer <- Buffer_alloc
               (1 + len paths * 4 + 1 + 20 + 32 + 32 + 1 + 20 + 32 + 32
                + 4 + 4 + 8 + 8 + 4 + 4);;
   buffer <- write_path_header buffer paths;;
   let offset := 1 + 4 * len paths in
   let buffer :=
     set_index buffer offset (starkQuantizationTypeMap sourceQuantizationType) in
   let offset := offset + 1 in
   buffer <- copy_if_present sourceTokenAddressHex buffer offset;;
   let offset := offset + 20 in
   buffer <- copy_magnitude_if_present sourceQuantization 32 buffer offset;;
   let offset := offset + 32 in
   buffer <- copy_magnitude_if_present sourceMintableBlobOrTokenId 32 buffer offset;;
   let offset := offset + 32 in
   let buffer :=
     set_index buffer offset
       (starkQuantizationTypeMap destinationQuantizationType) in
   let offset := offset + 1 in
   buffer <- copy_if_present destinationTokenAddressHex buffer offset;;
   let offset := offset + 20 in
   buffer <- copy_magnitude_if_present destinationQuantization 32 buffer offset;;
   let offset := offset + 32 in
   buffer <- copy_magnitude_if_present destinationMintableBlobOrTokenId 32
               buffer offset;;
   let offset := offset + 32 in
   buffer <- writeUInt32BE buffer sourceVault offset;;
   let offset := offset + 4 in
   buffer <- writeUInt32BE buffer destinationVault offset;;
   let offset := offset + 4 in
   buffer <- copy_to (magnitude_bytes amountSell 8) buffer offset;;
   let offset := offset + 8 in
   buffer <- copy_to (magnitude_bytes amountBuy 8) buffer offset;;
   let offset := offset + 8 in
   buffer <- writeUInt32BE buffer nonce offset;;
   let offset := offset + 4 in
   writeUInt32BE buffer timestamp offset)%result.

Definition starkSignOrder_v2 (path : string)
    (sourceTokenAddress : option string)
    (sourceQuantizationType : StarkQuantizationType)
    (sourceQuantization sourceMintableBlobOrTokenId : option BigNumber)
    (destinationTokenAddress : option string)
    (destinationQuantizationType : StarkQuantizationType)
    (destinationQuantization destinationMintableBlobOrTokenId : option BigNumber)
    (sourceVault destinationVault : Z) (amountSell amountBuy : BigNumber)
    (nonce timestamp : Z) : Promise StarkSignature :=
  (buffer <-- lift (starkSignOrder_v2_buffer path sourceTokenAddress
                      sourceQuantizationType sourceQuantization
                      sourceMintableBlobOrTokenId destinationTokenAddress
                      destinationQuantizationType destinationQuantization
                      destinationMintableBlobOrTokenId sourceVault
                      destinationVault amountSell amountBuy nonce timestamp);;;
   response <-- send 0xf0 0x04 0x03 0x00 buffer;;;
   parse_stark response)%promise.

Definition starkSignTransfer_buffer (path : string)
    (transferTokenAddress : option string) (transferQuantization : BigNumber)
    (targetPublicKey : string) (sourceVault destinationVault : Z)
    (amountTransfer : BigNumber) (nonce timestamp : Z) : result Buffer :=
  (let transferTokenAddressHex := maybeHexBuffer transferTokenAddress in
   let targetPublicKeyHex := hexBuffer targetPublicKey in
   paths <- splitPath path;;
   buffer <- Buffer_alloc (1 + len paths * 4 + 20 + 32 + 32 + 4 + 4 + 8 + 4 + 4);;
   buffer <- write_path_header buffer paths;;
   let offset := 1 + 4 * len paths in
   buffer <- copy_if_present transferTokenAddressHex buffer offset;;
   let offset := offset + 20 in
   buffer <- copy_to (magnitude_bytes transferQuantization 32) buffer offset;;
   let offset := offset + 32 in
   buffer <- copy_to targetPublicKeyHex buffer offset;;
   let offset := offset + 32 in
   buffer <- writeUInt32BE buffer sourceVault offset;;
   let offset := offset + 4 in
   buffer <- writeUInt32BE buffer destinationVault offset;;
   let offset := offset + 4 in
   buffer <- copy_to (magnitude_bytes amountTransfer 8) buffer offset;;
   let offset := offset + 8 in
   buffer <- writeUInt32BE buffer nonce offset;;
   let offset := offset + 4 in
   writeUInt32BE buffer timestamp offset)%result.

Definition starkSignTransfer (path : string)
    (transferTokenAddress : option string) (transferQuantization : BigNumber)
    (targetPublicKey : string) (sourceVault destinationVault : Z)
    (amountTransfer : BigNumber) (nonce timestamp : Z)
  : Promise StarkSignature :=
  (buffer <-- lift (starkSignTransfer_buffer path transferTokenAddress
                      transferQuantization targetPublicKey sourceVault
                      destinationVault amountTransfer nonce timestamp);;;
   response <-- send 0xf0 0x04 0x02 0x00 buffer;;;
   parse_stark response)%promise.

Definition is_present {A} (x : option A) : bool :=
  match x with Some _ => true | None => false end.

Definition starkSignTransfer_v2_buffer (path : string)
    (transferTokenAddress : option string)
    (transferQuantizationType : StarkQuantizationType)
    (transferQuantization transferMintableBlobOrTokenId : option BigNumber)
    (targetPublicKey : string) (sourceVault destinationVault : Z)
    (amountTransfer : BigNumber) (nonce timestamp : Z)
    (conditionalTransferAddress : option string)
    (conditionalTransferFact : option BigNumber) : result Buffer :=
  (let transferTokenAddressHex := maybeHexBuffer transferTokenAddress in
   let targetPublicKeyHex := hexBuffer targetPublicKey in
   let conditionalTransferAddressHex :=
     maybeHexBuffer conditionalTransferAddress in
   _ <- check_quantization_type transferQuantizationType
          "eth.starkSignTransferv2 invalid quantization type";;
   paths <- splitPath path;;
   buffer <- Buffer_alloc
               (1 + len paths * 4 + 1 + 20 + 32 + 32 + 32 + 4 + 4 + 8 + 4 + 4
                + (if is_present conditionalTransferAddressHex
                   then 32 + 20 else 0));;
   buffer <- write_path_header buffer paths;;
   let offset := 1 + 4 * len paths in
   let buffer :=
     set_index buffer offset
       (starkQuantizationTypeMap transferQuantizationType) in
   let offset := offset + 1 in
   buffer <- copy_if_present transferTokenAddressHex buffer offset;;
   let offset := offset + 20 in
   buffer <- copy_magnitude_if_present transferQuantization 32 buffer offset;;
   let offset := offset + 32 in
   buffer <- copy_magnitude_if_present transferMintableBlobOrTokenId 32
               buffer offset;;
   let offset := offset + 32 in
   buffer <- copy_to targetPublicKeyHex buffer offset;;
   let offset := offset + 32 in
   buffer <- writeUInt32BE buffer sourceVault offset;;
   let offset := offset + 4 in
   buffer <- writeUInt32BE buffer destinationVault offset;;
   let offset := offset + 4 in
   buffer <- copy_to (magnitude_bytes amountTransfer 8) buffer offset;;
   let offset := offset + 8 in
   buffer <- writeUInt32BE buffer nonce offset;;
   let offset := offset + 4 in
   buffer <- writeUInt32BE buffer timestamp offset;;
   match conditionalTransferAddressHex, conditionalTransferFact with
   | Some addressHex, Some fact =>
       let offset := offset + 4 in
       buffer <- copy_to (magnitude_bytes fact 32) buffer offset;;
       let offset := offset + 32 in
       copy_to addressHex buffer offset
   | _, _ => Ok buffer
   end)%result.

(** The [param1] byte [starkSignTransfer_v2] sends. *)
Definition starkSignTransfer_v2_p1 (conditionalTransferAddress : option string)
  : Z :=
  if is_present (maybeHexBuffer conditionalTransferAddress) then 0x05 else 0x04.

Definition starkSignTransfer_v2 (path : string)
    (transferTokenAddress : option string)
    (transferQuantizationType : StarkQuantizationType)
    (transferQuantization transferMintableBlobOrTokenId : option BigNumber)
    (targetPublicKey : string) (sourceVault destinationVault : Z)
    (amountTransfer : BigNumber) (nonce timestamp : Z)
    (conditionalTransferAddress : option string)
    (conditionalTransferFact : option BigNumber) : Promise StarkSignature :=
  (buffer <-- lift (starkSignTransfer_v2_buffer path transferTokenAddress
                      transferQuantizationType transferQuantization
                      transferMintableBlobOrTokenId targetPublicKey
                      sourceVault destinationVault amountTransfer nonce
                      timestamp conditionalTransferAddress
                      conditionalTransferFact);;;
   response <-- send 0xf0 0x04
                  (starkSignTransfer_v2_p1 conditionalTransferAddress)
                  0x00 buffer;;;
   parse_stark response)%promise.

Definition starkProvideQuantum_buffer (operationContract : option string)
    (operationQuantization : BigNumber) : result Buffer :=
  (let operationContractHex := maybeHexBuffer operationContract in
   buffer <- Buffer_alloc (20 + 32);;
   buffer <- copy_if_present operationContractHex buffer 0;;
   copy_to (magnitude_bytes operationQuantization 32) buffer 20)%result.

Definition starkProvideQuantum (operationContract : option string)
    (operationQuantization : BigNumber) : Promise bool :=
  (buffer <-- lift (starkProvideQuantum_buffer operationContract
                      operationQuantization);;;
   then2 (send 0xf0 0x08 0x00 0x00 buffer)
     (fun _ => resolve true)
     unsupported_is_false)%promise.

Definition starkProvideQuantum_v2_buffer (operationContract : option string)
    (operationQuantizationType : StarkQuantizationType)
    (operationQuantization operationMintableBlobOrTokenId : option BigNumber)
  : result Buffer :=
  (let operationContractHex := maybeHexBuffer operationContract in
   _ <- check_quantization_type operationQuantizationType
          "eth.starkProvideQuantumV2 invalid quantization type";;
   buffer <- Buffer_alloc (20 + 32 + 32);;
   let offset := 0 in
   buffer <- copy_if_present operationContractHex buffer offset;;
   let offset := offset + 20 in
   buffer <- copy_magnitude_if_present operationQuantization 32 buffer offset;;
   let offset := offset + 32 in
   copy_magnitude_if_present operationMintableBlobOrTokenId 32 buffer offset)%result.

Definition starkProvideQuantum_v2 (operationContract : option string)
    (operationQuantizationType : StarkQuantizationType)
    (operationQuantization operationMintableBlobOrTokenId : option BigNumber)
  : Promise bool :=
  (buffer <-- lift (starkProvideQuantum_v2_buffer operationContract
                      operationQuantizationType operationQuantization
                      operationMintableBlobOrTokenId);;;
   then2 (send 0xf0 0x08 (starkQuantizationTypeMap operationQuantizationType)
            0x00 buffer)
     (fun _ => resolve true)
     unsupported_is_false)%promise.

Definition starkUnsafeSign_buffer (path hash : string) : result Buffer :=
  (let hashHex := hexBuffer hash in
   paths <- splitPath path;;
   buffer <- Buffer_alloc (1 + len paths * 4 + 32);;
   buffer <- write_path_header buffer paths;;
   let offset := 1 + 4 * len paths in
   copy_to hashHex buffer offset)%result.

Definition starkUnsafeSign (path hash : string) : Promise StarkSignature :=
  (buffer <-- lift (starkUnsafeSign_buffer path hash);;;
   response <-- send 0xf0 0x0a 0x00 0x00 buffer;;;
   parse_stark response)%promise.

Definition eth2GetPublicKey (path : string) (boolDisplay : bool)
  : Promise string :=
  (buffer <-- lift (path_buffer path);;;
   response <-- send 0xe0 0x0e (if boolDisplay then 0x01 else 0x00) 0x00 buffer;;;
   resolve (toString_hex (slice response (Some 0) (Some (-2)))))%promise.

Definition eth2SetWithdrawalIndex (withdrawalIndex : Z) : Promise bool :=
  (buffer <-- lift (buffer <- Buffer_alloc 4;;
                    writeUInt32BE buffer withdrawalIndex 0)%result;;;
   then2 (send 0xe0 0x10 0x00 0x00 buffer)
     (fun _ => resolve true)
     unsupported_is_false)%promise.

(** ** [LEDGER.getAccount] (ledger.ts) *)

(** The numbers of a [BIP44] value: JavaScript numbers holding a safe
    integer, 0 to 2^53 - 1.  That is the range in which a template literal
    prints a number as its decimal digits; the levels of a BIP-44 path are
    31-bit indices.  A larger number, which is printed rounded or in
    exponent form, a fraction or a negative number is no value of this
    type. *)
Definition safe_integer : Type := { n : N | (n <? 2 ^ 53)%N = true }.

Definition number (n : N) (safe : (n <? 2 ^ 53)%N = true) : safe_integer :=
  exist _ n safe.

Record BIP44 : Type := mk_BIP44 {
  bip44_type : safe_integer; bip44_account : safe_integer;
  bip44_index : safe_integer
}.

(** What the constructor's [transport.decorateAppAPIMethods(...)] does:
    return, or throw. *)
Variable decorateAppAPIMethods : result unit.

(** [`${n}`] for a safe integer: its decimal digits. *)
Definition decimal (n : safe_integer) : string :=
  NilZero.string_of_uint (N.to_uint (proj1_sig n)).

(** [`44'/${path.type}'/${path.account}'/0/${path.index}`] *)
Definition account_path (path : BIP44) : string :=
  String.concat EmptyString
    ["44'/"; decimal (bip44_type path); "'/"; decimal (bip44_account path);
     "'/0/"; decimal (bip44_index path)]%string.

(** [try { ...; return response.address; } catch (error) { console.log(error); } return "";] *)
Definition getAccount (path : BIP44) : Promise string :=
  then2
    (_ <-- lift decorateAppAPIMethods;;;
     getAddress (account_path path) false false)%promise
    (fun response => resolve (address response))
    (fun error => resolve EmptyString).

End Ledger.

(** ** The public operations as one type *)

(** A call of one of the sixteen methods [decorateAppAPIMethods] lists,
    with its arguments. *)
Inductive operation : Type :=
| call_getAddress (path : string) (boolDisplay boolChaincode : bool)
| call_provideERC20TokenInformation (data : Buffer)
| call_signTransaction (path rawTxHex : string)
| call_signPersonalMessage (path messageHex : string)
| call_getAppConfiguration
| call_signEIP712HashedMessage
    (path domainSeparatorHex hashStructMessageHex : string)
| call_starkGetPublicKey (path : string) (boolDisplay : bool)
| call_starkSignOrder (path : string)
    (sourceTokenAddress : option string) (sourceQuantization : BigNumber)
    (destinationTokenAddress : option string)
    (destinationQuantization : BigNumber)
    (sourceVault destinationVault : Z) (amountSell amountBuy : BigNumber)
    (nonce timestamp : Z)
| call_starkSignOrder_v2 (path : string)
    (sourceTokenAddress : option string)
    (sourceQuantizationType : StarkQuantizationType)
    (sourceQuantization sourceMintableBlobOrTokenId : option BigNumber)
    (destinationTokenAddress : option string)
    (destinationQuantizationType : StarkQuantizationType)
    (destinationQuantization destinationMintableBlobOrTokenId : option BigNumber)
    (sourceVault destinationVault : Z) (amountSell amountBuy : BigNumber)
    (nonce timestamp : Z)
| call_starkSignTransfer (path : string)
    (transferTokenAddress : option string) (transferQuantization : BigNumber)
    (targetPublicKey : string) (sourceVault destinationVault : Z)
    (amountTransfer : BigNumber) (nonce timestamp : Z)
| call_starkSignTransfer_v2 (path : string)
    (transferTokenAddress : option string)
    (transferQuantizationType : StarkQuantizationType)
    (transferQuantization transferMintableBlobOrTokenId : option BigNumber)
    (targetPublicKey : string) (sourceVault destinationVault : Z)
    (amountTransfer : BigNumber) (nonce timestamp : Z)
    (conditionalTransferAddress : option string)
    (conditionalTransferFact : option BigNumber)
| call_starkProvideQuantum (operationContract : option string)
    (operationQuantization : BigNumber)
| call_starkProvideQuantum_v2 (operationContract : option string)
    (operationQuantizationType : StarkQuantizationType)
    (operationQuantization operationMintableBlobOrTokenId : option BigNumber)
| call_starkUnsafeSign (path hash : string)
| call_eth2GetPublicKey (path : string) (boolDisplay : bool)
| call_eth2SetWithdrawalIndex (withdrawalIndex : Z).

(** What a call resolves with. *)
Inductive op_value : Type :=
| val_address (a : AddressResult)
| val_boolean (b : bool)
| val_tx_signature (sig : TxSignature)
| val_msg_signature (sig : MsgSignature)
| val_stark_signature (sig : StarkSignature)
| val_configuration (c : AppConfiguration)
| val_buffer (b : Buffer)
| val_public_key (publicKey : string).

Definition pmap {A B} (f : A -> B) (p : Promise A) : Promise B :=
  then1 p (fun a => resolve (f a)).

(** The four operations with the [0x6d00] fallback. *)
Definition has_unsupported_fallback (op : operation) : bool :=
  match op with
  | call_provideERC20TokenInformation _
  | call_starkProvideQuantum _ _
  | call_starkProvideQuantum_v2 _ _ _ _
  | call_eth2SetWithdrawalIndex _ => true
  | _ => false
  end.

Definition is_signTransaction (op : operation) : bool :=
  match op with
  | call_signTransaction _ _ => true
  | _ => false
  end.

(** [r] and [s] of a value that is a signature. *)
Definition signature_r_s (v : op_value) : option (string * string) :=
  match v with
  | val_tx_signature sig => Some (tx_r sig, tx_s sig)
  | val_msg_signature sig => Some (msg_r sig, msg_s sig)
  | val_stark_signature sig => Some (stark_r sig, stark_s sig)
  | _ => None
  end.

(** What a call settles to when the transport rejects a frame with [e],
    by the rejection handler the operation has. *)
Definition on_rejection (op : operation) (e : js_error) : result op_value :=
  if has_unsupported_fallback op then
    if statusCode_is e 0x6d00 then Ok (val_boolean false) else Throw e
  else if is_signTransaction op then Throw (remapTransactionRelatedErrors e)
  else Throw e.

Section Run.

Variable transport_send : list apdu -> apdu -> result Buffer.
Variable splitPath : string -> result (list Z).
Variable decode : Buffer -> result rlp_value.

(** The promise a call returns; [None] when the call never returns. *)
Definition run (op : operation) : option (Promise op_value) :=
  match op with
  | call_getAddress path boolDisplay boolChaincode =>
      Some (pmap val_address
              (getAddress transport_send splitPath path boolDisplay boolChaincode))
  | call_provideERC20TokenInformation data =>
      Some (pmap val_boolean (provideERC20TokenInformation transport_send data))
  | call_signTransaction path rawTxHex =>
      option_map (pmap val_tx_signature)
        (signTransaction transport_send splitPath decode path rawTxHex)
  | call_signPersonalMessage path messageHex =>
      option_map (pmap val_msg_signature)
        (signPersonalMessage transport_send splitPath path messageHex)
  | call_getAppConfiguration =>
      Some (pmap val_configuration (getAppConfiguration transport_send))
  | call_signEIP712HashedMessage path d h =>
      Some (pmap val_msg_signature
              (signEIP712HashedMessage transport_send splitPath path d h))
  | call_starkGetPublicKey path boolDisplay =>
      Some (pmap val_buffer
              (starkGetPublicKey transport_send splitPath path boolDisplay))
  | call_starkSignOrder path a1 q1 a2 q2 sv dv sell buy nonce ts =>
      Some (pmap val_stark_signature
              (starkSignOrder transport_send splitPath path a1 q1 a2 q2 sv dv
                 sell buy nonce ts))
  | call_starkSignOrder_v2 path a1 t1 q1 m1 a2 t2 q2 m2 sv dv sell buy nonce ts =>
      Some (pmap val_stark_signature
              (starkSignOrder_v2 transport_send splitPath path a1 t1 q1 m1 a2
                 t2 q2 m2 sv dv sell buy nonce ts))
  | call_starkSignTransfer path a q key sv dv amount nonce ts =>
      Some (pmap val_stark_signature
              (starkSignTransfer transport_send splitPath path a q key sv dv
                 amount nonce ts))
  | call_starkSignTransfer_v2 path a t q m key sv dv amount nonce ts ca cf =>
      Some (pmap val_stark_signature
              (starkSignTransfer_v2 transport_send splitPath path a t q m key
                 sv dv amount nonce ts ca cf))
  | call_starkProvideQuantum c q =>
      Some (pmap val_boolean (starkProvideQuantum transport_send c q))
  | call_starkProvideQuantum_v2 c t q m =>
      Some (pmap val_boolean (starkProvideQuantum_v2 transport_send c t q m))
  | call_starkUnsafeSign path hash =>
      Some (pmap val_stark_signature
              (starkUnsafeSign transport_send splitPath path hash))
  | call_eth2GetPublicKey path boolDisplay =>
      Some (pmap val_public_key
              (eth2GetPublicKey transport_send splitPath path boolDisplay))
  | call_eth2SetWithdrawalIndex withdrawalIndex =>
      Some (pmap val_boolean
              (eth2SetWithdrawalIndex transport_send withdrawalIndex))
  end.

(** The call settled after the transport rejected its last frame with
    [e]: [sent'] is [sent] followed by the frames of the call, the
    transport having rejected the last of them. *)
Definition transport_rejected (sent sent' : list apdu) (e : js_error) : Prop :=
  exists frames frame,
    sent' = sent ++ frames ++ [frame]
    /\ transport_send (sent ++ frames) frame = Throw e.

(** The call settled after the transport answered its last frame with
    [response]. *)
Definition transport_answered (sent sent' : list apdu) (response : Buffer)
  : Prop :=
  exists frames frame,
    sent' = sent ++ frames ++ [frame]
    /\ transport_send (sent ++ frames) frame = Ok response.

(** The two ways a call settles: without a frame sent, on an error; or
    on what the transport did with the last frame sent. *)
Definition settles (op : operation) (sent sent' : list apdu)
    (res : result op_value) : Prop :=
  (sent' = sent /\ exists e, res = Throw e)
  \/ (exists frames frame,
         sent' = sent ++ frames ++ [frame]
         /\ match transport_send (sent ++ frames) frame with
            | Ok response =>
                exists v,
                res = Ok v
                /\ (has_unsupported_fallback op = true -> v = val_boolean true)
                /\ (forall r s, signature_r_s v = Some (r, s) ->
                                r = parse_r response /\ s = parse_s response)
            | Throw e => res = on_rejection op e
            end).

End Run.

(** ** Sample inputs *)

(** [splitPath("44'/52752'/0'/0/0")] *)
Definition sample_paths : list Z :=
  [2147483692; 2147536400; 2147483648; 0; 0].

(** A decoded transaction of nine fields, the last three being the chain
    id and the empty [r] and [s]; its data field has 86 bytes. *)
Definition sample_rlpTx : rlp_value :=
  RlpArray
    [RlpBuffer (hexBuffer "01"); RlpBuffer (hexBuffer "04e3b29200");
     RlpBuffer (hexBuffer "5208");
     RlpBuffer (hexBuffer "28ee52a8f3d6e5d15f8b131996950d7f296c7952");
     RlpBuffer (hexBuffer "2bd72a24874000"); RlpBuffer (repeat xab 86);
     RlpBuffer (hexBuffer "01"); RlpBuffer []; RlpBuffer []].

(** Its encoding, a raw transaction of 132 bytes: with [sample_paths] the
    first chunk would end on [rlpOffset = 129]. *)
Definition sample_rawTx : Buffer := encode sample_rlpTx.

(** The same transaction signed: [v = 0x25], and [r] and [s] of 32 bytes
    each. *)
Definition signed_rlpTx : rlp_value :=
  RlpArray
    [RlpBuffer (hexBuffer "01"); RlpBuffer (hexBuffer "04e3b29200");
     RlpBuffer (hexBuffer "5208");
     RlpBuffer (hexBuffer "28ee52a8f3d6e5d15f8b131996950d7f296c7952");
     RlpBuffer (hexBuffer "2bd72a24874000"); RlpBuffer (repeat xab 86);
     RlpBuffer (hexBuffer "25"); RlpBuffer (repeat x11 32);
     RlpBuffer (repeat x22 32)].

(** Its encoding, a raw transaction of 196 bytes. *)
Definition signed_rawTx : Buffer := encode signed_rlpTx.

(** ** The structural suffix, in the words of the specification *)

(** The trailing three elements of a decoded transaction. *)
Definition trailing_elements (rlpTx : rlp_value) : list rlp_value :=
  match rlpTx with
  | RlpArray items => skipn (List.length items - 3) items
  | RlpBuffer _ => []
  end.

(** The bytes of the structural suffix: the encodings of the trailing
    three elements, one after the other, as they end the raw
    transaction. *)
Definition structural_suffix (rlpTx : rlp_value) : Buffer :=
  List.concat (List.map encode (trailing_elements rlpTx)).

(** The offset X of the specification: where the structural suffix begins
    in the raw transaction. *)
Definition structural_suffix_offset (rawTx : Buffer) (rlpTx : rlp_value) : Z :=
  len rawTx - len (structural_suffix rlpTx).

Definition sample_message : Buffer := repeat x2a 300.

(** The raw transaction of [signTransaction]'s documentation. *)
Definition sample_rawTxHex : string :=
  "e8018504e3b292008252089428ee52a8f3d6e5d15f8b131996950d7f296c7952872bd72a2487400080".

(** Its six fields, as [decode] returns them. *)
Definition sample_decode (rawTx : Buffer) : result rlp_value :=
  Ok (RlpArray
        [RlpBuffer (hexBuffer "01"); RlpBuffer (hexBuffer "04e3b29200");
         RlpBuffer (hexBuffer "5208");
         RlpBuffer (hexBuffer "28ee52a8f3d6e5d15f8b131996950d7f296c7952");
         RlpBuffer (hexBuffer "2bd72a24874000"); RlpBuffer []]).

Definition sample_splitPath (path : string) : result (list Z) :=
  Ok sample_paths.

(** The first account of coin type 52752. *)
Definition sample_account : BIP44 :=
  mk_BIP44 (number 52752 eq_refl) (number 0 eq_refl) (number 0 eq_refl).

(** A transport that answers every frame with these bytes. *)
Definition answering (response : Buffer) : list apdu -> apdu -> result Buffer :=
  fun _ _ => Ok response.

(** A transport that rejects every frame with this status. *)
Definition rejecting (statusCode : Z) : list apdu -> apdu -> result Buffer :=
  fun _ _ => Throw (TransportStatusError statusCode).

(** ** Expected frame contents *)

(** The path header every path-bearing frame starts with: the number of
    elements, then each element as four bytes, most significant first. *)
Definition path_header (paths : list Z) : Buffer :=
  byte_of_Z (len paths) :: List.concat (List.map uint32be paths).

(** The bytes of an address field: the address, or zeros when it is
    absent. *)
Definition address_field (addressHex : option Buffer) : Buffer :=
  match addressHex with
  | Some b => b
  | None => zeros 20
  end.

(** The bytes of an optional 32-byte magnitude field: the magnitude, or
    zeros when it is absent. *)
Definition magnitude_or_zeros (value : option BigNumber) : Buffer :=
  match value with
  | Some n => magnitude_bytes n 32
  | None => zeros 32
  end.

(** The bytes [starkSignTransfer_v2] leaves after the timestamp. *)
Definition conditional_tail (addressHex : option Buffer)
    (fact : option BigNumber) : Buffer :=
  match addressHex, fact with
  | Some addressHex, Some fact => magnitude_bytes fact 32 ++ addressHex
  | Some _, None => zeros 52
  | None, _ => []
  end.

(* ================================================================== *)
(** * Part II. Properties                                              *)
(* ================================================================== *)

(** ** Lists and buffers *)

Ltac zcases :=
  repeat match goal with
    | |- context [?a >? ?b] => rewrite (Z.gtb_ltb a b)
    | |- context [?a >=? ?b] => rewrite (Z.geb_leb a b)
    | |- context [?a <? ?b] => destruct (Z.ltb_spec a b)
    | |- context [?a <=? ?b] => destruct (Z.leb_spec a b)
    | |- context [?a =? ?b] => destruct (Z.eqb_spec a b)
    | H : context [?a <? ?b] |- _ => destruct (Z.ltb_spec a b)
    | H : context [?a <=? ?b] |- _ => destruct (Z.leb_spec a b)
    | H : context [?a =? ?b] |- _ => destruct (Z.eqb_spec a b)
    end; cbn [negb andb orb].

Lemma len_nonneg {A} (l : list A) : 0 <= len l.
Proof. unfold len. lia. Qed.

Lemma len_nil {A} : len (@nil A) = 0.
Proof. reflexivity. Qed.

Lemma len_app {A} (l1 l2 : list A) : len (l1 ++ l2) = len l1 + len l2.
Proof. unfold len. rewrite length_app. lia. Qed.

Lemma len_cons {A} (x : A) (l : list A) : len (x :: l) = 1 + len l.
Proof. unfold len. cbn [List.length]. lia. Qed.

Lemma len_zeros (n : nat) : len (zeros n) = Z.of_nat n.
Proof. unfold len, zeros. now rewrite repeat_length. Qed.

Lemma len_firstn {A} (n : Z) (l : list A) :
  0 <= n <= len l -> len (firstn (Z.to_nat n) l) = n.
Proof. unfold len. intros H. rewrite length_firstn. lia. Qed.

Lemma len_skipn {A} (n : Z) (l : list A) :
  0 <= n <= len l -> len (skipn (Z.to_nat n) l) = len l - n.
Proof. unfold len. intros H. rewrite length_skipn. lia. Qed.

Lemma firstn_len {A} (l : list A) : firstn (Z.to_nat (len l)) l = l.
Proof. unfold len. rewrite Nat2Z.id. apply firstn_all. Qed.

Lemma set_index_length (b : Buffer) (i v : Z) :
  len (set_index b i v) = len b.
Proof.
  unfold set_index. destruct ((0 <=? i) && (i <? len b)) eqn:E; [|reflexivity].
  apply andb_prop in E as [E1 E2].
  apply Z.leb_le in E1. apply Z.ltb_lt in E2.
  rewrite len_app, len_cons, len_firstn by lia.
  unfold len in *. rewrite length_skipn. lia.
Qed.

Lemma writeUInt32BE_length (b b' : Buffer) (value offset : Z) :
  writeUInt32BE b value offset = Ok b' -> len b' = len b.
Proof.
  unfold writeUInt32BE.
  destruct ((value <? 0) || (value >? 4294967295)); [discriminate|].
  destruct ((offset <? 0) || (offset + 4 >? len b)) eqn:E; [discriminate|].
  apply orb_false_elim in E as [E1 E2].
  apply Z.ltb_ge in E1. rewrite Z.gtb_ltb in E2. apply Z.ltb_ge in E2.
  intros [= <-].
  rewrite !len_app, !len_cons, len_firstn, len_skipn by lia. lia.
Qed.

Lemma forEach_writeUInt32BE_length (paths : list Z) :
  forall (b b' : Buffer) (i : Z),
    forEach_writeUInt32BE b paths i = Ok b' -> len b' = len b.
Proof.
  induction paths as [|element rest IH]; intros b b' i;
    cbn [forEach_writeUInt32BE].
  - now intros [= <-].
  - destruct (writeUInt32BE b element (1 + 4 * i)) as [b1|e] eqn:E;
      cbn [rbind]; [|discriminate].
    intros H. apply IH in H. apply writeUInt32BE_length in E. lia.
Qed.

Lemma write_path_header_length (b b' : Buffer) (paths : list Z) :
  write_path_header b paths = Ok b' -> len b' = len b.
Proof.
  unfold write_path_header. intros H.
  apply forEach_writeUInt32BE_length in H. now rewrite set_index_length in H.
Qed.

(** A copy that fits in the target replaces the bytes it covers. *)
Lemma copy_fits (source target : Buffer) (targetStart sourceStart sourceEnd : Z) :
  0 <= targetStart ->
  0 <= sourceStart <= sourceEnd ->
  sourceEnd <= len source ->
  targetStart + (sourceEnd - sourceStart) <= len target ->
  copy source target targetStart sourceStart sourceEnd
  = Ok (firstn (Z.to_nat targetStart) target
        ++ firstn (Z.to_nat (sourceEnd - sourceStart))
             (skipn (Z.to_nat sourceStart) source)
        ++ skipn (Z.to_nat (targetStart + (sourceEnd - sourceStart))) target).
Proof.
  intros Ht Hs He Hfit. unfold copy.
  assert (Hsame : sourceEnd - sourceStart = 0 ->
                  Ok target
                  = Ok (firstn (Z.to_nat targetStart) target
                        ++ firstn (Z.to_nat (sourceEnd - sourceStart))
                             (skipn (Z.to_nat sourceStart) source)
                        ++ skipn (Z.to_nat (targetStart + (sourceEnd - sourceStart)))
                             target)).
  { intros ->. rewrite Z.add_0_r. cbn [Z.to_nat firstn app].
    now rewrite firstn_skipn. }
  zcases; try lia; try (apply Hsame; lia); reflexivity.
Qed.

(** A negative [sourceEnd] is refused. *)
Lemma copy_negative_end (source target : Buffer) (targetStart sourceStart sourceEnd : Z) :
  sourceEnd < 0 ->
  exists e, copy source target targetStart sourceStart sourceEnd = Throw e.
Proof.
  intros H. unfold copy. zcases; try lia; eauto.
Qed.

(** ** The chunking loops *)

Lemma signTransaction_loop_shape (paths : list Z) (rawTx : Buffer) (rlpOffset : Z) :
  forall (fuel : nat) (offset : Z) (toSend : list Buffer),
    signTransaction_loop fuel paths rawTx rlpOffset offset toSend
    = chunk_loop (signTransaction_chunkSize paths rawTx rlpOffset)
        (signTransaction_buffer paths rawTx) (len rawTx) fuel offset toSend.
Proof.
  induction fuel as [|fuel IH]; intros offset toSend; [reflexivity|].
  cbn [signTransaction_loop chunk_loop].
  destruct (offset =? len rawTx); [reflexivity|].
  fold (signTransaction_chunkSize paths rawTx rlpOffset offset).
  destruct (signTransaction_buffer paths rawTx offset
              (signTransaction_chunkSize paths rawTx rlpOffset offset));
    [apply IH|reflexivity].
Qed.

Lemma signPersonalMessage_loop_shape (paths : list Z) (message : Buffer) :
  forall (fuel : nat) (offset : Z) (toSend : list Buffer),
    signPersonalMessage_loop fuel paths message offset toSend
    = chunk_loop (signPersonalMessage_chunkSize paths message)
        (signPersonalMessage_buffer paths message) (len message) fuel offset
        toSend.
Proof.
  induction fuel as [|fuel IH]; intros offset toSend; [reflexivity|].
  cbn [signPersonalMessage_loop chunk_loop].
  destruct (offset =? len message); [reflexivity|].
  fold (signPersonalMessage_chunkSize paths message offset).
  destruct (signPersonalMessage_buffer paths message offset
              (signPersonalMessage_chunkSize paths message offset));
    [apply IH|reflexivity].
Qed.

Lemma payload_regions_0 (frames : list Buffer) :
  payload_regions 0 frames = List.concat frames.
Proof. destruct frames; reflexivity. Qed.

Section ChunkLoop.

Variable chunkSize : Z -> Z.
Variable build : Z -> Z -> result Buffer.
Variable payload : Buffer.
Variable header : Z.

(** What the loops' bodies have in common. *)
Hypothesis header_nonneg : 0 <= header.
Hypothesis chunkSize_fits :
  forall offset, 0 <= offset < len payload ->
                 chunkSize offset <= len payload - offset.
Hypothesis build_negative :
  forall offset size b, 0 <= offset -> size < 0 -> build offset size <> Ok b.
Hypothesis build_first :
  forall size b,
    0 <= size <= len payload -> build 0 size = Ok b ->
    len b = header + size
    /\ skipn (Z.to_nat header) b = firstn (Z.to_nat size) payload.
Hypothesis build_next :
  forall offset size b,
    0 < offset -> 0 <= size -> offset + size <= len payload ->
    build offset size = Ok b ->
    b = firstn (Z.to_nat size) (skipn (Z.to_nat offset) payload).

Let loop := chunk_loop chunkSize build (len payload).

(** A chunk of no byte leaves the loop where it is: it never exits. *)
Lemma chunk_loop_stuck (offset : Z) :
  offset <> len payload -> chunkSize offset = 0 ->
  forall fuel toSend out, loop fuel offset toSend <> Some (Ok out).
Proof.
  intros Hne Hzero. induction fuel as [|fuel IH]; intros toSend out;
    [discriminate|].
  unfold loop. cbn [chunk_loop]. apply Z.eqb_neq in Hne. rewrite Hne, Hzero.
  destruct (build offset 0); [|discriminate].
  rewrite Z.add_0_r. apply IH.
Qed.

(** The header a frame starting at [offset] carries. *)
Let header_at (offset : Z) : Z := if offset =? 0 then header else 0.

(** The frames the loop adds from [offset] on carry the rest of the
    payload, in chunks of the sizes [chunkSize] gives. *)
Lemma chunk_loop_frames :
  forall fuel offset toSend out,
    0 <= offset <= len payload ->
    loop fuel offset toSend = Some (Ok out) ->
    exists frames,
      out = toSend ++ frames
      /\ payload_regions (header_at offset) frames
         = skipn (Z.to_nat offset) payload
      /\ chunk_chain chunkSize offset
           (chunk_boundaries (header_at offset) offset frames).
Proof.
  induction fuel as [|fuel IH]; intros offset toSend out Hoff; [discriminate|].
  unfold loop. cbn [chunk_loop].
  destruct (Z.eqb_spec offset (len payload)) as [Heq|Hne].
  - intros [= <-]. exists []. rewrite app_nil_r. repeat split.
    cbn [payload_regions]. subst offset. unfold len.
    rewrite Nat2Z.id, skipn_all. reflexivity.
  - destruct (build offset (chunkSize offset)) as [b|e] eqn:Hb; [|discriminate].
    intros Hloop.
    assert (Hfit := chunkSize_fits offset ltac:(lia)).
    destruct (Z.lt_trichotomy (chunkSize offset) 0) as [Hneg|[Hzero|Hpos]].
    + exfalso. eapply build_negative; [| |exact Hb]; lia.
    + exfalso. rewrite Hzero, Z.add_0_r in Hloop.
      exact (chunk_loop_stuck offset Hne Hzero _ _ _ Hloop).
    + apply IH in Hloop; [|lia].
      destruct Hloop as (frames & -> & Hregions & Hchain).
      assert (Hnz : (offset + chunkSize offset =? 0) = false)
        by (apply Z.eqb_neq; lia).
      unfold header_at in Hregions, Hchain. rewrite Hnz in Hregions, Hchain.
      rewrite payload_regions_0 in Hregions.
      assert (Hframe : len b = header_at offset + chunkSize offset
                       /\ skipn (Z.to_nat (header_at offset)) b
                          = firstn (Z.to_nat (chunkSize offset))
                              (skipn (Z.to_nat offset) payload)).
      { unfold header_at. destruct (Z.eqb_spec offset 0) as [->|Hnz0].
        - apply build_first in Hb; [|lia]. exact Hb.
        - apply build_next in Hb; try lia. subst b. split; [|reflexivity].
          rewrite len_firstn; [lia|]. rewrite len_skipn; lia. }
      destruct Hframe as [Hlen Hskip].
      exists (b :: frames). split; [now rewrite <- app_assoc|]. split.
      * cbn [payload_regions]. rewrite Hskip, Hregions.
        rewrite Z2Nat.inj_add by lia.
        rewrite Nat.add_comm, <- skipn_skipn. apply firstn_skipn.
      * cbn [chunk_boundaries chunk_chain].
        replace (offset + len b - header_at offset)
          with (offset + chunkSize offset) by lia.
        repeat split; [lia|exact Hchain].
Qed.

(** Chunks of at least one byte bring the loop to its exit within one
    iteration per byte left, and one more. *)
Lemma chunk_loop_exits :
  (forall offset b, 0 <= offset < len payload ->
                    build offset (chunkSize offset) = Ok b ->
                    0 < chunkSize offset) ->
  forall (fuel : nat) offset toSend,
    0 <= offset <= len payload ->
    len payload - offset < Z.of_nat fuel ->
    exists r, loop fuel offset toSend = Some r.
Proof.
  intros Hpos. induction fuel as [|fuel IH]; intros offset toSend Hoff Hfuel;
    [lia|].
  unfold loop. cbn [chunk_loop].
  destruct (Z.eqb_spec offset (len payload)) as [Heq|Hne]; [eauto|].
  destruct (build offset (chunkSize offset)) as [b|e] eqn:Hb; [|eauto].
  assert (Hfit := chunkSize_fits offset ltac:(lia)).
  apply Hpos in Hb; [|lia].
  apply IH; lia.
Qed.

End ChunkLoop.

(** A copy that fills the target from [start] to its end. *)
Lemma copy_tail (source target b : Buffer) (start offset size : Z) :
  0 <= start -> 0 <= offset -> 0 <= size ->
  offset + size <= len source ->
  len target = start + size ->
  copy source target start offset (offset + size) = Ok b ->
  len b = start + size
  /\ skipn (Z.to_nat start) b
     = firstn (Z.to_nat size) (skipn (Z.to_nat offset) source).
Proof.
  intros Hstart Hoff Hsize Hsrc Htgt.
  rewrite copy_fits by lia.
  replace (offset + size - offset) with size by lia.
  intros [= <-].
  assert (Hrest : skipn (Z.to_nat (start + size)) target = []).
  { apply skipn_all2. unfold len in Htgt. lia. }
  rewrite Hrest, app_nil_r.
  assert (Hpre : List.length (firstn (Z.to_nat start) target) = Z.to_nat start).
  { rewrite length_firstn. unfold len in Htgt. lia. }
  split.
  - rewrite len_app, len_firstn, len_firstn; try lia.
    rewrite len_skipn; lia.
  - rewrite skipn_app, Hpre, Nat.sub_diag. cbn [skipn].
    rewrite skipn_all2 by lia. reflexivity.
Qed.

Lemma Buffer_alloc_ok (size : Z) (b : Buffer) :
  Buffer_alloc size = Ok b -> 0 <= size /\ len b = size.
Proof.
  unfold Buffer_alloc. destruct (Z.ltb_spec size 0); [discriminate|].
  intros [= <-]. rewrite len_zeros. lia.
Qed.

Lemma rbind_ok {A B} (c : result A) (k : A -> result B) (b : B) :
  rbind c k = Ok b -> exists a, c = Ok a /\ k a = Ok b.
Proof. destruct c as [a|e]; cbn; [eauto|discriminate]. Qed.

Section SignTransactionFrames.

Variable paths : list Z.
Variable rawTx : Buffer.
Variable rlpOffset : Z.

Lemma signTransaction_chunkSize_fits (offset : Z) :
  0 <= offset < len rawTx ->
  signTransaction_chunkSize paths rawTx rlpOffset offset <= len rawTx - offset.
Proof.
  intros H. unfold signTransaction_chunkSize. zcases; lia.
Qed.

Lemma signTransaction_buffer_negative (offset size : Z) (b : Buffer) :
  0 <= offset -> size < 0 -> signTransaction_buffer paths rawTx offset size <> Ok b.
Proof.
  intros Hoff Hneg Hb. unfold signTransaction_buffer in Hb.
  apply rbind_ok in Hb as (b0 & Halloc & Hb).
  apply Buffer_alloc_ok in Halloc as [Hsize _].
  destruct (Z.eqb_spec offset 0) as [->|Hnz]; [|lia].
  apply rbind_ok in Hb as (b1 & _ & Hb).
  destruct (copy_negative_end rawTx b1 (1 + 4 * len paths) 0 (0 + size)) as [e He];
    [lia|congruence].
Qed.

Lemma signTransaction_buffer_first (size : Z) (b : Buffer) :
  0 <= size <= len rawTx ->
  signTransaction_buffer paths rawTx 0 size = Ok b ->
  len b = (1 + 4 * len paths) + size
  /\ skipn (Z.to_nat (1 + 4 * len paths)) b = firstn (Z.to_nat size) rawTx.
Proof.
  intros Hsize Hb. unfold signTransaction_buffer in Hb. cbn [Z.eqb] in Hb.
  apply rbind_ok in Hb as (b0 & Halloc & Hb).
  apply Buffer_alloc_ok in Halloc as [_ Hlen0].
  apply rbind_ok in Hb as (b1 & Hheader & Hb).
  apply write_path_header_length in Hheader.
  assert (Hp := len_nonneg paths).
  apply copy_tail in Hb; try lia. exact Hb.
Qed.

Lemma signTransaction_buffer_next (offset size : Z) (b : Buffer) :
  0 < offset -> 0 <= size -> offset + size <= len rawTx ->
  signTransaction_buffer paths rawTx offset size = Ok b ->
  b = firstn (Z.to_nat size) (skipn (Z.to_nat offset) rawTx).
Proof.
  intros Hoff Hsize Hfit Hb. unfold signTransaction_buffer in Hb.
  destruct (Z.eqb_spec offset 0) as [|_]; [lia|].
  apply rbind_ok in Hb as (b0 & Halloc & Hb).
  apply Buffer_alloc_ok in Halloc as [_ Hlen0].
  apply copy_tail in Hb; try lia. destruct Hb as [_ Hb]. exact Hb.
Qed.

(** A frame is built only for a chunk of at least one byte, unless the
    chunk that ends on [rlpOffset] is a single byte. *)
Lemma signTransaction_chunkSize_positive (offset : Z) (b : Buffer) :
  (rlpOffset = 0 \/ rlpOffset <> len rawTx) ->
  (len paths <> 37 \/ rlpOffset <> 1) ->
  0 <= offset < len rawTx ->
  signTransaction_buffer paths rawTx offset
    (signTransaction_chunkSize paths rawTx rlpOffset offset) = Ok b ->
  0 < signTransaction_chunkSize paths rawTx rlpOffset offset.
Proof.
  intros Hend Hone Hoff Hb.
  destruct (Z.lt_trichotomy (signTransaction_chunkSize paths rawTx rlpOffset offset) 0)
    as [Hneg|[Hzero|Hpos]]; [| |exact Hpos].
  - exfalso. eapply signTransaction_buffer_negative; [| |exact Hb]; lia.
  - exfalso. clear Hb. revert Hzero. unfold signTransaction_chunkSize.
    zcases; lia.
Qed.

End SignTransactionFrames.

Section SignPersonalMessageFrames.

Variable paths : list Z.
Variable message : Buffer.

Lemma signPersonalMessage_chunkSize_fits (offset : Z) :
  0 <= offset < len message ->
  signPersonalMessage_chunkSize paths message offset <= len message - offset.
Proof.
  intros H. unfold signPersonalMessage_chunkSize. zcases; lia.
Qed.

Lemma signPersonalMessage_buffer_negative (offset size : Z) (b : Buffer) :
  0 <= offset -> size < 0 ->
  signPersonalMessage_buffer paths message offset size <> Ok b.
Proof.
  intros Hoff Hneg Hb. unfold signPersonalMessage_buffer in Hb.
  apply rbind_ok in Hb as (b0 & Halloc & Hb).
  apply Buffer_alloc_ok in Halloc as [Hsize _].
  destruct (Z.eqb_spec offset 0) as [->|Hnz]; [|lia].
  apply rbind_ok in Hb as (b1 & _ & Hb).
  apply rbind_ok in Hb as (b2 & _ & Hb).
  destruct (copy_negative_end message b2 (1 + 4 * len paths + 4) 0 (0 + size))
    as [e He]; [lia|congruence].
Qed.

Lemma signPersonalMessage_buffer_first (size : Z) (b : Buffer) :
  0 <= size <= len message ->
  signPersonalMessage_buffer paths message 0 size = Ok b ->
  len b = (1 + 4 * len paths + 4) + size
  /\ skipn (Z.to_nat (1 + 4 * len paths + 4)) b
     = firstn (Z.to_nat size) message.
Proof.
  intros Hsize Hb. unfold signPersonalMessage_buffer in Hb. cbn [Z.eqb] in Hb.
  apply rbind_ok in Hb as (b0 & Halloc & Hb).
  apply Buffer_alloc_ok in Halloc as [_ Hlen0].
  apply rbind_ok in Hb as (b1 & Hheader & Hb).
  apply write_path_header_length in Hheader.
  apply rbind_ok in Hb as (b2 & Hlength & Hb).
  apply writeUInt32BE_length in Hlength.
  assert (Hp := len_nonneg paths).
  apply copy_tail in Hb; try lia. exact Hb.
Qed.

Lemma signPersonalMessage_buffer_next (offset size : Z) (b : Buffer) :
  0 < offset -> 0 <= size -> offset + size <= len message ->
  signPersonalMessage_buffer paths message offset size = Ok b ->
  b = firstn (Z.to_nat size) (skipn (Z.to_nat offset) message).
Proof.
  intros Hoff Hsize Hfit Hb. unfold signPersonalMessage_buffer in Hb.
  destruct (Z.eqb_spec offset 0) as [|_]; [lia|].
  apply rbind_ok in Hb as (b0 & Halloc & Hb).
  apply Buffer_alloc_ok in Halloc as [_ Hlen0].
  apply copy_tail in Hb; try lia. destruct Hb as [_ Hb]. exact Hb.
Qed.

(** The first chunk has room for [145 - 4 * paths.length] bytes, which is
    never zero; a frame is built only when that is positive. *)
Lemma signPersonalMessage_chunkSize_positive (offset : Z) (b : Buffer) :
  0 <= offset < len message ->
  signPersonalMessage_buffer paths message offset
    (signPersonalMessage_chunkSize paths message offset) = Ok b ->
  0 < signPersonalMessage_chunkSize paths message offset.
Proof.
  intros Hoff Hb.
  destruct (Z.lt_trichotomy (signPersonalMessage_chunkSize paths message offset) 0)
    as [Hneg|[Hzero|Hpos]]; [| |exact Hpos].
  - exfalso. eapply signPersonalMessage_buffer_negative; [| |exact Hb]; lia.
  - exfalso. clear Hb. revert Hzero. unfold signPersonalMessage_chunkSize.
    zcases; lia.
Qed.

End SignPersonalMessageFrames.

(** ** [encode] and [rlpOffset] *)

Lemma encodeLength_short (length offset : Z) :
  length < 56 -> len (encodeLength length offset) = 1.
Proof.
  intros H. unfold encodeLength. destruct (Z.ltb_spec length 56); [reflexivity|lia].
Qed.

Lemma encode_nonempty (v : rlp_value) : 1 <= len (encode v).
Proof.
  assert (Hgen : forall (b : Buffer) offset,
             1 <= len (encodeLength (len b) offset ++ b)).
  { intros b offset. rewrite len_app. destruct b as [|x b].
    - rewrite len_nil, encodeLength_short by lia. lia.
    - rewrite len_cons.
      assert (H1 := len_nonneg b).
      assert (H2 := len_nonneg (encodeLength (1 + len b) offset)). lia. }
  destruct v as [b|items]; cbn [encode].
  - destruct b as [|x [|y b]]; try apply Hgen.
    destruct (Z_of_byte x <? 128); [rewrite len_cons, len_nil; lia|apply Hgen].
  - apply Hgen.
Qed.

Lemma slice_last3 {A} (l : list A) :
  6 < len l -> List.length (slice l (Some (-3)) (Some (len l))) = 3%nat.
Proof.
  intros H. unfold slice, adjustOffset.
  zcases; try lia; rewrite length_firstn, length_skipn; unfold len in *; lia.
Qed.

Lemma encode_last3 (rlpTx : rlp_value) :
  6 < rlp_length rlpTx -> 3 <= len (encode (rlp_slice rlpTx (-3))).
Proof.
  destruct rlpTx as [b|items]; cbn [rlp_length rlp_slice encode]; intros H.
  - apply slice_last3 in H.
    destruct (slice b (Some (-3)) (Some (len b))) as [|x [|y [|z [|w l]]]];
      try discriminate H.
    rewrite len_app, !len_cons, len_nil.
    assert (H0 := len_nonneg (encodeLength (1 + (1 + (1 + 0))) 128)). lia.
  - apply slice_last3 in H.
    destruct (slice items (Some (-3)) (Some (len items))) as [|x [|y [|z [|w l]]]];
      try discriminate H.
    cbn [List.map List.concat]. rewrite app_nil_r.
    rewrite !len_app.
    assert (Hx := encode_nonempty x). assert (Hy := encode_nonempty y).
    assert (Hz := encode_nonempty z).
    assert (H0 := len_nonneg
                    (encodeLength (len (encode x) + (len (encode y) + len (encode z))) 192)).
    lia.
Qed.

(** [rlpOffset] is zero, or falls at least two bytes before the end of the
    transaction. *)
Lemma signTransaction_rlpOffset_range (rawTx : Buffer) (rlpTx : rlp_value) :
  signTransaction_rlpOffset rawTx rlpTx = 0
  \/ signTransaction_rlpOffset rawTx rlpTx <= len rawTx - 2.
Proof.
  unfold signTransaction_rlpOffset.
  destruct (Z.gtb_spec (rlp_length rlpTx) 6) as [H|H]; [right|now left].
  apply encode_last3 in H. lia.
Qed.

(** ** When frames are built *)

Lemma writeUInt32BE_ok (b : Buffer) (value offset : Z) :
  0 <= value <= 4294967295 -> 0 <= offset -> offset + 4 <= len b ->
  exists b', writeUInt32BE b value offset = Ok b'.
Proof.
  intros Hv Ho Hfit. unfold writeUInt32BE. zcases; try lia. eauto.
Qed.

Lemma forEach_writeUInt32BE_ok (paths : list Z) :
  Forall (fun element => 0 <= element <= 4294967295) paths ->
  forall (b : Buffer) (i : Z),
    0 <= i -> 1 + 4 * (i + len paths) <= len b ->
    exists b', forEach_writeUInt32BE b paths i = Ok b'.
Proof.
  induction 1 as [|element rest Helement _ IH]; intros b i Hi Hfit;
    cbn [forEach_writeUInt32BE]; [eauto|].
  rewrite len_cons in Hfit. assert (Hrest := len_nonneg rest).
  destruct (writeUInt32BE_ok b element (1 + 4 * i)) as [b1 Hb1]; try lia.
  rewrite Hb1. cbn [rbind]. apply IH; [lia|].
  apply writeUInt32BE_length in Hb1. lia.
Qed.

Lemma write_path_header_ok (b : Buffer) (paths : list Z) :
  Forall (fun element => 0 <= element <= 4294967295) paths ->
  1 + 4 * len paths <= len b ->
  exists b', write_path_header b paths = Ok b'.
Proof.
  intros Hpaths Hfit. unfold write_path_header.
  apply forEach_writeUInt32BE_ok; [assumption|lia|].
  rewrite set_index_length. lia.
Qed.

Lemma Buffer_alloc_nonneg (size : Z) :
  0 <= size -> Buffer_alloc size = Ok (zeros (Z.to_nat size)).
Proof.
  intros H. unfold Buffer_alloc. destruct (Z.ltb_spec size 0); [lia|reflexivity].
Qed.

Lemma signTransaction_buffer_ok (paths : list Z) (rawTx : Buffer) (offset size : Z) :
  Forall (fun element => 0 <= element <= 4294967295) paths ->
  0 <= offset -> 0 <= size -> offset + size <= len rawTx ->
  exists b, signTransaction_buffer paths rawTx offset size = Ok b.
Proof.
  intros Hpaths Hoff Hsize Hfit. unfold signTransaction_buffer.
  assert (Hp := len_nonneg paths).
  destruct (Z.eqb_spec offset 0) as [->|Hnz].
  - rewrite Buffer_alloc_nonneg by lia. cbn [rbind].
    destruct (write_path_header_ok (zeros (Z.to_nat (1 + len paths * 4 + size))) paths)
      as [b1 Hb1]; [assumption|rewrite len_zeros; lia|].
    rewrite Hb1. cbn [rbind].
    apply write_path_header_length in Hb1. rewrite len_zeros in Hb1.
    rewrite copy_fits by lia. eauto.
  - rewrite Buffer_alloc_nonneg by lia. cbn [rbind].
    rewrite copy_fits; [eauto|lia|lia|lia|]. rewrite len_zeros. lia.
Qed.

Lemma signPersonalMessage_buffer_ok (paths : list Z) (message : Buffer)
    (offset size : Z) :
  Forall (fun element => 0 <= element <= 4294967295) paths ->
  len message <= 4294967295 ->
  0 <= offset -> 0 <= size -> offset + size <= len message ->
  exists b, signPersonalMessage_buffer paths message offset size = Ok b.
Proof.
  intros Hpaths Hlen Hoff Hsize Hfit. unfold signPersonalMessage_buffer.
  assert (Hp := len_nonneg paths). assert (Hm := len_nonneg message).
  destruct (Z.eqb_spec offset 0) as [->|Hnz].
  - rewrite Buffer_alloc_nonneg by lia. cbn [rbind].
    destruct (write_path_header_ok
                (zeros (Z.to_nat (1 + len paths * 4 + 4 + size))) paths)
      as [b1 Hb1]; [assumption|rewrite len_zeros; lia|].
    rewrite Hb1. cbn [rbind].
    apply write_path_header_length in Hb1. rewrite len_zeros in Hb1.
    destruct (writeUInt32BE_ok b1 (len message) (1 + 4 * len paths))
      as [b2 Hb2]; try lia.
    rewrite Hb2. cbn [rbind]. apply writeUInt32BE_length in Hb2.
    rewrite copy_fits by lia. eauto.
  - rewrite Buffer_alloc_nonneg by lia. cbn [rbind].
    rewrite copy_fits; [eauto|lia|lia|lia|]. rewrite len_zeros. lia.
Qed.

(** With frames that are always built, of at least one byte each, the
    loop exits with its frames. *)
Lemma chunk_loop_succeeds (chunkSize : Z -> Z) (build : Z -> Z -> result Buffer)
    (length : Z) :
  (forall offset, 0 <= offset < length ->
                  0 < chunkSize offset <= length - offset
                  /\ exists b, build offset (chunkSize offset) = Ok b) ->
  forall (fuel : nat) offset toSend,
    0 <= offset <= length -> length - offset < Z.of_nat fuel ->
    exists out, chunk_loop chunkSize build length fuel offset toSend = Some (Ok out).
Proof.
  intros Hstep. induction fuel as [|fuel IH]; intros offset toSend Hoff Hfuel;
    [lia|].
  cbn [chunk_loop].
  destruct (Z.eqb_spec offset length) as [Heq|Hne]; [eauto|].
  destruct (Hstep offset ltac:(lia)) as [Hsize [b Hb]].
  rewrite Hb. apply IH; lia.
Qed.

(** ** C1: the chunks carry the payload *)

Lemma signTransaction_loop_frames (paths : list Z) (rawTx : Buffer)
    (rlpOffset : Z) (fuel : nat) (toSend : list Buffer) :
  signTransaction_loop fuel paths rawTx rlpOffset 0 [] = Some (Ok toSend) ->
  payload_regions (1 + 4 * len paths) toSend = rawTx
  /\ chunk_chain (signTransaction_chunkSize paths rawTx rlpOffset) 0
       (chunk_boundaries (1 + 4 * len paths) 0 toSend).
Proof.
  rewrite signTransaction_loop_shape. intros H.
  assert (Hp := len_nonneg paths). assert (Hr := len_nonneg rawTx).
  apply (chunk_loop_frames _ _ rawTx (1 + 4 * len paths)) in H; try lia.
  - destruct H as (frames & -> & Hregions & Hchain). cbn [app Z.eqb] in *.
    split; assumption.
  - apply signTransaction_chunkSize_fits.
  - apply signTransaction_buffer_negative.
  - apply signTransaction_buffer_first.
  - apply signTransaction_buffer_next.
Qed.

Lemma signPersonalMessage_loop_frames (paths : list Z) (message : Buffer)
    (fuel : nat) (toSend : list Buffer) :
  signPersonalMessage_loop fuel paths message 0 [] = Some (Ok toSend) ->
  payload_regions (1 + 4 * len paths + 4) toSend = message
  /\ chunk_chain (signPersonalMessage_chunkSize paths message) 0
       (chunk_boundaries (1 + 4 * len paths + 4) 0 toSend).
Proof.
  rewrite signPersonalMessage_loop_shape. intros H.
  assert (Hp := len_nonneg paths). assert (Hr := len_nonneg message).
  apply (chunk_loop_frames _ _ message (1 + 4 * len paths + 4)) in H; try lia.
  - destruct H as (frames & -> & Hregions & Hchain). cbn [app Z.eqb] in *.
    split; assumption.
  - apply signPersonalMessage_chunkSize_fits.
  - apply signPersonalMessage_buffer_negative.
  - apply signPersonalMessage_buffer_first.
  - apply signPersonalMessage_buffer_next.
Qed.

(** [signTransaction]'s loop exits, with its frames or on a throw, unless
    its first chunk is the single byte before [rlpOffset]. *)
Lemma signTransaction_toSend_returns (paths : list Z) (rawTx : Buffer)
    (rlpTx : rlp_value) :
  len paths <> 37 \/ signTransaction_rlpOffset rawTx rlpTx <> 1 ->
  exists r, signTransaction_toSend paths rawTx rlpTx = Some r.
Proof.
  intros Hone. unfold signTransaction_toSend. rewrite signTransaction_loop_shape.
  assert (Hr := len_nonneg rawTx).
  apply (chunk_loop_exits _ _ rawTx).
  - apply signTransaction_chunkSize_fits.
  - intros offset b Hoff. apply signTransaction_chunkSize_positive; try assumption.
    destruct (signTransaction_rlpOffset_range rawTx rlpTx); [now left|right; lia].
  - lia.
  - unfold len. lia.
Qed.

(** [signPersonalMessage]'s loop always exits. *)
Lemma signPersonalMessage_toSend_returns (paths : list Z) (message : Buffer) :
  exists r, signPersonalMessage_toSend paths message = Some r.
Proof.
  unfold signPersonalMessage_toSend. rewrite signPersonalMessage_loop_shape.
  assert (Hr := len_nonneg message).
  apply (chunk_loop_exits _ _ message).
  - apply signPersonalMessage_chunkSize_fits.
  - intros offset b Hoff. now apply signPersonalMessage_chunkSize_positive.
  - lia.
  - unfold len. lia.
Qed.

(** C1. For every payload, the payload-bearing regions of the frames the
    chunking loop produces (frame 0 without its path header, and without
    the 4-byte length prefix in [signPersonalMessage]; the later frames
    whole), concatenated in order, are the payload.  The loops do produce
    their frames when the path elements are 32-bit values and the header
    leaves room in the first frame. *)
Theorem chunks_reconstruct_payload :
  (forall paths rawTx rlpOffset fuel toSend,
      signTransaction_loop fuel paths rawTx rlpOffset 0 [] = Some (Ok toSend) ->
      payload_regions (1 + 4 * len paths) toSend = rawTx)
  /\ (forall paths message fuel toSend,
         signPersonalMessage_loop fuel paths message 0 [] = Some (Ok toSend) ->
         payload_regions (1 + 4 * len paths + 4) toSend = message)
  /\ (forall paths rawTx rlpTx,
         Forall (fun element => 0 <= element <= 4294967295) paths ->
         len paths <= 37 ->
         (len paths <> 37 \/ signTransaction_rlpOffset rawTx rlpTx <> 1) ->
         exists toSend,
           signTransaction_toSend paths rawTx rlpTx = Some (Ok toSend))
  /\ (forall paths message,
         Forall (fun element => 0 <= element <= 4294967295) paths ->
         len paths <= 36 ->
         len message <= 4294967295 ->
         exists toSend,
           signPersonalMessage_toSend paths message = Some (Ok toSend)).
Proof.
  split; [|split; [|split]].
  - intros paths rawTx rlpOffset fuel toSend H.
    now apply signTransaction_loop_frames in H.
  - intros paths message fuel toSend H.
    now apply signPersonalMessage_loop_frames in H.
  - intros paths rawTx rlpTx Hpaths Hlen Hone.
    unfold signTransaction_toSend. rewrite signTransaction_loop_shape.
    assert (Hr := len_nonneg rawTx). assert (Hp := len_nonneg paths).
    apply chunk_loop_succeeds; [|lia|unfold len; lia].
    intros offset Hoff.
    assert (Hfit := signTransaction_chunkSize_fits paths rawTx
                      (signTransaction_rlpOffset rawTx rlpTx) offset Hoff).
    assert (Hpos : 0 < signTransaction_chunkSize paths rawTx
                         (signTransaction_rlpOffset rawTx rlpTx) offset).
    { destruct (signTransaction_rlpOffset_range rawTx rlpTx) as [Hz|Hz];
        unfold signTransaction_chunkSize; zcases; lia. }
    split; [lia|].
    apply signTransaction_buffer_ok; try assumption; lia.
  - intros paths message Hpaths Hlen Hmsg.
    unfold signPersonalMessage_toSend. rewrite signPersonalMessage_loop_shape.
    assert (Hr := len_nonneg message). assert (Hp := len_nonneg paths).
    apply chunk_loop_succeeds; [|lia|unfold len; lia].
    intros offset Hoff.
    assert (Hfit := signPersonalMessage_chunkSize_fits paths message offset Hoff).
    assert (Hpos : 0 < signPersonalMessage_chunkSize paths message offset).
    { unfold signPersonalMessage_chunkSize; zcases; lia. }
    split; [lia|].
    apply signPersonalMessage_buffer_ok; try assumption; lia.
Qed.

Lemma chunks_reconstruct_payload_witness :
  (exists toSend,
      signTransaction_toSend sample_paths sample_rawTx sample_rlpTx
      = Some (Ok toSend)
      /\ payload_regions 21 toSend = sample_rawTx)
  /\ (exists toSend,
         signPersonalMessage_toSend sample_paths sample_message
         = Some (Ok toSend)
         /\ payload_regions 25 toSend = sample_message).
Proof.
  destruct chunks_reconstruct_payload as (Htx & Hmsg & Htx_ok & Hmsg_ok).
  split.
  - destruct (Htx_ok sample_paths sample_rawTx sample_rlpTx) as [toSend H].
    + repeat constructor; lia.
    + vm_compute. discriminate.
    + left. vm_compute. discriminate.
    + exists toSend. split; [exact H|].
      exact (Htx sample_paths sample_rawTx _ _ toSend H).
  - destruct (Hmsg_ok sample_paths sample_message) as [toSend H].
    + repeat constructor; lia.
    + vm_compute. discriminate.
    + vm_compute. discriminate.
    + exists toSend. split; [exact H|].
      exact (Hmsg sample_paths sample_message _ toSend H).
Defined.

(** ** No chunk ends on [rlpOffset] *)

Lemma chunk_chain_ext (f g : Z -> Z) :
  (forall offset, f offset = g offset) ->
  forall boundaries offset,
    chunk_chain f offset boundaries -> chunk_chain g offset boundaries.
Proof.
  intros Hext. induction boundaries as [|b rest IH]; intros offset; cbn;
    [trivial|].
  rewrite <- Hext. intros (H1 & H2 & H3). auto.
Qed.

(** With a non-zero [rlpOffset], the chunk at [offset] ends on the
    proposed boundary, or one byte before it when that is [rlpOffset]. *)
Lemma signTransaction_chunkSize_shrinks (paths : list Z) (rawTx : Buffer)
    (rlpOffset offset : Z) :
  rlpOffset <> 0 ->
  signTransaction_chunkSize paths rawTx rlpOffset offset
  = (if signTransaction_proposed paths rawTx offset =? rlpOffset
     then signTransaction_proposed paths rawTx offset - 1
     else signTransaction_proposed paths rawTx offset) - offset.
Proof.
  intros Hnz. unfold signTransaction_chunkSize, signTransaction_proposed.
  apply Z.eqb_neq in Hnz. rewrite Hnz. cbn [negb andb].
  destruct (_ =? rlpOffset); lia.
Qed.

Lemma chunk_chain_avoids (size : Z -> Z) (avoided : Z) :
  (forall offset, offset + size offset <> avoided) ->
  forall boundaries offset,
    chunk_chain size offset boundaries ->
    Forall (fun boundary => boundary <> avoided) boundaries.
Proof.
  intros Hstep. induction boundaries as [|b rest IH]; intros offset; cbn;
    [constructor|].
  intros (-> & _ & Hrest). constructor; [apply Hstep|eapply IH; eauto].
Qed.

(** X21. For a decoded transaction of more than 6 elements for which the
    [rlpOffset] that [signTransaction] computes is not zero, no frame the
    loop returns ends on [rlpOffset]: every chunk of the sequence ends on
    the boundary the loop proposes for it, or one byte before when the
    proposed boundary is [rlpOffset]. *)
Theorem no_chunk_boundary_on_rlpOffset :
  forall paths rawTx rlpTx toSend,
    6 < rlp_length rlpTx ->
    signTransaction_rlpOffset rawTx rlpTx <> 0 ->
    signTransaction_toSend paths rawTx rlpTx = Some (Ok toSend) ->
    let rlpOffset := signTransaction_rlpOffset rawTx rlpTx in
    let boundaries := chunk_boundaries (1 + 4 * len paths) 0 toSend in
    Forall (fun boundary => boundary <> rlpOffset) boundaries
    /\ chunk_chain
         (fun offset =>
            (if signTransaction_proposed paths rawTx offset =? rlpOffset
             then signTransaction_proposed paths rawTx offset - 1
             else signTransaction_proposed paths rawTx offset) - offset)
         0 boundaries.
Proof.
  intros paths rawTx rlpTx toSend Hlen Hnz H rlpOffset boundaries.
  unfold signTransaction_toSend in H.
  apply signTransaction_loop_frames in H as [_ Hchain].
  fold rlpOffset in Hchain. fold boundaries in Hchain.
  assert (Hchain' :
            chunk_chain
              (fun offset =>
                 (if signTransaction_proposed paths rawTx offset =? rlpOffset
                  then signTransaction_proposed paths rawTx offset - 1
                  else signTransaction_proposed paths rawTx offset) - offset)
              0 boundaries).
  { revert Hchain. apply chunk_chain_ext. intros offset.
    now apply signTransaction_chunkSize_shrinks. }
  split; [|exact Hchain'].
  revert Hchain'. apply chunk_chain_avoids. intros offset.
  destruct (Z.eqb_spec (signTransaction_proposed paths rawTx offset) rlpOffset); lia.
Qed.

Lemma no_chunk_boundary_on_rlpOffset_witness :
  signTransaction_rlpOffset sample_rawTx sample_rlpTx = 129
  /\ exists toSend,
      signTransaction_toSend sample_paths sample_rawTx sample_rlpTx
      = Some (Ok toSend)
      /\ chunk_boundaries 21 0 toSend = [128; 132]
      /\ Forall (fun boundary => boundary <> 129)
           (chunk_boundaries 21 0 toSend).
Proof.
  split; [reflexivity|].
  destruct (signTransaction_toSend sample_paths sample_rawTx sample_rlpTx)
    as [[toSend|e]|] eqn:H; try (vm_compute in H; discriminate H).
  exists toSend. split; [reflexivity|]. split.
  - vm_compute in H. injection H as <-. reflexivity.
  - apply (no_chunk_boundary_on_rlpOffset sample_paths sample_rawTx
             sample_rlpTx toSend).
    + vm_compute. reflexivity.
    + vm_compute. discriminate.
    + exact H.
Defined.

(** ** How a call settles *)

Lemma last_frame_unique {A} (sent frames1 frames2 : list A) (frame1 frame2 : A) :
  sent ++ frames1 ++ [frame1] = sent ++ frames2 ++ [frame2] ->
  frames1 = frames2 /\ frame1 = frame2.
Proof.
  intros H. apply app_inv_head in H. now apply app_inj_tail in H.
Qed.

Lemma no_frame_sent {A} (sent frames : list A) (frame : A) :
  sent <> sent ++ frames ++ [frame].
Proof.
  intros H. apply (f_equal (@List.length A)) in H.
  rewrite !length_app in H. cbn in H. lia.
Qed.

Section Settling.

Variable transport_send : list apdu -> apdu -> result Buffer.
Variable splitPath : string -> result (list Z).
Variable decode : Buffer -> result rlp_value.

(** The dispatch of the chunks stops at the first rejection, and
    otherwise leaves the last response in [response]. *)
Lemma foreach_send_chunk_cases (ins : Z) :
  forall toSend i response sent sent' res,
    foreach toSend (send_chunk transport_send ins) i response sent
    = (sent', res) ->
    (toSend = [] /\ sent' = sent /\ res = Ok response)
    \/ (exists frames frame,
           sent' = sent ++ frames ++ [frame]
           /\ match transport_send (sent ++ frames) frame with
              | Ok apduResponse => res = Ok (Some apduResponse)
              | Throw e => res = Throw e
              end).
Proof.
  induction toSend as [|chunk rest IH]; intros i response sent sent' res.
  - cbn. intros [= <- <-]. left. auto.
  - cbn [foreach]. unfold then1 at 1. unfold then2.
    unfold send_chunk at 1. unfold then1, then2, send, resolve, reject.
    set (frame := mk_apdu 224 ins (if i =? 0 then 0 else 128) 0 chunk).
    destruct (transport_send sent frame) as [apduResponse|e] eqn:Hsend.
    + intros H. apply IH in H. right.
      destruct H as [(-> & -> & ->)|(frames & frame' & -> & H)].
      * exists [], frame. rewrite app_nil_r, Hsend. auto.
      * exists (frame :: frames), frame'. split.
        -- now rewrite <- app_assoc.
        -- now rewrite <- app_assoc in H.
    + intros [= <- <-]. right. exists [], frame.
      rewrite app_nil_r, Hsend. auto.
Qed.

End Settling.

Section Settled.

Variable transport_send : list apdu -> apdu -> result Buffer.
Variable splitPath : string -> result (list Z).
Variable decode : Buffer -> result rlp_value.

Ltac unfold_promises :=
  unfold pmap, then1, then2, lift, send, resolve, reject,
    unsupported_is_false, parse_stark.

Ltac settle_send :=
  match goal with
  | |- context [transport_send ?s ?f] =>
      let Hsend := fresh "Hsend" in
      destruct (transport_send s f) as [?response|?e] eqn:Hsend;
      (try match goal with
           | |- context [statusCode_is ?e ?c] =>
               let Hcode := fresh "Hcode" in
               destruct (statusCode_is e c) eqn:Hcode
           end);
      intros [= <- <-]; right; exists [], f;
      rewrite app_nil_r, Hsend; (split; [reflexivity|]);
      try (eexists; (split; [reflexivity|]);
           (split; [try discriminate; reflexivity|]);
           cbn; try discriminate; intros ? ? [= <- <-]; auto);
      try (unfold on_rejection; cbn;
           try match goal with
               | H : statusCode_is _ _ = _ |- _ => rewrite H
               end;
           reflexivity)
  end.

Ltac settle_after c :=
  destruct c as [?buffer|?e];
  [ settle_send | intros [= <- <-]; left; eauto ].

Lemma run_settles (op : operation) (p : Promise op_value)
    (sent sent' : list apdu) (res : result op_value) :
  run transport_send splitPath decode op = Some p ->
  p sent = (sent', res) ->
  settles transport_send op sent sent' res.
Proof.
  unfold settles.
  destruct op; cbn [run]; try (intros [= <-]).
  - (* getAddress *)
    unfold getAddress. unfold_promises.
    destruct boolChaincode; settle_after (path_buffer splitPath path).
  - (* provideERC20TokenInformation *)
    unfold provideERC20TokenInformation. unfold_promises. settle_send.
  - (* signTransaction *)
    unfold signTransaction.
    destruct (splitPath path) as [paths|e];
      [|intros [= <-] [= <- <-]; left; eauto].
    destruct (decode (Buffer_from_hex rawTxHex)) as [rlpTx|e];
      [|intros [= <-] [= <- <-]; left; eauto].
    destruct (signTransaction_toSend paths (Buffer_from_hex rawTxHex) rlpTx)
      as [[toSend|e]|]; [| |discriminate];
      [|intros [= <-] [= <- <-]; left; eauto].
    intros [= <-]. unfold_promises.
    destruct (foreach toSend (send_chunk transport_send 4) 0 None sent)
      as [sent1 res1] eqn:Hdispatch.
    apply foreach_send_chunk_cases in Hdispatch.
    destruct Hdispatch as [(_ & -> & ->)|(frames & frame & -> & Hlast)].
    + cbn. intros [= <- <-]. left. eauto.
    + destruct (transport_send (sent ++ frames) frame) as [response|e] eqn:Hsend;
        subst res1; cbn; intros [= <- <-]; right; exists frames, frame;
        rewrite Hsend; (split; [reflexivity|]).
      * eexists. split; [reflexivity|]. split; [discriminate|].
        cbn. intros ? ? [= <- <-]. auto.
      * reflexivity.
  - (* signPersonalMessage *)
    unfold signPersonalMessage.
    destruct (splitPath path) as [paths|e];
      [|intros [= <-] [= <- <-]; left; eauto].
    destruct (signPersonalMessage_toSend paths (Buffer_from_hex messageHex))
      as [[toSend|e]|]; [| |discriminate];
      [|intros [= <-] [= <- <-]; left; eauto].
    intros [= <-]. unfold_promises.
    destruct (foreach toSend (send_chunk transport_send 8) 0 None sent)
      as [sent1 res1] eqn:Hdispatch.
    apply foreach_send_chunk_cases in Hdispatch.
    destruct Hdispatch as [(_ & -> & ->)|(frames & frame & -> & Hlast)].
    + cbn. intros [= <- <-]. left. eauto.
    + destruct (transport_send (sent ++ frames) frame) as [response|e] eqn:Hsend;
        subst res1; cbn; intros [= <- <-]; right; exists frames, frame;
        rewrite Hsend; (split; [reflexivity|]).
      * eexists. split; [reflexivity|]. split; [discriminate|].
        cbn. intros ? ? [= <- <-]. auto.
      * reflexivity.
  - (* getAppConfiguration *)
    unfold getAppConfiguration. unfold_promises. settle_send.
  - unfold signEIP712HashedMessage. unfold_promises.
    settle_after (signEIP712HashedMessage_buffer splitPath path
                    domainSeparatorHex hashStructMessageHex).
  - unfold starkGetPublicKey. unfold_promises.
    settle_after (path_buffer splitPath path).
  - unfold starkSignOrder. unfold_promises.
    settle_after (starkSignOrder_buffer splitPath path sourceTokenAddress
                    sourceQuantization destinationTokenAddress
                    destinationQuantization sourceVault destinationVault
                    amountSell amountBuy nonce timestamp).
  - unfold starkSignOrder_v2. unfold_promises.
    settle_after (starkSignOrder_v2_buffer splitPath path sourceTokenAddress
                    sourceQuantizationType sourceQuantization
                    sourceMintableBlobOrTokenId destinationTokenAddress
                    destinationQuantizationType destinationQuantization
                    destinationMintableBlobOrTokenId sourceVault
                    destinationVault amountSell amountBuy nonce timestamp).
  - unfold starkSignTransfer. unfold_promises.
    settle_after (starkSignTransfer_buffer splitPath path
                    transferTokenAddress transferQuantization targetPublicKey
                    sourceVault destinationVault amountTransfer nonce timestamp).
  - unfold starkSignTransfer_v2. unfold_promises.
    settle_after (starkSignTransfer_v2_buffer splitPath path
                    transferTokenAddress transferQuantizationType
                    transferQuantization transferMintableBlobOrTokenId
                    targetPublicKey sourceVault destinationVault
                    amountTransfer nonce timestamp conditionalTransferAddress
                    conditionalTransferFact).
  - unfold starkProvideQuantum. unfold_promises.
    settle_after (starkProvideQuantum_buffer operationContract
                    operationQuantization).
  - unfold starkProvideQuantum_v2. unfold_promises.
    settle_after (starkProvideQuantum_v2_buffer operationContract
                    operationQuantizationType operationQuantization
                    operationMintableBlobOrTokenId).
  - unfold starkUnsafeSign. unfold_promises.
    settle_after (starkUnsafeSign_buffer splitPath path hash).
  - unfold eth2GetPublicKey. unfold_promises.
    settle_after (path_buffer splitPath path).
  - unfold eth2SetWithdrawalIndex. unfold_promises.
    settle_after (rbind (Buffer_alloc 4)
                    (fun buffer => writeUInt32BE buffer withdrawalIndex 0)).
Qed.

End Settled.

Lemma adjustOffset_nonneg (offset length : Z) :
  0 <= offset -> 0 <= length ->
  adjustOffset (Some offset) length = Z.min offset length.
Proof.
  intros Ho Hl. unfold adjustOffset. zcases; lia.
Qed.

(** A slice between two non-negative offsets is clamped to the buffer. *)
Lemma slice_clamped {A} (l : list A) (a b : Z) :
  0 <= a <= b ->
  slice l (Some a) (Some b) = firstn (Z.to_nat (b - a)) (skipn (Z.to_nat a) l).
Proof.
  intros H. unfold slice. assert (Hl := len_nonneg l).
  rewrite !adjustOffset_nonneg by lia.
  replace (if Z.min b (len l) >? Z.min a (len l)
           then Z.min b (len l) - Z.min a (len l) else 0)
    with (Z.min b (len l) - Z.min a (len l))
    by (rewrite Z.gtb_ltb; destruct (Z.ltb_spec (Z.min a (len l)) (Z.min b (len l))); lia).
  unfold len in *.
  destruct (Z.le_gt_cases (Z.of_nat (List.length l)) a) as [Hout|Hin].
  - rewrite !(skipn_all2 l) by lia. now rewrite !firstn_nil.
  - rewrite (Z.min_l a) by lia.
    destruct (Z.le_gt_cases b (Z.of_nat (List.length l))) as [Hb|Hb].
    + now rewrite Z.min_l by lia.
    + rewrite Z.min_r by lia.
      rewrite !firstn_all2; [reflexivity| |]; rewrite length_skipn; lia.
Qed.

(** ** C4, C6, C7: responses and rejections *)

Section Outcomes.

Variable transport_send : list apdu -> apdu -> result Buffer.
Variable splitPath : string -> result (list Z).
Variable decode : Buffer -> result rlp_value.

Lemma settles_rejected (op : operation) (sent sent' : list apdu)
    (res : result op_value) (e : js_error) :
  settles transport_send op sent sent' res ->
  transport_rejected transport_send sent sent' e ->
  res = on_rejection op e.
Proof.
  intros [[-> _]|(frames & frame & -> & Hlast)] (frames' & frame' & Heq & Hsend).
  - now apply no_frame_sent in Heq.
  - apply last_frame_unique in Heq as [-> ->].
    now rewrite Hsend in Hlast.
Qed.

Lemma settles_answered (op : operation) (sent sent' : list apdu)
    (res : result op_value) (response : Buffer) :
  settles transport_send op sent sent' res ->
  transport_answered transport_send sent sent' response ->
  exists v,
    res = Ok v
    /\ (has_unsupported_fallback op = true -> v = val_boolean true)
    /\ (forall r s, signature_r_s v = Some (r, s) ->
                    r = parse_r response /\ s = parse_s response).
Proof.
  intros [[-> _]|(frames & frame & -> & Hlast)] (frames' & frame' & Heq & Hsend).
  - now apply no_frame_sent in Heq.
  - apply last_frame_unique in Heq as [-> ->].
    now rewrite Hsend in Hlast.
Qed.

End Outcomes.

(** C4, as amended.  No operation checks the length of the response: a
    call whose last frame the transport answered resolves, whatever the
    length of the answer.  When the result is a signature, its [r] and [s]
    are the hex of the at most 32 bytes found in the response from offsets
    1 and 33, shorter or empty when the response is short. *)
Theorem short_response_is_parsed :
  forall transport_send splitPath decode op p sent sent' res response,
    run transport_send splitPath decode op = Some p ->
    p sent = (sent', res) ->
    transport_answered transport_send sent sent' response ->
    exists v,
      res = Ok v
      /\ forall r s,
          signature_r_s v = Some (r, s) ->
          r = toString_hex (firstn 32 (skipn 1 response))
          /\ s = toString_hex (firstn 32 (skipn 33 response)).
Proof.
  intros transport_send splitPath decode op p sent sent' res response Hrun Hp Hans.
  apply (run_settles _ _ _ _ _ sent sent' res) in Hrun; [|exact Hp].
  destruct (settles_answered _ _ _ _ _ _ Hrun Hans) as (v & -> & _ & Hsig).
  exists v. split; [reflexivity|]. intros r s Hrs.
  apply Hsig in Hrs as [-> ->]. unfold parse_r, parse_s.
  rewrite !slice_clamped by lia. split; reflexivity.
Qed.

Lemma short_response_is_parsed_witness :
  exists v,
    snd (pmap val_stark_signature
           (starkUnsafeSign (answering (repeat x01 10)) sample_splitPath
              "44'/52752'/0'/0/0" "00") [])
    = Ok v
    /\ forall r s,
        signature_r_s v = Some (r, s) ->
        r = toString_hex (firstn 32 (skipn 1 (repeat x01 10)))
        /\ s = toString_hex (firstn 32 (skipn 33 (repeat x01 10))).
Proof.
  apply (short_response_is_parsed (answering (repeat x01 10)) sample_splitPath
           sample_decode (call_starkUnsafeSign "44'/52752'/0'/0/0" "00")
           (pmap val_stark_signature
              (starkUnsafeSign (answering (repeat x01 10)) sample_splitPath
                 "44'/52752'/0'/0/0" "00"))
           []
           (fst (pmap val_stark_signature
                   (starkUnsafeSign (answering (repeat x01 10)) sample_splitPath
                      "44'/52752'/0'/0/0" "00") []))).
  - reflexivity.
  - apply surjective_pairing.
  - eexists [], _. split; vm_compute; reflexivity.
Defined.

(** C4, as stated, fails: a 10-byte answer to [signTransaction], where 65
    bytes are expected, is not an error; the call resolves with what the
    slices find. *)
Lemma short_response_not_rejected :
  exists p sent',
    signTransaction (answering (repeat x01 10)) sample_splitPath sample_decode
      "44'/52752'/0'/0/0" sample_rawTxHex = Some p
    /\ p [] = (sent', Ok (mk_TxSignature "01" "010101010101010101" "")).
Proof.
  eexists. eexists. split; [reflexivity|]. vm_compute. reflexivity.
Qed.

Lemma statusCode_is_distinct (e : js_error) (c1 c2 : Z) :
  c1 <> c2 -> statusCode_is e c1 = true -> statusCode_is e c2 = false.
Proof.
  destruct e; cbn; try discriminate.
  intros Hne H1. apply Z.eqb_eq in H1. subst. now apply Z.eqb_neq.
Qed.

(** C6. When the transport rejects a frame of [signTransaction] with an
    error whose [statusCode] is [0x6A80], the call rejects with
    [EthAppPleaseEnableContractData]; any other rejection of the transport
    reaches the caller unchanged, as do the errors [splitPath] and [decode]
    throw.  No other operation remaps: there the [0x6A80] error itself is
    what the call rejects with. *)
Theorem contract_data_remap_only_in_signTransaction :
  (forall transport_send splitPath decode op p sent sent' res e,
      run transport_send splitPath decode op = Some p ->
      p sent = (sent', res) ->
      transport_rejected transport_send sent sent' e ->
      if is_signTransaction op then
        res = Throw
                (if statusCode_is e 0x6a80
                 then EthAppPleaseEnableContractData
                        "Please enable Contract data on the Ethereum app Settings"
                 else e)
      else statusCode_is e 0x6a80 = true -> res = Throw e)
  /\ (forall transport_send splitPath decode path rawTxHex e,
         splitPath path = Throw e
         \/ (exists paths, splitPath path = Ok paths
                           /\ decode (Buffer_from_hex rawTxHex) = Throw e) ->
         exists p,
           signTransaction transport_send splitPath decode path rawTxHex = Some p
           /\ forall sent, p sent = (sent, Throw e)).
Proof.
  split.
  - intros transport_send splitPath decode op p sent sent' res e Hrun Hp Hrej.
    apply (run_settles _ _ _ _ _ sent sent' res) in Hrun; [|exact Hp].
    rewrite (settles_rejected _ _ _ _ _ _ Hrun Hrej). unfold on_rejection.
    destruct (is_signTransaction op) eqn:Hop.
    + destruct op; try discriminate Hop. reflexivity.
    + intros Hcode.
      destruct (has_unsupported_fallback op); [|reflexivity].
      now rewrite (statusCode_is_distinct e 0x6a80 0x6d00).
  - intros transport_send splitPath decode path rawTxHex e
      [Hsplit|(paths & Hsplit & Hdecode)];
      unfold signTransaction; rewrite Hsplit; [|rewrite Hdecode];
      eexists; split; reflexivity.
Qed.

Lemma contract_data_remap_only_in_signTransaction_witness :
  (exists p,
      run (rejecting 0x6a80) sample_splitPath sample_decode
        (call_signTransaction "44'/52752'/0'/0/0" sample_rawTxHex) = Some p
      /\ snd (p [])
         = Throw (EthAppPleaseEnableContractData
                    "Please enable Contract data on the Ethereum app Settings"))
  /\ (exists p,
         run (rejecting 0x6a80) sample_splitPath sample_decode
           (call_starkUnsafeSign "44'/52752'/0'/0/0" "00") = Some p
         /\ snd (p []) = Throw (TransportStatusError 0x6a80)).
Proof.
  split.
  - destruct (run (rejecting 0x6a80) sample_splitPath sample_decode
                (call_signTransaction "44'/52752'/0'/0/0" sample_rawTxHex))
      as [p|] eqn:H; [|vm_compute in H; discriminate H].
    exists p. split; [reflexivity|].
    assert (Hrej : transport_rejected (rejecting 0x6a80) [] (fst (p []))
                     (TransportStatusError 0x6a80)).
    { vm_compute in H. injection H as <-.
      eexists [], _. split; vm_compute; reflexivity. }
    exact (proj1 contract_data_remap_only_in_signTransaction _ _ _ _ p [] _ _ _
             H (surjective_pairing _) Hrej).
  - destruct (run (rejecting 0x6a80) sample_splitPath sample_decode
                (call_starkUnsafeSign "44'/52752'/0'/0/0" "00"))
      as [p|] eqn:H; [|vm_compute in H; discriminate H].
    exists p. split; [reflexivity|].
    assert (Hrej : transport_rejected (rejecting 0x6a80) [] (fst (p []))
                     (TransportStatusError 0x6a80)).
    { vm_compute in H. injection H as <-.
      eexists [], _. split; vm_compute; reflexivity. }
    exact (proj1 contract_data_remap_only_in_signTransaction _ _ _ _ p [] _ _ _
             H (surjective_pairing _) Hrej eq_refl).
Defined.

(** C7. The operations with the fallback are exactly
    [provideERC20TokenInformation], [starkProvideQuantum],
    [starkProvideQuantum_v2] and [eth2SetWithdrawalIndex].  When the
    transport rejects the frame of one of them with an error whose
    [statusCode] is [0x6D00], the call resolves with [false]; any other
    rejection reaches the caller unchanged; when the transport answers, the
    call resolves with [true].  Every other operation rejects on
    [0x6D00], with that error. *)
Theorem unsupported_status_resolves_false :
  (forall op,
      has_unsupported_fallback op = true <->
      (exists data, op = call_provideERC20TokenInformation data)
      \/ (exists c q, op = call_starkProvideQuantum c q)
      \/ (exists c t q m, op = call_starkProvideQuantum_v2 c t q m)
      \/ (exists i, op = call_eth2SetWithdrawalIndex i))
  /\ (forall transport_send splitPath decode op p sent sent' res,
         run transport_send splitPath decode op = Some p ->
         p sent = (sent', res) ->
         (forall e,
             transport_rejected transport_send sent sent' e ->
             if has_unsupported_fallback op then
               res = (if statusCode_is e 0x6d00 then Ok (val_boolean false)
                      else Throw e)
             else statusCode_is e 0x6d00 = true -> res = Throw e)
         /\ (forall response,
                transport_answered transport_send sent sent' response ->
                has_unsupported_fallback op = true ->
                res = Ok (val_boolean true))).
Proof.
  split.
  - intros op. split.
    + destruct op; cbn; try discriminate; intros _; eauto 10.
    + intros [[? ->]|[(? & ? & ->)|[(? & ? & ? & ? & ->)|[? ->]]]]; reflexivity.
  - intros transport_send splitPath decode op p sent sent' res Hrun Hp.
    apply (run_settles _ _ _ _ _ sent sent' res) in Hrun; [|exact Hp].
    split.
    + intros e Hrej.
      rewrite (settles_rejected _ _ _ _ _ _ Hrun Hrej). unfold on_rejection.
      destruct (has_unsupported_fallback op); [reflexivity|].
      intros Hcode. destruct (is_signTransaction op); [|reflexivity].
      unfold remapTransactionRelatedErrors.
      now rewrite (statusCode_is_distinct e 0x6d00 0x6a80).
    + intros response Hans Hop.
      destruct (settles_answered _ _ _ _ _ _ Hrun Hans) as (v & -> & Hv & _).
      now rewrite Hv.
Qed.

Lemma unsupported_status_resolves_false_witness :
  (exists p,
      run (rejecting 0x6d00) sample_splitPath sample_decode
        (call_provideERC20TokenInformation (hexBuffer "035a5258")) = Some p
      /\ snd (p []) = Ok (val_boolean false))
  /\ (exists p,
         run (answering (hexBuffer "9000")) sample_splitPath sample_decode
           (call_eth2SetWithdrawalIndex 7) = Some p
         /\ snd (p []) = Ok (val_boolean true)).
Proof.
  split.
  - destruct (run (rejecting 0x6d00) sample_splitPath sample_decode
                (call_provideERC20TokenInformation (hexBuffer "035a5258")))
      as [p|] eqn:H; [|vm_compute in H; discriminate H].
    exists p. split; [reflexivity|].
    assert (Hrej : transport_rejected (rejecting 0x6d00) [] (fst (p []))
                     (TransportStatusError 0x6d00)).
    { vm_compute in H. injection H as <-.
      eexists [], _. split; vm_compute; reflexivity. }
    exact (proj1 (proj2 unsupported_status_resolves_false _ _ _ _ p [] _ _
                    H (surjective_pairing _)) _ Hrej).
  - destruct (run (answering (hexBuffer "9000")) sample_splitPath sample_decode
                (call_eth2SetWithdrawalIndex 7))
      as [p|] eqn:H; [|vm_compute in H; discriminate H].
    exists p. split; [reflexivity|].
    assert (Hans : transport_answered (answering (hexBuffer "9000")) []
                     (fst (p [])) (hexBuffer "9000")).
    { vm_compute in H. injection H as <-.
      eexists [], _. split; vm_compute; reflexivity. }
    exact (proj2 (proj2 unsupported_status_resolves_false _ _ _ _ p [] _ _
                    H (surjective_pairing _)) _ Hans eq_refl).
Defined.

(** ** C3: the empty message *)

(** C3 fails on the code.  For a message of no byte the loop of
    [signPersonalMessage] is not entered: [toSend] stays empty, no frame
    reaches the transport, and the call rejects with the TypeError of
    reading [response], which was never assigned. *)
Theorem signPersonalMessage_empty_message_sends_nothing :
  forall transport_send paths path sent,
    signPersonalMessage_toSend paths (Buffer_from_hex "") = Some (Ok [])
    /\ exists p,
        signPersonalMessage transport_send (fun _ => Ok paths) path "" = Some p
        /\ p sent = (sent, Throw (TypeError "Cannot read properties of undefined")).
Proof.
  intros transport_send paths path sent. split; [reflexivity|].
  eexists. split; reflexivity.
Qed.

(** ** C9: [LEDGER.getAccount] *)

(** C9. [LEDGER.getAccount] never rejects.  Whatever the path and the
    transport, it resolves: with the empty string when the constructor or
    [getAddress] fails, a rejection by the transport included, and with
    the address [getAddress] returned only when [getAddress] succeeds. *)
Theorem getAccount_never_rejects :
  forall transport_send splitPath decorateAppAPIMethods path sent,
    (exists account,
        snd (getAccount transport_send splitPath decorateAppAPIMethods path sent)
        = Ok account)
    /\ (forall e,
           decorateAppAPIMethods = Throw e ->
           getAccount transport_send splitPath decorateAppAPIMethods path sent
           = (sent, Ok EmptyString))
    /\ (forall sent' e,
           decorateAppAPIMethods = Ok tt ->
           getAddress transport_send splitPath (account_path path) false false sent
           = (sent', Throw e) ->
           getAccount transport_send splitPath decorateAppAPIMethods path sent
           = (sent', Ok EmptyString))
    /\ (forall sent' response,
           decorateAppAPIMethods = Ok tt ->
           getAddress transport_send splitPath (account_path path) false false sent
           = (sent', Ok response) ->
           getAccount transport_send splitPath decorateAppAPIMethods path sent
           = (sent', Ok (address response)))
    /\ (forall e,
           transport_rejected transport_send sent
             (fst (getAccount transport_send splitPath decorateAppAPIMethods
                     path sent)) e ->
           snd (getAccount transport_send splitPath decorateAppAPIMethods path sent)
           = Ok EmptyString).
Proof.
  intros transport_send splitPath decorateAppAPIMethods path sent.
  assert (Hthrow : forall e, decorateAppAPIMethods = Throw e ->
                             getAccount transport_send splitPath
                               decorateAppAPIMethods path sent
                             = (sent, Ok EmptyString)).
  { intros e ->. reflexivity. }
  assert (Hfail : forall sent' e,
             decorateAppAPIMethods = Ok tt ->
             getAddress transport_send splitPath (account_path path) false false sent
             = (sent', Throw e) ->
             getAccount transport_send splitPath decorateAppAPIMethods path sent
             = (sent', Ok EmptyString)).
  { intros sent' e -> H. unfold getAccount, then1, then2, lift. now rewrite H. }
  assert (Hok : forall sent' response,
             decorateAppAPIMethods = Ok tt ->
             getAddress transport_send splitPath (account_path path) false false sent
             = (sent', Ok response) ->
             getAccount transport_send splitPath decorateAppAPIMethods path sent
             = (sent', Ok (address response))).
  { intros sent' response -> H. unfold getAccount, then1, then2, lift.
    now rewrite H. }
  repeat split; try assumption.
  - destruct decorateAppAPIMethods as [[]|e].
    + destruct (getAddress transport_send splitPath (account_path path) false
                  false sent) as [sent' [response|e]].
      * rewrite (Hok _ _ eq_refl eq_refl). cbn [snd]. eauto.
      * rewrite (Hfail _ _ eq_refl eq_refl). cbn [snd]. eauto.
    + rewrite (Hthrow _ eq_refl). cbn [snd]. eauto.
  - intros e Hrej.
    destruct decorateAppAPIMethods as [[]|e'].
    + destruct (getAddress transport_send splitPath (account_path path) false
                  false sent) as [sent' [response|e']] eqn:H.
      * exfalso. rewrite (Hok _ _ eq_refl eq_refl) in Hrej. cbn [fst] in Hrej.
        assert (Hrun : run transport_send splitPath (fun _ => Ok (RlpArray []))
                         (call_getAddress (account_path path) false false)
                       = Some (pmap val_address
                                 (getAddress transport_send splitPath
                                    (account_path path) false false)))
          by reflexivity.
        apply (run_settles _ _ _ _ _ sent sent' (Ok (val_address response)))
          in Hrun.
        -- apply (settles_rejected _ _ _ _ _ _ Hrun) in Hrej. discriminate Hrej.
        -- unfold pmap, then1, then2. now rewrite H.
      * now rewrite (Hfail _ _ eq_refl eq_refl).
    + now rewrite (Hthrow _ eq_refl).
Qed.

Lemma getAccount_never_rejects_witness :
  getAccount (rejecting 0x6985) sample_splitPath (Ok tt) sample_account []
  = (fst (getAddress (rejecting 0x6985) sample_splitPath
            (account_path sample_account) false false []),
     Ok EmptyString).
Proof.
  apply (proj1 (proj2 (proj2 (getAccount_never_rejects (rejecting 0x6985)
                                sample_splitPath (Ok tt) sample_account [])))
           _ (TransportStatusError 0x6985) eq_refl).
  vm_compute. reflexivity.
Defined.

(** ** C10: the public keys *)

Lemma slice_without_last2 (b : Buffer) :
  2 <= len b ->
  slice b (Some 0) (Some (-2)) = firstn (Z.to_nat (len b - 2)) b.
Proof.
  intros H. unfold slice, adjustOffset. cbn [Z.eqb Z.ltb Z.compare].
  zcases; try lia; cbn [Z.to_nat skipn firstn]; try reflexivity.
  - now rewrite Z.sub_0_r, Z.add_comm.
  - replace (len b - 2) with 0 by lia. reflexivity.
Qed.

(** C10. [starkGetPublicKey] and [eth2GetPublicKey] return the response
    without its last two bytes: for a response of [n >= 2] bytes, the key
    is its first [n - 2] bytes, hex-encoded by [eth2GetPublicKey]. *)
Theorem public_key_drops_status_word :
  forall transport_send splitPath path boolDisplay sent sent' response,
    2 <= len response ->
    transport_answered transport_send sent sent' response ->
    (forall res,
        starkGetPublicKey transport_send splitPath path boolDisplay sent
        = (sent', res) ->
        res = Ok (firstn (Z.to_nat (len response - 2)) response))
    /\ (forall res,
           eth2GetPublicKey transport_send splitPath path boolDisplay sent
           = (sent', res) ->
           res = Ok (toString_hex (firstn (Z.to_nat (len response - 2)) response))).
Proof.
  intros transport_send splitPath path boolDisplay sent sent' response Hlen
    (frames & frame & -> & Hsend).
  split; intros res;
    [unfold starkGetPublicKey|unfold eth2GetPublicKey];
    unfold then1, then2, lift, send, resolve, reject;
    (destruct (path_buffer splitPath path) as [buffer|e];
     [|intros [= H _]; now apply no_frame_sent in H]);
    match goal with
    | |- context [transport_send sent ?f] =>
        destruct (transport_send sent f) as [response'|e] eqn:Hsend';
        intros [= H <-];
        apply (last_frame_unique sent [] frames f frame) in H as [<- <-];
        rewrite app_nil_r in Hsend; rewrite Hsend in Hsend';
        [injection Hsend' as <-|discriminate Hsend']
    end.
  - rewrite slice_clamped by lia. cbn [Z.to_nat skipn].
    now rewrite Z.sub_0_r.
  - now rewrite slice_without_last2.
Qed.

Lemma public_key_drops_status_word_witness :
  snd (starkGetPublicKey (answering (hexBuffer "0a0b0c9000")) sample_splitPath
         "44'/52752'/0'/0/0" false [])
  = Ok (hexBuffer "0a0b0c")
  /\ snd (eth2GetPublicKey (answering (hexBuffer "0a0b0c9000")) sample_splitPath
            "12381/3600/0/0" false [])
     = Ok "0a0b0c"%string.
Proof.
  destruct (public_key_drops_status_word (answering (hexBuffer "0a0b0c9000"))
              sample_splitPath "44'/52752'/0'/0/0" false []
              (fst (starkGetPublicKey (answering (hexBuffer "0a0b0c9000"))
                      sample_splitPath "44'/52752'/0'/0/0" false []))
              (hexBuffer "0a0b0c9000"))
    as [Hstark _].
  { vm_compute. discriminate. }
  { eexists [], _. split; vm_compute; reflexivity. }
  destruct (public_key_drops_status_word (answering (hexBuffer "0a0b0c9000"))
              sample_splitPath "12381/3600/0/0" false []
              (fst (eth2GetPublicKey (answering (hexBuffer "0a0b0c9000"))
                      sample_splitPath "12381/3600/0/0" false []))
              (hexBuffer "0a0b0c9000"))
    as [_ Heth2].
  { vm_compute. discriminate. }
  { eexists [], _. split; vm_compute; reflexivity. }
  split.
  - rewrite (Hstark _ (surjective_pairing _)). reflexivity.
  - rewrite (Heth2 _ (surjective_pairing _)). reflexivity.
Defined.

(** ** Hexadecimal magnitudes *)

Lemma hexValue_hexDigit (d : N) : (d < 16)%N -> hexValue (hexDigit d) = Some d.
Proof.
  intros H.
  assert (Hcases : In d [0; 1; 2; 3; 4; 5; 6; 7; 8; 9; 10; 11; 12; 13; 14; 15]%N).
  { cbn. lia. }
  cbn in Hcases.
  destruct Hcases as
    [<-|[<-|[<-|[<-|[<-|[<-|[<-|[<-|[<-|[<-|[<-|[<-|[<-|[<-|[<-|[<-|[]]]]]]]]]]]]]]]]];
    reflexivity.
Qed.

Lemma to_N_byte_of_Z (z : Z) :
  0 <= z < 256 -> Byte.to_N (byte_of_Z z) = Z.to_N z.
Proof.
  intros H. unfold byte_of_Z. rewrite Z.mod_small by lia.
  destruct (Byte.of_N (Z.to_N z)) as [b|] eqn:E.
  - now apply Byte.to_of_N.
  - apply Byte.of_N_None_iff in E. lia.
Qed.

(** Decoding an even number of lower-case digits and encoding the bytes
    again gives the digits back. *)
Lemma hex_roundtrip (n : nat) :
  forall s, String.length s = (2 * n)%nat -> lower_hex s ->
            toString_hex (Buffer_from_hex s) = s
            /\ List.length (Buffer_from_hex s) = n
            /\ N_of_bytes (Buffer_from_hex s) = N_of_hex s.
Proof.
  induction n as [|n IH]; intros s Hlen Hhex.
  - destruct s; [cbn; auto|discriminate].
  - destruct s as [|hi [|lo rest]]; try (cbn in Hlen; lia).
    cbn in Hlen.
    destruct Hhex as [(h & Hh & ->) [(l & Hl & ->) Hrest]].
    destruct (IH rest ltac:(lia) Hrest) as (Hround & Hcount & Hvalue).
    cbn [Buffer_from_hex]. rewrite !hexValue_hexDigit by assumption.
    cbn [toString_hex List.length N_of_bytes N_of_hex].
    rewrite !hexValue_hexDigit by assumption.
    rewrite to_N_byte_of_Z by lia. rewrite N2Z.id.
    rewrite Hround, Hcount, Hvalue.
    replace ((16 * h + l) / 16)%N with h
      by (apply N.div_unique with l; lia).
    replace ((16 * h + l) mod 16)%N with l
      by (apply N.mod_unique with h; lia).
    repeat split.
    assert (Hr : String.length rest = (2 * n)%nat) by lia.
    cbn [String.length]. rewrite Hr.
    replace (N.of_nat (S (2 * n))) with (N.succ (2 * N.of_nat n)) by lia.
    replace (N.of_nat (2 * n)) with (2 * N.of_nat n)%N by lia.
    rewrite N.pow_succ_r', N.pow_mul_r. change (16 ^ 2)%N with 256%N. ring.
Qed.

Lemma N_of_hex_digit (d : N) (rest : string) :
  (d < 16)%N ->
  N_of_hex (String (hexDigit d) rest)
  = (d * 16 ^ N.of_nat (String.length rest) + N_of_hex rest)%N.
Proof. intros H. cbn [N_of_hex]. now rewrite hexValue_hexDigit. Qed.

Lemma toString16_aux_lower_hex (fuel : nat) :
  forall n acc, lower_hex acc -> lower_hex (toString16_aux fuel n acc).
Proof.
  assert (Hdigit : forall n acc, lower_hex acc ->
                                 lower_hex (String (hexDigit (n mod 16)) acc)).
  { intros n acc Hacc. split; [|assumption].
    exists (n mod 16)%N. split; [apply N.mod_lt; lia|reflexivity]. }
  induction fuel as [|fuel IH]; intros n acc Hacc; cbn [toString16_aux];
    [now apply Hdigit|].
  destruct (n <? 16)%N; [now apply Hdigit|]. apply IH. now apply Hdigit.
Qed.

Lemma toString16_aux_length (fuel : nat) :
  forall n acc (k : nat),
    (n < 16 ^ N.of_nat k)%N -> (1 <= k)%nat ->
    (String.length (toString16_aux fuel n acc) <= k + String.length acc)%nat.
Proof.
  induction fuel as [|fuel IH]; intros n acc k Hn Hk; cbn [toString16_aux];
    [cbn [String.length]; lia|].
  destruct (N.ltb_spec n 16) as [Hsmall|Hbig]; [cbn [String.length]; lia|].
  destruct k as [|[|k]]; [lia|cbn in Hn; lia|].
  specialize (IH (n / 16)%N (String (hexDigit (n mod 16)) acc) (S k)).
  cbn [String.length] in IH. etransitivity; [apply IH|]; try lia.
  apply N.Div0.div_lt_upper_bound.
  replace (N.of_nat (S (S k))) with (N.succ (N.of_nat (S k))) in Hn by lia.
  now rewrite N.pow_succ_r' in Hn.
Qed.

Lemma toString16_aux_value (fuel : nat) :
  forall n acc,
    (n < 16 ^ N.of_nat (S fuel))%N ->
    N_of_hex (toString16_aux fuel n acc)
    = (n * 16 ^ N.of_nat (String.length acc) + N_of_hex acc)%N.
Proof.
  assert (Hlast : forall n acc,
             (n < 16)%N ->
             N_of_hex (String (hexDigit (n mod 16)) acc)
             = (n * 16 ^ N.of_nat (String.length acc) + N_of_hex acc)%N).
  { intros n acc Hn. rewrite N.mod_small by assumption.
    now apply N_of_hex_digit. }
  induction fuel as [|fuel IH]; intros n acc Hn; cbn [toString16_aux].
  - apply Hlast. exact Hn.
  - destruct (N.ltb_spec n 16) as [Hsmall|Hbig]; [now apply Hlast|].
    rewrite IH.
    + rewrite N_of_hex_digit by (apply N.mod_lt; lia).
      cbn [String.length].
      replace (N.of_nat (S (String.length acc)))
        with (N.succ (N.of_nat (String.length acc))) by lia.
      rewrite N.pow_succ_r'.
      rewrite (N.div_mod n 16) at 3 by lia. ring.
    + apply N.Div0.div_lt_upper_bound.
      replace (N.of_nat (S (S fuel))) with (N.succ (N.of_nat (S fuel))) in Hn
        by lia.
      now rewrite N.pow_succ_r' in Hn.
Qed.

(** [toString16] denotes the number it was given. *)
Lemma toString16_value (n : N) : N_of_hex (toString16 n) = n.
Proof.
  unfold toString16. rewrite toString16_aux_value.
  - cbn [String.length N_of_hex N.of_nat]. rewrite N.pow_0_r. lia.
  - destruct (N.eq_0_gt_0_cases n) as [->|Hpos]; [reflexivity|].
    apply N.lt_le_trans with (2 ^ N.succ (N.log2 n))%N;
      [now apply N.log2_spec|].
    replace (N.of_nat (S (N.to_nat (N.log2 n)))) with (N.succ (N.log2 n)) by lia.
    apply N.pow_le_mono_l. lia.
Qed.

Lemma concat_zeros_S (m : nat) :
  String.concat EmptyString (repeat "0"%string (S m))
  = String "0" (String.concat EmptyString (repeat "0"%string m)).
Proof. destruct m; reflexivity. Qed.

Lemma padStart_zeros (s : string) (m : nat) :
  let padded :=
    String.append (String.concat EmptyString (repeat "0"%string m)) s in
  String.length padded = (m + String.length s)%nat
  /\ (lower_hex s -> lower_hex padded)
  /\ N_of_hex padded = N_of_hex s.
Proof.
  induction m as [|m (IHlen & IHhex & IHvalue)]; [cbn; auto|].
  cbv zeta. rewrite concat_zeros_S. cbn [String.append String.length].
  repeat split.
  - now rewrite IHlen.
  - exists 0%N. split; [lia|reflexivity].
  - now apply IHhex.
  - cbn [N_of_hex]. change (hexValue "0") with (Some 0%N).
    rewrite IHvalue. lia.
Qed.

(** Within the width, the bytes of a magnitude field are exactly [width]
    bytes, they are the hexadecimal digits of the value left-padded with
    zeros to the full width, and they hold the value. *)
Lemma magnitude_bytes_within (value : BigNumber) (width : nat) :
  (1 <= width)%nat ->
  (value < 256 ^ N.of_nat width)%N ->
  List.length (magnitude_bytes value width) = width
  /\ toString_hex (magnitude_bytes value width)
     = padStart (toString16 value) (2 * width)
  /\ String.length (padStart (toString16 value) (2 * width)) = (2 * width)%nat
  /\ N_of_bytes (magnitude_bytes value width) = value.
Proof.
  intros Hwidth Hvalue. unfold magnitude_bytes, padStart.
  assert (Hdigits : (String.length (toString16 value) <= 2 * width)%nat).
  { unfold toString16.
    etransitivity; [apply (toString16_aux_length _ _ _ (2 * width))|];
      [|lia|cbn [String.length]; lia].
    replace (N.of_nat (2 * width)) with (2 * N.of_nat width)%N by lia.
    now rewrite N.pow_mul_r. }
  destruct (padStart_zeros (toString16 value)
              (2 * width - String.length (toString16 value)))
    as (Hlen & Hhex & Hval).
  cbv zeta in Hlen, Hhex, Hval.
  destruct (hex_roundtrip width
              (String.append
                 (String.concat EmptyString
                    (repeat "0"%string
                       (2 * width - String.length (toString16 value))))
                 (toString16 value)))
    as (Hround & Hcount & Hbytes).
  - lia.
  - apply Hhex. unfold toString16. now apply toString16_aux_lower_hex.
  - repeat split; try assumption; [lia|].
    now rewrite Hbytes, Hval, toString16_value.
Qed.

(** ** Writes into a frame *)

Lemma copy_to_ok (source target : Buffer) (offset : Z) :
  0 <= offset ->
  exists b, copy_to source target offset = Ok b /\ len b = len target.
Proof.
  intros Hoff. unfold copy_to, copy.
  assert (Hs := len_nonneg source). assert (Ht := len_nonneg target).
  zcases; try lia; eexists; (split; [reflexivity|]); try reflexivity.
  - rewrite !len_app, len_firstn, len_firstn, len_skipn; cbn [Z.to_nat skipn];
      lia.
  - rewrite !len_app, len_firstn, len_firstn, len_skipn; cbn [Z.to_nat skipn];
      lia.
Qed.

Lemma copy_to_length (source target b : Buffer) (offset : Z) :
  copy_to source target offset = Ok b -> len b = len target.
Proof.
  intros H. destruct (Z.ltb_spec offset 0) as [Hneg|Hpos].
  - unfold copy_to, copy in H. destruct (Z.ltb_spec offset 0); [discriminate|lia].
  - destruct (copy_to_ok source target offset Hpos) as (b' & Hb' & Hlen).
    congruence.
Qed.

Lemma copy_if_present_length (source : option Buffer) (target b : Buffer)
    (offset : Z) :
  copy_if_present source target offset = Ok b -> len b = len target.
Proof.
  destruct source; cbn; [apply copy_to_length|now intros [= <-]].
Qed.

Lemma copy_magnitude_if_present_length (value : option BigNumber) (width : nat)
    (target b : Buffer) (offset : Z) :
  copy_magnitude_if_present value width target offset = Ok b ->
  len b = len target.
Proof.
  destruct value; cbn; [apply copy_to_length|now intros [= <-]].
Qed.

Lemma field_of_prefix (b b' : Buffer) (m offset width : Z) :
  firstn (Z.to_nat m) b' = firstn (Z.to_nat m) b ->
  0 <= offset -> 0 <= width -> offset + width <= m ->
  field b' offset width = field b offset width.
Proof.
  intros Hprefix Hoff Hwidth Hm. unfold field.
  assert (Hcut : forall l : Buffer,
             firstn (Z.to_nat width) (skipn (Z.to_nat offset) l)
             = firstn (Z.to_nat width)
                 (skipn (Z.to_nat offset) (firstn (Z.to_nat m) l))).
  { intros l. rewrite skipn_firstn_comm, firstn_firstn. f_equal. lia. }
  now rewrite (Hcut b'), (Hcut b), Hprefix.
Qed.

Lemma firstn_app_left {A} (n : nat) (l1 l2 : list A) :
  (n <= List.length l1)%nat -> firstn n (l1 ++ l2) = firstn n l1.
Proof.
  intros H. rewrite firstn_app.
  replace (n - List.length l1)%nat with 0%nat by lia.
  cbn [firstn]. apply app_nil_r.
Qed.

Lemma copy_to_prefix (source target b : Buffer) (offset m : Z) :
  copy_to source target offset = Ok b -> m <= offset ->
  firstn (Z.to_nat m) b = firstn (Z.to_nat m) target.
Proof.
  unfold copy_to, copy. intros H Hm. revert H.
  assert (Ht := len_nonneg target). unfold len in *.
  zcases; try discriminate; intros [= <-]; try reflexivity.
  all: rewrite firstn_app_left by (rewrite length_firstn; lia);
    rewrite firstn_firstn; f_equal; lia.
Qed.


Lemma set_index_prefix (b : Buffer) (i v m : Z) :
  m <= i -> firstn (Z.to_nat m) (set_index b i v) = firstn (Z.to_nat m) b.
Proof.
  intros Hm. unfold set_index, len. zcases; try reflexivity.
  rewrite firstn_app_left by (rewrite length_firstn; lia).
  rewrite firstn_firstn. f_equal. lia.
Qed.

(** A source that fits is found where it was copied. *)
Lemma copy_to_field (source target b : Buffer) (offset : Z) :
  copy_to source target offset = Ok b ->
  0 <= offset -> offset + len source <= len target ->
  field b offset (len source) = source.
Proof.
  unfold copy_to. intros H Hoff Hfit. assert (Hs := len_nonneg source).
  rewrite copy_fits in H by lia. injection H as <-.
  unfold field. rewrite Z.sub_0_r. cbn [Z.to_nat skipn].
  rewrite firstn_len.
  rewrite skipn_app, skipn_all2 by (rewrite length_firstn; unfold len in *; lia).
  rewrite length_firstn.
  replace (Z.to_nat offset - Nat.min (Z.to_nat offset) (List.length target))%nat
    with 0%nat by (unfold len in *; lia).
  cbn [skipn app]. rewrite firstn_app_left by (unfold len; lia).
  apply firstn_len.
Qed.

Lemma writeUInt32BE_field (b b' : Buffer) (value offset : Z) :
  writeUInt32BE b value offset = Ok b' ->
  field b' offset 4 = uint32be value.
Proof.
  unfold writeUInt32BE. intros H. revert H. unfold len.
  zcases; try discriminate; intros [= <-].
  unfold field.
  rewrite skipn_app, skipn_all2 by (rewrite length_firstn; lia).
  rewrite length_firstn.
  replace (Z.to_nat offset - Nat.min (Z.to_nat offset) (List.length b))%nat
    with 0%nat by lia.
  reflexivity.
Qed.

Ltac peel H :=
  repeat (cbv beta zeta in H;
          let b := fresh "b" in
          let Hb := fresh "Hb" in
          apply rbind_ok in H as (b & Hb & H));
  cbv beta zeta in H;
  repeat match goal with
    | E : Ok ?a = Ok ?b |- _ => is_var b; injection E as E; subst b
    end.

Ltac note_lengths :=
  repeat match goal with
    | H : Ok ?a = Ok ?b |- _ => injection H as H; try subst b
    end;
  repeat match goal with
    | H : Buffer_alloc _ = Ok _ |- _ =>
        apply Buffer_alloc_ok in H; destruct H as [_ H]
    | H : write_path_header ?b _ = Ok ?b' |- _ =>
        lazymatch goal with
        | _ : len b' = len b |- _ => fail
        | _ => pose proof (write_path_header_length _ _ _ H)
        end
    | H : writeUInt32BE ?b _ _ = Ok ?b' |- _ =>
        lazymatch goal with
        | _ : len b' = len b |- _ => fail
        | _ => pose proof (writeUInt32BE_length _ _ _ _ H)
        end
    | H : copy_to _ ?b _ = Ok ?b' |- _ =>
        lazymatch goal with
        | _ : len b' = len b |- _ => fail
        | _ => pose proof (copy_to_length _ _ _ _ H)
        end
    | H : copy_if_present _ ?b _ = Ok ?b' |- _ =>
        lazymatch goal with
        | _ : len b' = len b |- _ => fail
        | _ => pose proof (copy_if_present_length _ _ _ _ H)
        end
    | H : copy_magnitude_if_present _ _ ?b _ = Ok ?b' |- _ =>
        lazymatch goal with
        | _ : len b' = len b |- _ => fail
        | _ => pose proof (copy_magnitude_if_present_length _ _ _ _ _ H)
        end
    end;
  rewrite ?set_index_length in *.

(** ** The conditional transfer *)

Lemma is_present_maybeHexBuffer (str : option string) :
  is_present (maybeHexBuffer str)
  = match str with
    | None | Some EmptyString => false
    | Some _ => true
    end.
Proof. destruct str as [[|c s]|]; reflexivity. Qed.

(** X22. In [starkSignTransfer_v2] the length of the frame and [param1]
    both follow the conditional address alone, whether or not a fact comes
    with it: with a non-empty address the frame is 52 bytes longer and
    [param1] is [0x05], without one the frame has the base length and
    [param1] is [0x04].  With an address of 20 bytes and a fact below
    2^256 both supplied, the 52 bytes after the timestamp are the 32-byte
    fact followed by the address. *)
Theorem starkSignTransfer_v2_frame_shape :
  forall transport_send splitPath path paths transferTokenAddress
         transferQuantizationType transferQuantization
         transferMintableBlobOrTokenId targetPublicKey sourceVault
         destinationVault amountTransfer nonce timestamp
         conditionalTransferAddress conditionalTransferFact buffer,
    splitPath path = Ok paths ->
    starkSignTransfer_v2_buffer splitPath path transferTokenAddress
      transferQuantizationType transferQuantization
      transferMintableBlobOrTokenId targetPublicKey sourceVault
      destinationVault amountTransfer nonce timestamp
      conditionalTransferAddress conditionalTransferFact = Ok buffer ->
    let base := 1 + 4 * len paths + 141 in
    let conditional := is_present (maybeHexBuffer conditionalTransferAddress) in
    (forall sent,
        fst (starkSignTransfer_v2 transport_send splitPath path
               transferTokenAddress transferQuantizationType
               transferQuantization transferMintableBlobOrTokenId
               targetPublicKey sourceVault destinationVault amountTransfer
               nonce timestamp conditionalTransferAddress
               conditionalTransferFact sent)
        = sent ++ [mk_apdu 0xf0 0x04 (if conditional then 0x05 else 0x04) 0x00
                     buffer])
    /\ len buffer = base + (if conditional then 52 else 0)
    /\ field buffer (base - 4) 4 = uint32be timestamp
    /\ (conditionalTransferAddress = None -> conditional = false)
    /\ (forall addressHex fact,
           maybeHexBuffer conditionalTransferAddress = Some addressHex ->
           conditionalTransferFact = Some fact ->
           (fact < 256 ^ 32)%N ->
           len addressHex = 20 ->
           conditional = true
           /\ skipn (Z.to_nat base) buffer = magnitude_bytes fact 32 ++ addressHex
           /\ len (magnitude_bytes fact 32) = 32
           /\ N_of_bytes (magnitude_bytes fact 32) = fact).
Proof.
  intros transport_send splitPath path paths transferTokenAddress
    transferQuantizationType transferQuantization transferMintableBlobOrTokenId
    targetPublicKey sourceVault destinationVault amountTransfer nonce timestamp
    conditionalTransferAddress conditionalTransferFact buffer Hsplit Hbuffer
    base conditional.
  assert (Hp := len_nonneg paths).
  split; [|split; [|split; [|split]]].
  - intros sent. unfold starkSignTransfer_v2, then1, then2, lift, send.
    rewrite Hbuffer. unfold starkSignTransfer_v2_p1. fold conditional.
    destruct (transport_send sent _); reflexivity.
  - unfold starkSignTransfer_v2_buffer in Hbuffer. rewrite Hsplit in Hbuffer.
    fold conditional in Hbuffer. peel Hbuffer.
    destruct (maybeHexBuffer conditionalTransferAddress) as [addressHex|];
      [destruct conditionalTransferFact as [fact|]|]; peel Hbuffer;
      try (injection Hbuffer as <-); note_lengths;
      try (apply copy_to_length in Hbuffer); subst base conditional;
      cbn [is_present] in *; lia.
  - unfold starkSignTransfer_v2_buffer in Hbuffer. rewrite Hsplit in Hbuffer.
    peel Hbuffer.
    match goal with
    | H : writeUInt32BE _ timestamp _ = Ok _ |- _ =>
        pose proof (writeUInt32BE_field _ _ _ _ H) as Hfield
    end.
    replace (base - 4)
      with (1 + 4 * len paths + 1 + 20 + 32 + 32 + 32 + 4 + 4 + 8 + 4)
      by (subst base; lia).
    destruct (maybeHexBuffer conditionalTransferAddress) as [addressHex|];
      [destruct conditionalTransferFact as [fact|]|]; peel Hbuffer;
      try (injection Hbuffer as <-); try exact Hfield.
    rewrite <- Hfield.
    apply field_of_prefix
      with (m := 1 + 4 * len paths + 1 + 20 + 32 + 32 + 32 + 4 + 4 + 8 + 4 + 4);
      try lia.
    etransitivity; [eapply copy_to_prefix; [exact Hbuffer|lia]|].
    eapply copy_to_prefix; [eassumption|lia].
  - intros ->. reflexivity.
  - intros addressHex fact Haddress -> Hfact Hlen.
    destruct (magnitude_bytes_within fact 32 ltac:(lia) Hfact)
      as (Hcount & _ & _ & Hvalue).
    assert (Hmag : len (magnitude_bytes fact 32) = 32)
      by (unfold len; rewrite Hcount; reflexivity).
    split; [subst conditional; now rewrite Haddress|].
    split; [|split; assumption].
    unfold starkSignTransfer_v2_buffer in Hbuffer. rewrite Hsplit in Hbuffer.
    rewrite Haddress in Hbuffer. cbn [is_present] in Hbuffer. peel Hbuffer.
    note_lengths.
    lazymatch goal with
    | H : copy_to (magnitude_bytes fact 32) ?b ?o = Ok ?b' |- _ =>
        assert (Hfactfield : field b' o 32 = magnitude_bytes fact 32)
          by (pose proof (copy_to_field _ _ _ _ H) as Hf;
              rewrite Hmag in Hf; apply Hf; lia);
        assert (Hfactlen : len b' = base + 52) by (subst base; lia)
    end.
    assert (Haddrfield : field buffer (base + 32) 20 = addressHex).
    { replace (base + 32)
        with (1 + 4 * len paths + 1 + 20 + 32 + 32 + 32 + 4 + 4 + 8 + 4 + 4 + 32)
        by (subst base; lia).
      pose proof (copy_to_field _ _ _ _ Hbuffer) as Hf.
      rewrite Hlen in Hf. apply Hf; lia. }
    assert (Hkeep : field buffer base 32 = magnitude_bytes fact 32).
    { rewrite <- Hfactfield.
      replace base
        with (1 + 4 * len paths + 1 + 20 + 32 + 32 + 32 + 4 + 4 + 8 + 4 + 4)
        by (subst base; lia).
      apply field_of_prefix
        with (m := 1 + 4 * len paths + 1 + 20 + 32 + 32 + 32 + 4 + 4 + 8 + 4 + 4 + 32);
        try lia.
      eapply copy_to_prefix; [exact Hbuffer|lia]. }
    apply copy_to_length in Hbuffer.
    rewrite <- Hkeep, <- Haddrfield. unfold field.
    rewrite <- (firstn_skipn (Z.to_nat 32) (skipn (Z.to_nat base) buffer)) at 1.
    f_equal. rewrite skipn_skipn.
    replace (Z.to_nat 32 + Z.to_nat base)%nat with (Z.to_nat (base + 32)) by lia.
    symmetry. apply firstn_all2. rewrite length_skipn. unfold len in *. lia.
Qed.

Lemma starkSignTransfer_v2_frame_shape_witness :
  exists buffer,
    starkSignTransfer_v2_buffer sample_splitPath "44'/52752'/0'/0/0" None eth
      None None "00" 1 2 3%N 4 5
      (Some "0x0102030405060708090a0b0c0d0e0f1011121314"%string) (Some 7%N)
    = Ok buffer
    /\ len buffer = 214
    /\ skipn 162 buffer
       = magnitude_bytes 7%N 32
           ++ hexBuffer "0102030405060708090a0b0c0d0e0f1011121314".
Proof.
  destruct (starkSignTransfer_v2_buffer sample_splitPath "44'/52752'/0'/0/0"
              None eth None None "00" 1 2 3%N 4 5
              (Some "0x0102030405060708090a0b0c0d0e0f1011121314"%string)
              (Some 7%N)) as [buffer|e] eqn:H;
    [|vm_compute in H; discriminate H].
  exists buffer. split; [reflexivity|].
  destruct (starkSignTransfer_v2_frame_shape (answering []) sample_splitPath
              _ sample_paths _ _ _ _ _ _ _ _ _ _ _ _ buffer eq_refl H)
    as (_ & Hlen & _ & _ & Hpair).
  split; [exact Hlen|].
  destruct (Hpair (hexBuffer "0102030405060708090a0b0c0d0e0f1011121314") 7%N)
    as (_ & Hfields & _); try reflexivity.
  exact Hfields.
Defined.

(** ** C5: the magnitude fields *)









(** ** Frames written field after field *)

Lemma zeros_app (n m : nat) : zeros (n + m) = zeros n ++ zeros m.
Proof. unfold zeros. apply repeat_app. Qed.

Lemma skipn_zeros (m n : nat) : skipn m (zeros n) = zeros (n - m).
Proof.
  revert n. induction m as [|m IH]; intros n.
  - now rewrite Nat.sub_0_r.
  - destruct n as [|n]; [reflexivity|]. cbn [zeros repeat skipn]. apply IH.
Qed.

Lemma firstn_zeros (m n : nat) : (m <= n)%nat -> firstn m (zeros n) = zeros m.
Proof.
  revert n. induction m as [|m IH]; intros n H; [reflexivity|].
  destruct n as [|n]; [lia|]. cbn [zeros repeat firstn]. f_equal.
  apply IH. lia.
Qed.

Lemma firstn_len_app {A} (l1 l2 : list A) :
  firstn (Z.to_nat (len l1)) (l1 ++ l2) = l1.
Proof.
  unfold len. rewrite Nat2Z.id, firstn_app, Nat.sub_diag, firstn_all.
  cbn [firstn]. apply app_nil_r.
Qed.

Lemma skipn_len_app {A} (l1 l2 : list A) (n : nat) :
  skipn (Z.to_nat (len l1) + n) (l1 ++ l2) = skipn n l2.
Proof.
  unfold len. rewrite Nat2Z.id, skipn_app.
  rewrite skipn_all2 by lia.
  replace (List.length l1 + n - List.length l1)%nat with n by lia.
  reflexivity.
Qed.

Lemma Z_of_byte_of_Z (z : Z) : 0 <= z < 256 -> Z_of_byte (byte_of_Z z) = z.
Proof.
  intros H. unfold Z_of_byte. rewrite to_N_byte_of_Z by assumption. lia.
Qed.

Lemma len_path_header (paths : list Z) :
  len (path_header paths) = 1 + 4 * len paths.
Proof.
  unfold path_header. rewrite len_cons. f_equal.
  induction paths as [|element rest IH]; [reflexivity|].
  cbn [List.map List.concat]. rewrite len_app, IH, len_cons.
  change (len (uint32be element)) with 4. lia.
Qed.

(** A source copied at the end of what was written so far, into the zeros
    that follow: the source is clipped to the room there is. *)
Lemma copy_to_frontier (source pre : Buffer) (n : nat) (offset : Z) :
  len pre = offset ->
  copy_to source (pre ++ zeros n) offset
  = Ok (pre ++ firstn n (source ++ zeros n)).
Proof.
  intros <-. assert (Hp := len_nonneg pre). assert (Hs := len_nonneg source).
  destruct (Nat.le_gt_cases (List.length source) n) as [Hfit|Hover].
  - unfold copy_to. rewrite copy_fits;
      [|lia|lia|lia|rewrite len_app, len_zeros; unfold len; lia].
    rewrite Z.sub_0_r. cbn [Z.to_nat skipn].
    rewrite firstn_len_app, firstn_len.
    replace (Z.to_nat (len pre + len source))
      with (Z.to_nat (len pre) + List.length source)%nat by (unfold len; lia).
    rewrite skipn_len_app, skipn_zeros.
    rewrite firstn_app, firstn_all2 by lia.
    now rewrite firstn_zeros by lia.
  - rewrite (firstn_app_left n source) by lia.
    unfold copy_to, copy. rewrite len_app, len_zeros.
    destruct n as [|n].
    + cbn [zeros repeat firstn]. zcases; try lia; reflexivity.
    + assert (Hsrc : Z.of_nat (S n) < len source) by (unfold len; lia).
      zcases; try lia.
      cbn [Z.to_nat skipn].
      replace (0 + (len pre + Z.of_nat (S n)) - len pre - 0)
        with (Z.of_nat (S n)) by lia.
      rewrite Nat2Z.id, firstn_len_app.
      replace (Z.to_nat (len pre + Z.of_nat (S n)))
        with (Z.to_nat (len pre) + S n)%nat by lia.
      rewrite skipn_len_app, skipn_zeros, Nat.sub_diag.
      cbn [zeros repeat]. now rewrite app_nil_r.
Qed.

(** A source that fits leaves the zeros it does not cover. *)
Lemma copy_to_frontier_fits (source pre : Buffer) (n : nat) (offset : Z) :
  len pre = offset -> (List.length source <= n)%nat ->
  copy_to source (pre ++ zeros n) offset
  = Ok ((pre ++ source) ++ zeros (n - List.length source)).
Proof.
  intros Hoff Hfit. rewrite copy_to_frontier by assumption.
  rewrite firstn_app, firstn_all2 by lia.
  rewrite firstn_zeros by lia.
  now rewrite app_assoc.
Qed.

Lemma writeUInt32BE_frontier (pre : Buffer) (n : nat) (value offset : Z) :
  0 <= value <= 4294967295 -> len pre = offset -> (4 <= n)%nat ->
  writeUInt32BE (pre ++ zeros n) value offset
  = Ok ((pre ++ uint32be value) ++ zeros (n - 4)).
Proof.
  intros Hv <- Hn. assert (Hp := len_nonneg pre).
  unfold writeUInt32BE. rewrite len_app, len_zeros.
  zcases; try lia.
  rewrite firstn_len_app.
  replace (Z.to_nat (len pre + 4)) with (Z.to_nat (len pre) + 4)%nat by lia.
  rewrite skipn_len_app, skipn_zeros. now rewrite <- app_assoc.
Qed.

Lemma forEach_writeUInt32BE_frontier (paths : list Z) :
  Forall (fun element => 0 <= element <= 4294967295) paths ->
  forall (pre : Buffer) (c : nat) (i : Z),
    len pre = 1 + 4 * i ->
    forEach_writeUInt32BE (pre ++ zeros (4 * List.length paths + c)) paths i
    = Ok ((pre ++ List.concat (List.map uint32be paths)) ++ zeros c).
Proof.
  induction 1 as [|element rest Helement _ IH]; intros pre c i Hpre.
  - cbn. now rewrite app_nil_r.
  - cbn [forEach_writeUInt32BE List.map List.concat List.length].
    rewrite writeUInt32BE_frontier by (assumption || lia). cbn [rbind].
    replace (4 * S (List.length rest) + c - 4)%nat
      with (4 * List.length rest + c)%nat by lia.
    rewrite IH.
    + now rewrite <- !app_assoc.
    + rewrite len_app. change (len (uint32be element)) with 4. lia.
Qed.

(** On a zeroed buffer the path header is written in front, and the zeros
    after it are left. *)
Lemma write_path_header_frontier (paths : list Z) (c : nat) :
  Forall (fun element => 0 <= element <= 4294967295) paths ->
  write_path_header (zeros (S (4 * List.length paths + c))) paths
  = Ok (path_header paths ++ zeros c).
Proof.
  intros Hpaths. unfold write_path_header, set_index.
  rewrite len_zeros. cbn [zeros repeat].
  destruct (Z.leb_spec 0 0); [|lia].
  destruct (Z.ltb_spec 0 (Z.of_nat (S (4 * List.length paths + c)))); [|lia].
  cbn [andb Z.to_nat firstn skipn app].
  apply (forEach_writeUInt32BE_frontier paths Hpaths [byte_of_Z (len paths)] c 0).
  reflexivity.
Qed.

(** [Buffer.alloc] of a path header and [c] more bytes. *)
Lemma Buffer_alloc_frame (paths : list Z) (size : Z) (c : nat) :
  size = 1 + len paths * 4 + Z.of_nat c ->
  Buffer_alloc size = Ok (zeros (S (4 * List.length paths + c))).
Proof.
  intros ->. assert (Hp := len_nonneg paths).
  rewrite Buffer_alloc_nonneg by lia. do 2 f_equal. unfold len. lia.
Qed.

(** ** The path header *)

Lemma to_N_byte_of_Z_mod (z : Z) :
  Byte.to_N (byte_of_Z z) = Z.to_N (z mod 256).
Proof.
  assert (H := Z.mod_pos_bound z 256 ltac:(lia)).
  rewrite <- (to_N_byte_of_Z (z mod 256)) by lia.
  unfold byte_of_Z. now rewrite Z.mod_mod by lia.
Qed.

(** The four bytes [writeUInt32BE] writes hold the value. *)
Lemma uint32be_value (value : Z) :
  0 <= value <= 4294967295 ->
  Z.of_N (N_of_bytes (uint32be value)) = value.
Proof.
  intros H. unfold uint32be. cbn [N_of_bytes List.length].
  rewrite !to_N_byte_of_Z_mod.
  assert (H3 := Z.mod_pos_bound (value / 16777216) 256 ltac:(lia)).
  assert (H2 := Z.mod_pos_bound (value / 65536) 256 ltac:(lia)).
  assert (H1 := Z.mod_pos_bound (value / 256) 256 ltac:(lia)).
  assert (H0 := Z.mod_pos_bound value 256 ltac:(lia)).
  rewrite !N2Z.inj_add, !N2Z.inj_mul, !Z2N.id by lia.
  change (Z.of_N (256 ^ N.of_nat 3)) with 16777216.
  change (Z.of_N (256 ^ N.of_nat 2)) with 65536.
  change (Z.of_N (256 ^ N.of_nat 1)) with 256.
  change (Z.of_N (256 ^ N.of_nat 0)) with 1.
  change (Z.of_N 0) with 0.
  Z.div_mod_to_equations. lia.
Qed.

Lemma writeUInt32BE_in_range (b b' : Buffer) (value offset : Z) :
  writeUInt32BE b value offset = Ok b' -> 0 <= value <= 4294967295.
Proof.
  unfold writeUInt32BE. zcases; try discriminate; lia.
Qed.

Lemma writeUInt32BE_throws (b : Buffer) (value offset : Z) (e : js_error) :
  writeUInt32BE b value offset = Throw e -> exists message, e = RangeError message.
Proof.
  unfold writeUInt32BE.
  destruct ((value <? 0) || (value >? 4294967295));
    [intros [= <-]; eauto|].
  destruct ((offset <? 0) || (offset + 4 >? len b));
    [intros [= <-]; eauto|discriminate].
Qed.

Lemma forEach_writeUInt32BE_in_range (paths : list Z) :
  forall (b b' : Buffer) (i : Z),
    forEach_writeUInt32BE b paths i = Ok b' ->
    Forall (fun element => 0 <= element <= 4294967295) paths.
Proof.
  induction paths as [|element rest IH]; intros b b' i H; [constructor|].
  cbn [forEach_writeUInt32BE] in H.
  apply rbind_ok in H as (b1 & H1 & H).
  constructor; [eapply writeUInt32BE_in_range; eassumption|eapply IH; eassumption].
Qed.

Lemma forEach_writeUInt32BE_throws (paths : list Z) :
  forall (b : Buffer) (i : Z) (e : js_error),
    forEach_writeUInt32BE b paths i = Throw e ->
    exists message, e = RangeError message.
Proof.
  induction paths as [|element rest IH]; intros b i e; [discriminate|].
  cbn [forEach_writeUInt32BE].
  destruct (writeUInt32BE b element (1 + 4 * i)) as [b1|e1] eqn:H1; cbn [rbind].
  - apply IH.
  - intros [= <-]. eapply writeUInt32BE_throws; eassumption.
Qed.

(** What [path_buffer] gives for a path [splitPath] parses. *)
Lemma path_buffer_cases (splitPath : string -> result (list Z)) (path : string)
    (paths : list Z) :
  splitPath path = Ok paths ->
  (Forall (fun element => 0 <= element <= 4294967295) paths
   /\ path_buffer splitPath path = Ok (path_header paths))
  \/ (~ Forall (fun element => 0 <= element <= 4294967295) paths
      /\ exists message,
          path_buffer splitPath path = Throw (RangeError message)).
Proof.
  intros Hsplit. unfold path_buffer. rewrite Hsplit. cbn [rbind].
  rewrite (Buffer_alloc_frame paths _ 0) by lia. cbn [rbind].
  destruct (write_path_header (zeros (S (4 * List.length paths + 0))) paths)
    as [b|e] eqn:Hheader.
  - left. assert (Hrange := Hheader). unfold write_path_header in Hrange.
    apply forEach_writeUInt32BE_in_range in Hrange.
    split; [assumption|].
    rewrite write_path_header_frontier in Hheader by assumption.
    cbn [zeros repeat] in Hheader. rewrite app_nil_r in Hheader.
    now rewrite <- Hheader.
  - right. split.
    + intros Hrange. rewrite write_path_header_frontier in Hheader by assumption.
      discriminate Hheader.
    + unfold write_path_header in Hheader.
      apply forEach_writeUInt32BE_throws in Hheader as [message ->]. eauto.
Qed.

(** X1. The frame of [getAddress], [starkGetPublicKey] and
    [eth2GetPublicKey] is the path header alone: one byte holding the
    number of path elements, then four bytes per element, most significant
    first, which hold the element.  It is sent as the single frame of the
    call, with the display and chain-code flags in [param1] and
    [param2]. *)
Theorem path_frame_is_the_path_header :
  forall transport_send splitPath path paths boolDisplay boolChaincode sent,
    splitPath path = Ok paths ->
    Forall (fun element => 0 <= element <= 4294967295) paths ->
    let flag (b : bool) := if b then 0x01 else 0x00 in
    fst (getAddress transport_send splitPath path boolDisplay boolChaincode sent)
    = sent ++ [mk_apdu 0xe0 0x02 (flag boolDisplay) (flag boolChaincode)
                 (path_header paths)]
    /\ fst (starkGetPublicKey transport_send splitPath path boolDisplay sent)
       = sent ++ [mk_apdu 0xf0 0x02 (flag boolDisplay) 0x00 (path_header paths)]
    /\ fst (eth2GetPublicKey transport_send splitPath path boolDisplay sent)
       = sent ++ [mk_apdu 0xe0 0x0e (flag boolDisplay) 0x00 (path_header paths)]
    /\ len (path_header paths) = 1 + 4 * len paths
    /\ Forall (fun element => Z.of_N (N_of_bytes (uint32be element)) = element)
         paths.
Proof.
  intros transport_send splitPath path paths boolDisplay boolChaincode sent
    Hsplit Hpaths flag.
  destruct (path_buffer_cases splitPath path paths Hsplit)
    as [[_ Hbuffer]|[Hnot _]]; [|contradiction].
  repeat split.
  - unfold getAddress, then1, then2, lift, send. rewrite Hbuffer.
    destruct (transport_send sent _); [destruct boolChaincode|]; reflexivity.
  - unfold starkGetPublicKey, then1, then2, lift, send. rewrite Hbuffer.
    destruct (transport_send sent _); reflexivity.
  - unfold eth2GetPublicKey, then1, then2, lift, send. rewrite Hbuffer.
    destruct (transport_send sent _); reflexivity.
  - apply len_path_header.
  - eapply Forall_impl; [|exact Hpaths]. intros element. apply uint32be_value.
Qed.

Lemma path_frame_is_the_path_header_witness :
  fst (getAddress (answering []) sample_splitPath "44'/52752'/0'/0/0" false
         true [])
  = [mk_apdu 0xe0 0x02 0x00 0x01
       (hexBuffer "058000002c8000ce10800000000000000000000000")].
Proof.
  apply (path_frame_is_the_path_header (answering []) sample_splitPath
           "44'/52752'/0'/0/0" sample_paths false true [] eq_refl).
  repeat constructor; lia.
Defined.

(** X2. A path element outside the 32-bit range makes [getAddress],
    [starkGetPublicKey] and [eth2GetPublicKey] reject with the RangeError
    of [writeUInt32BE], before anything is sent. *)
Theorem path_element_out_of_range_rejects :
  forall transport_send splitPath path paths boolDisplay boolChaincode sent,
    splitPath path = Ok paths ->
    ~ Forall (fun element => 0 <= element <= 4294967295) paths ->
    exists message,
      getAddress transport_send splitPath path boolDisplay boolChaincode sent
      = (sent, Throw (RangeError message))
      /\ starkGetPublicKey transport_send splitPath path boolDisplay sent
         = (sent, Throw (RangeError message))
      /\ eth2GetPublicKey transport_send splitPath path boolDisplay sent
         = (sent, Throw (RangeError message)).
Proof.
  intros transport_send splitPath path paths boolDisplay boolChaincode sent
    Hsplit Hnot.
  destruct (path_buffer_cases splitPath path paths Hsplit)
    as [[Hrange _]|[_ [message Hbuffer]]]; [contradiction|].
  exists message.
  unfold getAddress, starkGetPublicKey, eth2GetPublicKey, then1, then2, lift.
  rewrite Hbuffer. repeat split.
Qed.

Lemma path_element_out_of_range_rejects_witness :
  exists message,
    getAddress (answering []) (fun _ => Ok [2147483692; 4294967296]) "44'/2147483648'"
      false false []
    = ([], Throw (RangeError message)).
Proof.
  destruct (path_element_out_of_range_rejects (answering [])
              (fun _ => Ok [2147483692; 4294967296]) "44'/2147483648'"
              [2147483692; 4294967296] false false [] eq_refl)
    as (message & H & _).
  - intros Hrange. inversion_clear Hrange as [|? ? _ Hrest].
    inversion_clear Hrest as [|? ? Hbad _]. lia.
  - exists message. exact H.
Defined.

(** ** Frames of the single-frame operations *)

(** X3. [eth2SetWithdrawalIndex] sends the index as four bytes, most
    significant first, in one frame; an index outside the 32-bit range is
    rejected with the RangeError of [writeUInt32BE] before anything is
    sent, whatever the transport would answer. *)
Theorem eth2SetWithdrawalIndex_frame :
  forall transport_send withdrawalIndex sent,
    (0 <= withdrawalIndex <= 4294967295 ->
     fst (eth2SetWithdrawalIndex transport_send withdrawalIndex sent)
     = sent ++ [mk_apdu 0xe0 0x10 0x00 0x00 (uint32be withdrawalIndex)])
    /\ (~ 0 <= withdrawalIndex <= 4294967295 ->
        exists message,
          eth2SetWithdrawalIndex transport_send withdrawalIndex sent
          = (sent, Throw (RangeError message))).
Proof.
  intros transport_send withdrawalIndex sent.
  unfold eth2SetWithdrawalIndex, then1, then2, lift, send.
  rewrite Buffer_alloc_nonneg by lia. cbn [rbind].
  change (zeros (Z.to_nat 4)) with ([] ++ zeros 4).
  split.
  - intros Hrange.
    rewrite writeUInt32BE_frontier by (assumption || reflexivity || lia).
    cbn [app zeros repeat Nat.sub]. rewrite app_nil_r.
    destruct (transport_send sent _) as [response|e]; [reflexivity|].
    unfold unsupported_is_false, resolve, reject.
    destruct (statusCode_is e 27904); reflexivity.
  - intros Hrange.
    destruct (writeUInt32BE ([] ++ zeros 4) withdrawalIndex 0) as [b|e] eqn:H.
    + apply writeUInt32BE_in_range in H. contradiction.
    + apply writeUInt32BE_throws in H as [message ->].
      exists message. reflexivity.
Qed.

Lemma eth2SetWithdrawalIndex_frame_witness :
  fst (eth2SetWithdrawalIndex (answering (hexBuffer "9000")) 258 [])
  = [mk_apdu 0xe0 0x10 0x00 0x00 (hexBuffer "00000102")]
  /\ exists message,
      eth2SetWithdrawalIndex (answering (hexBuffer "9000")) (-1) []
      = ([], Throw (RangeError message)).
Proof.
  split.
  - apply (proj1 (eth2SetWithdrawalIndex_frame (answering (hexBuffer "9000"))
                    258 [])). lia.
  - apply (proj2 (eth2SetWithdrawalIndex_frame (answering (hexBuffer "9000"))
                    (-1) [])). lia.
Defined.

(** X4. The frame of [signEIP712HashedMessage] is the path header followed
    by the domain separator and the message hash, when both are 32 bytes
    long. *)
Theorem signEIP712HashedMessage_frame :
  forall transport_send splitPath path paths domainSeparatorHex
         hashStructMessageHex sent,
    splitPath path = Ok paths ->
    Forall (fun element => 0 <= element <= 4294967295) paths ->
    len (hexBuffer domainSeparatorHex) = 32 ->
    len (hexBuffer hashStructMessageHex) = 32 ->
    fst (signEIP712HashedMessage transport_send splitPath path
           domainSeparatorHex hashStructMessageHex sent)
    = sent ++ [mk_apdu 0xe0 0x0c 0x00 0x00
                 (path_header paths ++ hexBuffer domainSeparatorHex
                  ++ hexBuffer hashStructMessageHex)].
Proof.
  intros transport_send splitPath path paths domainSeparatorHex
    hashStructMessageHex sent Hsplit Hpaths Hdomain Hhash.
  assert (Hbuffer :
            signEIP712HashedMessage_buffer splitPath path domainSeparatorHex
              hashStructMessageHex
            = Ok (path_header paths ++ hexBuffer domainSeparatorHex
                  ++ hexBuffer hashStructMessageHex)).
  { unfold signEIP712HashedMessage_buffer. rewrite Hsplit. cbn [rbind].
    rewrite (Buffer_alloc_frame paths _ 64) by lia. cbn [rbind].
    rewrite write_path_header_frontier by assumption. cbn [rbind].
    rewrite copy_to_frontier_fits;
      [|rewrite len_path_header; lia|unfold len in Hdomain; lia].
    cbn [rbind].
    rewrite copy_to_frontier_fits;
      [|rewrite len_app, len_path_header; lia|unfold len in *; lia].
    replace (64 - List.length (hexBuffer domainSeparatorHex)
             - List.length (hexBuffer hashStructMessageHex))%nat with 0%nat
      by (unfold len in *; lia).
    cbn [zeros repeat]. now rewrite app_nil_r, <- app_assoc. }
  unfold signEIP712HashedMessage, then1, then2, lift, send. rewrite Hbuffer.
  destruct (transport_send sent _); reflexivity.
Qed.

Lemma signEIP712HashedMessage_frame_witness :
  fst (signEIP712HashedMessage (answering []) sample_splitPath
         "44'/52752'/0'/0/0"
         "0101010101010101010101010101010101010101010101010101010101010101"
         "0x0202020202020202020202020202020202020202020202020202020202020202"
         [])
  = [mk_apdu 0xe0 0x0c 0x00 0x00
       (path_header sample_paths ++ repeat x01 32 ++ repeat x02 32)].
Proof.
  apply (signEIP712HashedMessage_frame (answering []) sample_splitPath
           "44'/52752'/0'/0/0" sample_paths
           "0101010101010101010101010101010101010101010101010101010101010101"
           "0x0202020202020202020202020202020202020202020202020202020202020202"
           [] eq_refl).
  - repeat constructor; lia.
  - reflexivity.
  - reflexivity.
Defined.

(** X5. The frame of [starkUnsafeSign] is the path header followed by 32
    bytes: the hash, cut to its first 32 bytes when it is longer and
    followed by zeros when it is shorter. *)
Theorem starkUnsafeSign_frame :
  forall transport_send splitPath path paths hash sent,
    splitPath path = Ok paths ->
    Forall (fun element => 0 <= element <= 4294967295) paths ->
    fst (starkUnsafeSign transport_send splitPath path hash sent)
    = sent ++ [mk_apdu 0xf0 0x0a 0x00 0x00
                 (path_header paths ++ firstn 32 (hexBuffer hash ++ zeros 32))].
Proof.
  intros transport_send splitPath path paths hash sent Hsplit Hpaths.
  assert (Hbuffer :
            starkUnsafeSign_buffer splitPath path hash
            = Ok (path_header paths ++ firstn 32 (hexBuffer hash ++ zeros 32))).
  { unfold starkUnsafeSign_buffer. rewrite Hsplit. cbn [rbind].
    rewrite (Buffer_alloc_frame paths _ 32) by lia. cbn [rbind].
    rewrite write_path_header_frontier by assumption. cbn [rbind].
    apply copy_to_frontier. rewrite len_path_header. lia. }
  unfold starkUnsafeSign, then1, then2, lift, send. rewrite Hbuffer.
  destruct (transport_send sent _); reflexivity.
Qed.

Lemma starkUnsafeSign_frame_witness :
  fst (starkUnsafeSign (answering []) sample_splitPath "44'/52752'/0'/0/0"
         "0xabcd" [])
  = [mk_apdu 0xf0 0x0a 0x00 0x00
       (path_header sample_paths ++ hexBuffer "abcd" ++ zeros 30)].
Proof.
  apply (starkUnsafeSign_frame (answering []) sample_splitPath
           "44'/52752'/0'/0/0" sample_paths "0xabcd" [] eq_refl).
  repeat constructor; lia.
Defined.

Lemma len_uint32be (value : Z) : len (uint32be value) = 4.
Proof. reflexivity. Qed.

Lemma copy_to_field_width (source pre : Buffer) (n w : nat) (offset : Z) :
  len pre = offset -> len source = Z.of_nat w -> (w <= n)%nat ->
  copy_to source (pre ++ zeros n) offset = Ok ((pre ++ source) ++ zeros (n - w)).
Proof.
  intros Hoff Hw Hn. unfold len in Hw.
  rewrite copy_to_frontier_fits by (assumption || lia).
  do 3 f_equal. lia.
Qed.

Lemma len_address_field (addressHex : option Buffer) :
  (forall b, addressHex = Some b -> len b = 20) ->
  len (address_field addressHex) = 20.
Proof.
  destruct addressHex as [b|]; cbn; [auto|reflexivity].
Qed.

Lemma copy_if_present_frontier (addressHex : option Buffer) (pre : Buffer)
    (n : nat) (offset : Z) :
  len pre = offset -> (20 <= n)%nat ->
  (forall b, addressHex = Some b -> len b = 20) ->
  copy_if_present addressHex (pre ++ zeros n) offset
  = Ok ((pre ++ address_field addressHex) ++ zeros (n - 20)).
Proof.
  intros Hoff Hn Hlen. destruct addressHex as [b|]; cbn [copy_if_present address_field].
  - apply copy_to_field_width; auto.
  - replace n with (20 + (n - 20))%nat at 1 by lia.
    now rewrite zeros_app, app_assoc.
Qed.

Lemma len_magnitude_bytes (value : BigNumber) (width : nat) :
  (1 <= width)%nat -> (value < 256 ^ N.of_nat width)%N ->
  len (magnitude_bytes value width) = Z.of_nat width.
Proof.
  intros Hw Hv. destruct (magnitude_bytes_within value width Hw Hv) as [H _].
  unfold len. now rewrite H.
Qed.

(** X6. With a token address that is absent or 20 bytes long, a 32-byte
    target key, and magnitudes within their widths, the frame of
    [starkSignTransfer] is the path header followed by the fields in the
    order of the source: token address (zeros when absent), quantization,
    target key, the two vaults, amount, nonce and timestamp, 108 bytes
    after the header. *)
Theorem starkSignTransfer_frame :
  forall transport_send splitPath path paths transferTokenAddress
         transferQuantization targetPublicKey sourceVault destinationVault
         amountTransfer nonce timestamp sent,
    splitPath path = Ok paths ->
    Forall (fun element => 0 <= element <= 4294967295) paths ->
    Forall (fun number => 0 <= number <= 4294967295)
      [sourceVault; destinationVault; nonce; timestamp] ->
    (forall b, maybeHexBuffer transferTokenAddress = Some b -> len b = 20) ->
    (transferQuantization < 256 ^ 32)%N ->
    len (hexBuffer targetPublicKey) = 32 ->
    (amountTransfer < 256 ^ 8)%N ->
    let frame :=
      path_header paths
      ++ address_field (maybeHexBuffer transferTokenAddress)
      ++ magnitude_bytes transferQuantization 32
      ++ hexBuffer targetPublicKey
      ++ uint32be sourceVault ++ uint32be destinationVault
      ++ magnitude_bytes amountTransfer 8
      ++ uint32be nonce ++ uint32be timestamp in
    fst (starkSignTransfer transport_send splitPath path transferTokenAddress
           transferQuantization targetPublicKey sourceVault destinationVault
           amountTransfer nonce timestamp sent)
    = sent ++ [mk_apdu 0xf0 0x04 0x02 0x00 frame]
    /\ len frame = 1 + 4 * len paths + 108.
Proof.
  intros transport_send splitPath path paths transferTokenAddress
    transferQuantization targetPublicKey sourceVault destinationVault
    amountTransfer nonce timestamp sent Hsplit Hpaths Hnumbers Haddress
    Hquantization Hkey Hamount frame.
  inversion_clear Hnumbers as [|? ? HsourceVault Hnumbers'].
  inversion_clear Hnumbers' as [|? ? HdestinationVault Hnumbers].
  inversion_clear Hnumbers as [|? ? Hnonce Hnumbers'].
  inversion_clear Hnumbers' as [|? ? Htimestamp _].
  assert (Hfield := len_address_field _ Haddress).
  assert (Hq := len_magnitude_bytes transferQuantization 32 ltac:(lia) Hquantization).
  assert (Ha := len_magnitude_bytes amountTransfer 8 ltac:(lia) Hamount).
  assert (Hp := len_nonneg paths).
  assert (Hbuffer :
            starkSignTransfer_buffer splitPath path transferTokenAddress
              transferQuantization targetPublicKey sourceVault
              destinationVault amountTransfer nonce timestamp = Ok frame).
  { unfold starkSignTransfer_buffer. rewrite Hsplit. cbn [rbind]. cbv zeta.
    rewrite (Buffer_alloc_frame paths _ 108) by lia. cbn [rbind].
    rewrite write_path_header_frontier by assumption. cbn [rbind].
    rewrite copy_if_present_frontier;
      [|rewrite len_path_header; lia|lia|assumption].
    cbn [rbind].
    rewrite (copy_to_field_width _ _ _ 32);
      [|rewrite !len_app, len_path_header; lia|assumption|cbn; lia].
    cbn [rbind].
    rewrite (copy_to_field_width _ _ _ 32);
      [|rewrite !len_app, len_path_header; lia|assumption|cbn; lia].
    cbn [rbind].
    rewrite writeUInt32BE_frontier;
      [|assumption|rewrite !len_app, len_path_header; lia|cbn; lia].
    cbn [rbind].
    rewrite writeUInt32BE_frontier;
      [|assumption
       |rewrite !len_app, len_path_header, !len_uint32be; lia|cbn; lia].
    cbn [rbind].
    rewrite (copy_to_field_width _ _ _ 8);
      [|rewrite !len_app, len_path_header, !len_uint32be; lia|assumption
       |cbn; lia].
    cbn [rbind].
    rewrite writeUInt32BE_frontier;
      [|assumption
       |rewrite !len_app, len_path_header, !len_uint32be; lia|cbn; lia].
    cbn [rbind].
    rewrite writeUInt32BE_frontier;
      [|assumption
       |rewrite !len_app, len_path_header, !len_uint32be; lia|cbn; lia].
    cbn [Nat.sub zeros repeat]. rewrite app_nil_r.
    subst frame. now rewrite <- !app_assoc. }
  split.
  - unfold starkSignTransfer, then1, then2, lift, send. rewrite Hbuffer.
    destruct (transport_send sent _); reflexivity.
  - subst frame. rewrite !len_app, len_path_header, !len_uint32be. lia.
Qed.

Lemma starkSignTransfer_frame_witness :
  fst (starkSignTransfer (answering []) sample_splitPath "44'/52752'/0'/0/0"
         None 1000%N
         "0x0303030303030303030303030303030303030303030303030303030303030303"
         3 4 258%N 7 8 [])
  = [mk_apdu 0xf0 0x04 0x02 0x00
       (path_header sample_paths ++ zeros 20 ++ zeros 30 ++ hexBuffer "03e8"
        ++ repeat x03 32 ++ hexBuffer "00000003" ++ hexBuffer "00000004"
        ++ hexBuffer "0000000000000102" ++ hexBuffer "00000007"
        ++ hexBuffer "00000008")].
Proof.
  apply (starkSignTransfer_frame (answering []) sample_splitPath
           "44'/52752'/0'/0/0" sample_paths None 1000%N
           "0x0303030303030303030303030303030303030303030303030303030303030303"
           3 4 258%N 7 8 [] eq_refl).
  - repeat constructor; lia.
  - repeat constructor; lia.
  - discriminate.
  - reflexivity.
  - reflexivity.
  - reflexivity.
Defined.

(** X7. With token addresses that are absent or 20 bytes long and
    magnitudes within their widths, the frame of [starkSignOrder] is the
    path header followed by the fields in the order of the source: source
    token address and quantization, destination token address and
    quantization, the two vaults, the two amounts, nonce and timestamp,
    136 bytes after the header. *)
Theorem starkSignOrder_frame :
  forall transport_send splitPath path paths sourceTokenAddress
         sourceQuantization destinationTokenAddress destinationQuantization
         sourceVault destinationVault amountSell amountBuy nonce timestamp sent,
    splitPath path = Ok paths ->
    Forall (fun element => 0 <= element <= 4294967295) paths ->
    Forall (fun number => 0 <= number <= 4294967295)
      [sourceVault; destinationVault; nonce; timestamp] ->
    (forall b, maybeHexBuffer sourceTokenAddress = Some b -> len b = 20) ->
    (forall b, maybeHexBuffer destinationTokenAddress = Some b -> len b = 20) ->
    (sourceQuantization < 256 ^ 32)%N ->
    (destinationQuantization < 256 ^ 32)%N ->
    (amountSell < 256 ^ 8)%N ->
    (amountBuy < 256 ^ 8)%N ->
    let frame :=
      path_header paths
      ++ address_field (maybeHexBuffer sourceTokenAddress)
      ++ magnitude_bytes sourceQuantization 32
      ++ address_field (maybeHexBuffer destinationTokenAddress)
      ++ magnitude_bytes destinationQuantization 32
      ++ uint32be sourceVault ++ uint32be destinationVault
      ++ magnitude_bytes amountSell 8 ++ magnitude_bytes amountBuy 8
      ++ uint32be nonce ++ uint32be timestamp in
    fst (starkSignOrder transport_send splitPath path sourceTokenAddress
           sourceQuantization destinationTokenAddress destinationQuantization
           sourceVault destinationVault amountSell amountBuy nonce timestamp
           sent)
    = sent ++ [mk_apdu 0xf0 0x04 0x01 0x00 frame]
    /\ len frame = 1 + 4 * len paths + 136.
Proof.
  intros transport_send splitPath path paths sourceTokenAddress
    sourceQuantization destinationTokenAddress destinationQuantization
    sourceVault destinationVault amountSell amountBuy nonce timestamp sent
    Hsplit Hpaths Hnumbers Hsource Hdestination Hq1 Hq2 Hsell Hbuy frame.
  inversion_clear Hnumbers as [|? ? HsourceVault Hnumbers'].
  inversion_clear Hnumbers' as [|? ? HdestinationVault Hnumbers].
  inversion_clear Hnumbers as [|? ? Hnonce Hnumbers'].
  inversion_clear Hnumbers' as [|? ? Htimestamp _].
  assert (Hf1 := len_address_field _ Hsource).
  assert (Hf2 := len_address_field _ Hdestination).
  assert (Hm1 := len_magnitude_bytes sourceQuantization 32 ltac:(lia) Hq1).
  assert (Hm2 := len_magnitude_bytes destinationQuantization 32 ltac:(lia) Hq2).
  assert (Hm3 := len_magnitude_bytes amountSell 8 ltac:(lia) Hsell).
  assert (Hm4 := len_magnitude_bytes amountBuy 8 ltac:(lia) Hbuy).
  assert (Hp := len_nonneg paths).
  assert (Hbuffer :
            starkSignOrder_buffer splitPath path sourceTokenAddress
              sourceQuantization destinationTokenAddress
              destinationQuantization sourceVault destinationVault amountSell
              amountBuy nonce timestamp = Ok frame).
  { unfold starkSignOrder_buffer. rewrite Hsplit. cbn [rbind]. cbv zeta.
    rewrite (Buffer_alloc_frame paths _ 136) by lia. cbn [rbind].
    rewrite write_path_header_frontier by assumption. cbn [rbind].
    rewrite copy_if_present_frontier;
      [|rewrite len_path_header; lia|lia|assumption].
    cbn [rbind].
    rewrite (copy_to_field_width _ _ _ 32);
      [|rewrite !len_app, len_path_header; lia|assumption|cbn; lia].
    cbn [rbind].
    rewrite copy_if_present_frontier;
      [|rewrite !len_app, len_path_header; lia|cbn; lia|assumption].
    cbn [rbind].
    rewrite (copy_to_field_width _ _ _ 32);
      [|rewrite !len_app, len_path_header; lia|assumption|cbn; lia].
    cbn [rbind].
    rewrite writeUInt32BE_frontier;
      [|assumption|rewrite !len_app, len_path_header; lia|cbn; lia].
    cbn [rbind].
    rewrite writeUInt32BE_frontier;
      [|assumption
       |rewrite !len_app, len_path_header, !len_uint32be; lia|cbn; lia].
    cbn [rbind].
    rewrite (copy_to_field_width _ _ _ 8);
      [|rewrite !len_app, len_path_header, !len_uint32be; lia|assumption
       |cbn; lia].
    cbn [rbind].
    rewrite (copy_to_field_width _ _ _ 8);
      [|rewrite !len_app, len_path_header, !len_uint32be; lia|assumption
       |cbn; lia].
    cbn [rbind].
    rewrite writeUInt32BE_frontier;
      [|assumption
       |rewrite !len_app, len_path_header, !len_uint32be; lia|cbn; lia].
    cbn [rbind].
    rewrite writeUInt32BE_frontier;
      [|assumption
       |rewrite !len_app, len_path_header, !len_uint32be; lia|cbn; lia].
    cbn [Nat.sub zeros repeat]. rewrite app_nil_r.
    subst frame. now rewrite <- !app_assoc. }
  split.
  - unfold starkSignOrder, then1, then2, lift, send. rewrite Hbuffer.
    destruct (transport_send sent _); reflexivity.
  - subst frame. rewrite !len_app, len_path_header, !len_uint32be. lia.
Qed.

Lemma starkSignOrder_frame_witness :
  fst (starkSignOrder (answering []) sample_splitPath "44'/52752'/0'/0/0"
         None 1000%N
         (Some "0x0102030405060708090a0b0c0d0e0f1011121314"%string) 1%N
         3 4 513%N 258%N 7 8 [])
  = [mk_apdu 0xf0 0x04 0x01 0x00
       (path_header sample_paths ++ zeros 20 ++ zeros 30 ++ hexBuffer "03e8"
        ++ hexBuffer "0102030405060708090a0b0c0d0e0f1011121314"
        ++ zeros 31 ++ hexBuffer "01"
        ++ hexBuffer "00000003" ++ hexBuffer "00000004"
        ++ hexBuffer "0000000000000201" ++ hexBuffer "0000000000000102"
        ++ hexBuffer "00000007" ++ hexBuffer "00000008")].
Proof.
  apply (starkSignOrder_frame (answering []) sample_splitPath
           "44'/52752'/0'/0/0" sample_paths None 1000%N
           (Some "0x0102030405060708090a0b0c0d0e0f1011121314"%string) 1%N
           3 4 513%N 258%N 7 8 [] eq_refl).
  - repeat constructor; lia.
  - repeat constructor; lia.
  - discriminate.
  - intros b [= <-]. reflexivity.
  - reflexivity.
  - reflexivity.
  - reflexivity.
  - reflexivity.
Defined.

Lemma set_index_frontier (pre : Buffer) (n : nat) (offset v : Z) :
  len pre = offset -> (1 <= n)%nat ->
  set_index (pre ++ zeros n) offset v = (pre ++ [byte_of_Z v]) ++ zeros (n - 1).
Proof.
  intros <- Hn. assert (Hp := len_nonneg pre).
  unfold set_index. rewrite len_app, len_zeros.
  destruct (Z.leb_spec 0 (len pre)); [|lia].
  destruct (Z.ltb_spec (len pre) (len pre + Z.of_nat n)); [|lia].
  cbn [andb]. rewrite firstn_len_app.
  replace (S (Z.to_nat (len pre))) with (Z.to_nat (len pre) + 1)%nat by lia.
  rewrite skipn_len_app, skipn_zeros. now rewrite <- app_assoc.
Qed.

Lemma len_magnitude_or_zeros (value : option BigNumber) :
  (forall n, value = Some n -> (n < 256 ^ 32)%N) ->
  len (magnitude_or_zeros value) = 32.
Proof.
  intros H. destruct value as [n|]; cbn [magnitude_or_zeros]; [|reflexivity].
  now rewrite len_magnitude_bytes by (lia || auto).
Qed.

Lemma copy_magnitude_if_present_frontier (value : option BigNumber) (pre : Buffer)
    (n : nat) (offset : Z) :
  len pre = offset -> (32 <= n)%nat ->
  (forall m, value = Some m -> (m < 256 ^ 32)%N) ->
  copy_magnitude_if_present value 32 (pre ++ zeros n) offset
  = Ok ((pre ++ magnitude_or_zeros value) ++ zeros (n - 32)).
Proof.
  intros Hoff Hn Hwithin.
  destruct value as [m|]; cbn [copy_magnitude_if_present magnitude_or_zeros].
  - apply copy_to_field_width; auto.
    now rewrite len_magnitude_bytes by (lia || auto).
  - replace n with (32 + (n - 32))%nat at 1 by lia.
    now rewrite zeros_app, app_assoc.
Qed.

(** X8. With addresses that are absent or 20 bytes long and magnitudes
    within their widths, the frame of [starkSignOrder_v2] is the path
    header followed, for the source and then for the destination, by the
    quantization tag, the token address, the quantization and the mintable
    blob or token id, and then by the two vaults, the two amounts, nonce
    and timestamp.  A field whose argument is absent is 32 (or 20) zero
    bytes, so that the frame has 202 bytes after the header whichever
    arguments are absent. *)
Theorem starkSignOrder_v2_frame :
  forall transport_send splitPath path paths sourceTokenAddress
         sourceQuantizationType sourceQuantization sourceMintableBlobOrTokenId
         destinationTokenAddress destinationQuantizationType
         destinationQuantization destinationMintableBlobOrTokenId sourceVault
         destinationVault amountSell amountBuy nonce timestamp sent,
    splitPath path = Ok paths ->
    Forall (fun element => 0 <= element <= 4294967295) paths ->
    Forall (fun number => 0 <= number <= 4294967295)
      [sourceVault; destinationVault; nonce; timestamp] ->
    (forall b, maybeHexBuffer sourceTokenAddress = Some b -> len b = 20) ->
    (forall b, maybeHexBuffer destinationTokenAddress = Some b -> len b = 20) ->
    Forall (fun value => forall n, value = Some n -> (n < 256 ^ 32)%N)
      [sourceQuantization; sourceMintableBlobOrTokenId;
       destinationQuantization; destinationMintableBlobOrTokenId] ->
    (amountSell < 256 ^ 8)%N ->
    (amountBuy < 256 ^ 8)%N ->
    let frame :=
      path_header paths
      ++ [byte_of_Z (starkQuantizationTypeMap sourceQuantizationType)]
      ++ address_field (maybeHexBuffer sourceTokenAddress)
      ++ magnitude_or_zeros sourceQuantization
      ++ magnitude_or_zeros sourceMintableBlobOrTokenId
      ++ [byte_of_Z (starkQuantizationTypeMap destinationQuantizationType)]
      ++ address_field (maybeHexBuffer destinationTokenAddress)
      ++ magnitude_or_zeros destinationQuantization
      ++ magnitude_or_zeros destinationMintableBlobOrTokenId
      ++ uint32be sourceVault ++ uint32be destinationVault
      ++ magnitude_bytes amountSell 8 ++ magnitude_bytes amountBuy 8
      ++ uint32be nonce ++ uint32be timestamp in
    fst (starkSignOrder_v2 transport_send splitPath path sourceTokenAddress
           sourceQuantizationType sourceQuantization
           sourceMintableBlobOrTokenId destinationTokenAddress
           destinationQuantizationType destinationQuantization
           destinationMintableBlobOrTokenId sourceVault destinationVault
           amountSell amountBuy nonce timestamp sent)
    = sent ++ [mk_apdu 0xf0 0x04 0x03 0x00 frame]
    /\ len frame = 1 + 4 * len paths + 202.
Proof.
  intros transport_send splitPath path paths sourceTokenAddress
    sourceQuantizationType sourceQuantization sourceMintableBlobOrTokenId
    destinationTokenAddress destinationQuantizationType destinationQuantization
    destinationMintableBlobOrTokenId sourceVault destinationVault amountSell
    amountBuy nonce timestamp sent Hsplit Hpaths Hnumbers Hsource Hdestination
    Hoptional Hsell Hbuy frame.
  inversion_clear Hnumbers as [|? ? HsourceVault Hnumbers'].
  inversion_clear Hnumbers' as [|? ? HdestinationVault Hnumbers].
  inversion_clear Hnumbers as [|? ? Hnonce Hnumbers'].
  inversion_clear Hnumbers' as [|? ? Htimestamp _].
  inversion_clear Hoptional as [|? ? Hq1 Hoptional'].
  inversion_clear Hoptional' as [|? ? Hb1 Hoptional].
  inversion_clear Hoptional as [|? ? Hq2 Hoptional'].
  inversion_clear Hoptional' as [|? ? Hb2 _].
  assert (Hf1 := len_address_field _ Hsource).
  assert (Hf2 := len_address_field _ Hdestination).
  assert (Hm1 := len_magnitude_or_zeros _ Hq1).
  assert (Hm2 := len_magnitude_or_zeros _ Hb1).
  assert (Hm3 := len_magnitude_or_zeros _ Hq2).
  assert (Hm4 := len_magnitude_or_zeros _ Hb2).
  assert (Hm5 := len_magnitude_bytes amountSell 8 ltac:(lia) Hsell).
  assert (Hm6 := len_magnitude_bytes amountBuy 8 ltac:(lia) Hbuy).
  assert (Hp := len_nonneg paths).
  assert (Hbuffer :
            starkSignOrder_v2_buffer splitPath path sourceTokenAddress
              sourceQuantizationType sourceQuantization
              sourceMintableBlobOrTokenId destinationTokenAddress
              destinationQuantizationType destinationQuantization
              destinationMintableBlobOrTokenId sourceVault destinationVault
              amountSell amountBuy nonce timestamp = Ok frame).
  { unfold starkSignOrder_v2_buffer.
    destruct sourceQuantizationType, destinationQuantizationType;
      cbn [check_quantization_type rbind]; rewrite Hsplit; cbn [rbind]; cbv zeta;
      rewrite (Buffer_alloc_frame paths _ 202) by lia; cbn [rbind];
      rewrite write_path_header_frontier by assumption; cbn [rbind];
      (rewrite set_index_frontier; [|rewrite len_path_header; lia|lia]);
      (rewrite copy_if_present_frontier;
       [|rewrite !len_app, len_path_header, !len_cons, len_nil; lia|cbn; lia
        |assumption]);
      cbn [rbind];
      (rewrite copy_magnitude_if_present_frontier;
       [|rewrite !len_app, len_path_header, !len_cons, len_nil; lia|cbn; lia
        |assumption]);
      cbn [rbind];
      (rewrite copy_magnitude_if_present_frontier;
       [|rewrite !len_app, len_path_header, !len_cons, len_nil; lia|cbn; lia
        |assumption]);
      cbn [rbind];
      (rewrite set_index_frontier;
       [|rewrite !len_app, len_path_header, !len_cons, len_nil; lia|cbn; lia]);
      (rewrite copy_if_present_frontier;
       [|rewrite !len_app, len_path_header, !len_cons, len_nil; lia|cbn; lia
        |assumption]);
      cbn [rbind];
      (rewrite copy_magnitude_if_present_frontier;
       [|rewrite !len_app, len_path_header, !len_cons, len_nil; lia|cbn; lia
        |assumption]);
      cbn [rbind];
      (rewrite copy_magnitude_if_present_frontier;
       [|rewrite !len_app, len_path_header, !len_cons, len_nil; lia|cbn; lia
        |assumption]);
      cbn [rbind];
      (rewrite writeUInt32BE_frontier;
       [|assumption
        |rewrite !len_app, len_path_header, !len_cons, len_nil; lia|cbn; lia]);
      cbn [rbind];
      (rewrite writeUInt32BE_frontier;
       [|assumption
        |rewrite !len_app, len_path_header, !len_uint32be, !len_cons, len_nil;
         lia
        |cbn; lia]);
      cbn [rbind];
      (rewrite (copy_to_field_width _ _ _ 8);
       [|rewrite !len_app, len_path_header, !len_uint32be, !len_cons, len_nil;
         lia
        |assumption|cbn; lia]);
      cbn [rbind];
      (rewrite (copy_to_field_width _ _ _ 8);
       [|rewrite !len_app, len_path_header, !len_uint32be, !len_cons, len_nil;
         lia
        |assumption|cbn; lia]);
      cbn [rbind];
      (rewrite writeUInt32BE_frontier;
       [|assumption
        |rewrite !len_app, len_path_header, !len_uint32be, !len_cons, len_nil;
         lia
        |cbn; lia]);
      cbn [rbind];
      (rewrite writeUInt32BE_frontier;
       [|assumption
        |rewrite !len_app, len_path_header, !len_uint32be, !len_cons, len_nil;
         lia
        |cbn; lia]);
      cbn [Nat.sub zeros repeat]; rewrite app_nil_r;
      subst frame; now rewrite <- !app_assoc. }
  split.
  - unfold starkSignOrder_v2, then1, then2, lift, send. rewrite Hbuffer.
    destruct (transport_send sent _); reflexivity.
  - subst frame.
    rewrite !len_app, len_path_header, !len_uint32be, !len_cons, len_nil. lia.
Qed.

Lemma starkSignOrder_v2_frame_witness :
  fst (starkSignOrder_v2 (answering []) sample_splitPath "44'/52752'/0'/0/0"
         None eth None None
         (Some "0x0102030405060708090a0b0c0d0e0f1011121314"%string) erc721
         (Some 1%N) (Some 1000%N) 3 4 513%N 258%N 7 8 [])
  = [mk_apdu 0xf0 0x04 0x03 0x00
       (path_header sample_paths
        ++ hexBuffer "01" ++ zeros 20 ++ zeros 32 ++ zeros 32
        ++ hexBuffer "03"
        ++ hexBuffer "0102030405060708090a0b0c0d0e0f1011121314"
        ++ zeros 31 ++ hexBuffer "01" ++ zeros 30 ++ hexBuffer "03e8"
        ++ hexBuffer "00000003" ++ hexBuffer "00000004"
        ++ hexBuffer "0000000000000201" ++ hexBuffer "0000000000000102"
        ++ hexBuffer "00000007" ++ hexBuffer "00000008")]
  /\ len (path_header sample_paths
          ++ hexBuffer "01" ++ zeros 20 ++ zeros 32 ++ zeros 32
          ++ hexBuffer "03"
          ++ hexBuffer "0102030405060708090a0b0c0d0e0f1011121314"
          ++ zeros 31 ++ hexBuffer "01" ++ zeros 30 ++ hexBuffer "03e8"
          ++ hexBuffer "00000003" ++ hexBuffer "00000004"
          ++ hexBuffer "0000000000000201" ++ hexBuffer "0000000000000102"
          ++ hexBuffer "00000007" ++ hexBuffer "00000008")
     = 1 + 4 * len sample_paths + 202.
Proof.
  apply (starkSignOrder_v2_frame (answering []) sample_splitPath
           "44'/52752'/0'/0/0" sample_paths None eth None None
           (Some "0x0102030405060708090a0b0c0d0e0f1011121314"%string) erc721
           (Some 1%N) (Some 1000%N) 3 4 513%N 258%N 7 8 [] eq_refl).
  - repeat constructor; lia.
  - repeat constructor; lia.
  - discriminate.
  - intros b [= <-]. reflexivity.
  - repeat constructor; intros n [= <-]; reflexivity.
  - reflexivity.
  - reflexivity.
Defined.

(** X9. With a contract address that is absent, empty or 20 bytes long
    and a quantization below 2^256, [starkProvideQuantum] sends one frame
    of 52 bytes with instruction 0x08: the token address (20 zero bytes for
    ETH, when the contract is absent or empty) followed by the
    quantization, big-endian in 32 bytes. *)
Theorem starkProvideQuantum_frame :
  forall transport_send operationContract operationQuantization sent,
    (forall b, maybeHexBuffer operationContract = Some b -> len b = 20) ->
    (operationQuantization < 256 ^ 32)%N ->
    let frame :=
      address_field (maybeHexBuffer operationContract)
      ++ magnitude_bytes operationQuantization 32 in
    fst (starkProvideQuantum transport_send operationContract
           operationQuantization sent)
    = sent ++ [mk_apdu 0xf0 0x08 0x00 0x00 frame]
    /\ len frame = 52.
Proof.
  intros transport_send operationContract operationQuantization sent
    Hcontract Hwithin frame.
  assert (Hf := len_address_field _ Hcontract).
  assert (Hm := len_magnitude_bytes operationQuantization 32 ltac:(lia) Hwithin).
  assert (Hbuffer :
            starkProvideQuantum_buffer operationContract operationQuantization
            = Ok frame).
  { unfold starkProvideQuantum_buffer. cbv zeta.
    change (Buffer_alloc (20 + 32)) with (Ok ([] ++ zeros 52)). cbn [rbind].
    rewrite copy_if_present_frontier; [|reflexivity|lia|assumption].
    cbn [rbind].
    rewrite (copy_to_field_width _ _ _ 32);
      [|rewrite len_app; cbn [app]; rewrite Hf; reflexivity|assumption|cbn; lia].
    cbn [Nat.sub zeros repeat app]. now rewrite app_nil_r. }
  split.
  - unfold starkProvideQuantum, then1, then2, lift, send. rewrite Hbuffer.
    destruct (transport_send sent _) as [response|e]; [reflexivity|].
    unfold unsupported_is_false, resolve, reject.
    destruct (statusCode_is e 27904); reflexivity.
  - subst frame. rewrite len_app. lia.
Qed.

Lemma starkProvideQuantum_frame_witness :
  fst (starkProvideQuantum (answering [])
         (Some "0x0102030405060708090a0b0c0d0e0f1011121314"%string) 1000%N [])
  = [mk_apdu 0xf0 0x08 0x00 0x00
       (hexBuffer "0102030405060708090a0b0c0d0e0f1011121314"
        ++ zeros 30 ++ hexBuffer "03e8")]
  /\ len (hexBuffer "0102030405060708090a0b0c0d0e0f1011121314"
          ++ zeros 30 ++ hexBuffer "03e8") = 52.
Proof.
  apply (starkProvideQuantum_frame (answering [])
           (Some "0x0102030405060708090a0b0c0d0e0f1011121314"%string) 1000%N []).
  - intros b [= <-]. reflexivity.
  - reflexivity.
Defined.

(** X10. With a contract address that is absent, empty or 20 bytes long
    and with the quantization and the mintable blob or token id, where
    given, below 2^256, [starkProvideQuantum_v2] sends one frame of 84
    bytes with instruction 0x08 and the quantization tag as first
    parameter: the token address, the quantization and the mintable blob or
    token id, each left as zero bytes when its argument is absent. *)
Theorem starkProvideQuantum_v2_frame :
  forall transport_send operationContract operationQuantizationType
         operationQuantization operationMintableBlobOrTokenId sent,
    (forall b, maybeHexBuffer operationContract = Some b -> len b = 20) ->
    (forall n, operationQuantization = Some n -> (n < 256 ^ 32)%N) ->
    (forall n, operationMintableBlobOrTokenId = Some n -> (n < 256 ^ 32)%N) ->
    let frame :=
      address_field (maybeHexBuffer operationContract)
      ++ magnitude_or_zeros operationQuantization
      ++ magnitude_or_zeros operationMintableBlobOrTokenId in
    fst (starkProvideQuantum_v2 transport_send operationContract
           operationQuantizationType operationQuantization
           operationMintableBlobOrTokenId sent)
    = sent ++ [mk_apdu 0xf0 0x08
                 (starkQuantizationTypeMap operationQuantizationType) 0x00
                 frame]
    /\ len frame = 84
    /\ 1 <= starkQuantizationTypeMap operationQuantizationType <= 5.
Proof.
  intros transport_send operationContract operationQuantizationType
    operationQuantization operationMintableBlobOrTokenId sent
    Hcontract Hquantization Hblob frame.
  assert (Hf := len_address_field _ Hcontract).
  assert (Hm1 := len_magnitude_or_zeros _ Hquantization).
  assert (Hm2 := len_magnitude_or_zeros _ Hblob).
  assert (Hbuffer :
            starkProvideQuantum_v2_buffer operationContract
              operationQuantizationType operationQuantization
              operationMintableBlobOrTokenId = Ok frame).
  { unfold starkProvideQuantum_v2_buffer. cbv zeta.
    destruct operationQuantizationType; cbn [check_quantization_type rbind];
      change (Buffer_alloc (20 + 32 + 32)) with (Ok ([] ++ zeros 84));
      cbn [rbind];
      (rewrite copy_if_present_frontier; [|reflexivity|lia|assumption]);
      cbn [rbind];
      (rewrite copy_magnitude_if_present_frontier;
       [|rewrite len_app; cbn [app]; rewrite Hf; reflexivity|cbn; lia
        |assumption]);
      cbn [rbind];
      (rewrite copy_magnitude_if_present_frontier;
       [|rewrite !len_app; cbn [app]; rewrite Hf, Hm1; reflexivity|cbn; lia
        |assumption]);
      cbn [Nat.sub zeros repeat app]; rewrite app_nil_r;
      subst frame; now rewrite <- !app_assoc. }
  split; [|split].
  - unfold starkProvideQuantum_v2, then1, then2, lift, send. rewrite Hbuffer.
    destruct (transport_send sent _) as [response|e]; [reflexivity|].
    unfold unsupported_is_false, resolve, reject.
    destruct (statusCode_is e 27904); reflexivity.
  - subst frame. rewrite !len_app. lia.
  - destruct operationQuantizationType; cbn; lia.
Qed.

Lemma starkProvideQuantum_v2_frame_witness :
  fst (starkProvideQuantum_v2 (answering []) None erc721mintable
         (Some 1000%N) None [])
  = [mk_apdu 0xf0 0x08 5 0x00
       (zeros 20 ++ (zeros 30 ++ hexBuffer "03e8") ++ zeros 32)]
  /\ len (zeros 20 ++ (zeros 30 ++ hexBuffer "03e8") ++ zeros 32) = 84
  /\ 1 <= 5 <= 5.
Proof.
  apply (starkProvideQuantum_v2_frame (answering []) None erc721mintable
           (Some 1000%N) None []).
  - discriminate.
  - intros n [= <-]. reflexivity.
  - discriminate.
Defined.

Ltac frontier_side :=
  rewrite ?len_app, ?len_path_header, ?len_uint32be, ?len_cons, ?len_nil; lia.

Ltac frontier_step :=
  cbn [rbind];
  first
    [ rewrite write_path_header_frontier by assumption
    | rewrite set_index_frontier; [|frontier_side|cbn; lia]
    | rewrite copy_if_present_frontier; [|frontier_side|cbn; lia|assumption]
    | rewrite copy_magnitude_if_present_frontier;
      [|frontier_side|cbn; lia|assumption]
    | rewrite writeUInt32BE_frontier; [|assumption|frontier_side|cbn; lia]
    | rewrite (copy_to_field_width _ _ _ 32);
      [|frontier_side|assumption|cbn; lia]
    | rewrite (copy_to_field_width _ _ _ 20);
      [|frontier_side|assumption|cbn; lia]
    | rewrite (copy_to_field_width _ _ _ 8);
      [|frontier_side|assumption|cbn; lia] ].

(** X11. With well-sized arguments the frame of [starkSignTransfer_v2] is
    the path header, the quantization tag, the token address, the
    quantization, the mintable blob or token id, the target key, the two
    vaults, the amount, nonce and timestamp, and then the conditional tail.
    A conditional address given without a fact still reserves the tail and
    selects [param1 = 0x05]: the 52 bytes after the timestamp are then all
    zero, and the address itself is not sent. *)
Theorem starkSignTransfer_v2_frame :
  forall transport_send splitPath path paths transferTokenAddress
         transferQuantizationType transferQuantization
         transferMintableBlobOrTokenId targetPublicKey sourceVault
         destinationVault amountTransfer nonce timestamp
         conditionalTransferAddress conditionalTransferFact sent,
    splitPath path = Ok paths ->
    Forall (fun element => 0 <= element <= 4294967295) paths ->
    Forall (fun number => 0 <= number <= 4294967295)
      [sourceVault; destinationVault; nonce; timestamp] ->
    (forall b, maybeHexBuffer transferTokenAddress = Some b -> len b = 20) ->
    (forall n, transferQuantization = Some n -> (n < 256 ^ 32)%N) ->
    (forall n, transferMintableBlobOrTokenId = Some n -> (n < 256 ^ 32)%N) ->
    len (hexBuffer targetPublicKey) = 32 ->
    (amountTransfer < 256 ^ 8)%N ->
    (forall addressHex fact,
        maybeHexBuffer conditionalTransferAddress = Some addressHex ->
        conditionalTransferFact = Some fact ->
        len addressHex = 20 /\ (fact < 256 ^ 32)%N) ->
    let frame :=
      path_header paths
      ++ [byte_of_Z (starkQuantizationTypeMap transferQuantizationType)]
      ++ address_field (maybeHexBuffer transferTokenAddress)
      ++ magnitude_or_zeros transferQuantization
      ++ magnitude_or_zeros transferMintableBlobOrTokenId
      ++ hexBuffer targetPublicKey
      ++ uint32be sourceVault ++ uint32be destinationVault
      ++ magnitude_bytes amountTransfer 8
      ++ uint32be nonce ++ uint32be timestamp
      ++ conditional_tail (maybeHexBuffer conditionalTransferAddress)
           conditionalTransferFact in
    fst (starkSignTransfer_v2 transport_send splitPath path
           transferTokenAddress transferQuantizationType transferQuantization
           transferMintableBlobOrTokenId targetPublicKey sourceVault
           destinationVault amountTransfer nonce timestamp
           conditionalTransferAddress conditionalTransferFact sent)
    = sent ++ [mk_apdu 0xf0 0x04
                 (if is_present (maybeHexBuffer conditionalTransferAddress)
                  then 0x05 else 0x04) 0x00 frame]
    /\ (forall addressHex,
           maybeHexBuffer conditionalTransferAddress = Some addressHex ->
           conditionalTransferFact = None ->
           skipn (Z.to_nat (1 + 4 * len paths + 141)) frame = zeros 52).
Proof.
  intros transport_send splitPath path paths transferTokenAddress
    transferQuantizationType transferQuantization transferMintableBlobOrTokenId
    targetPublicKey sourceVault destinationVault amountTransfer nonce timestamp
    conditionalTransferAddress conditionalTransferFact sent Hsplit Hpaths
    Hnumbers Haddress Hquantization Hblob Hkey Hamount Hconditional frame.
  inversion_clear Hnumbers as [|? ? HsourceVault Hnumbers'].
  inversion_clear Hnumbers' as [|? ? HdestinationVault Hnumbers].
  inversion_clear Hnumbers as [|? ? Hnonce Hnumbers'].
  inversion_clear Hnumbers' as [|? ? Htimestamp _].
  assert (Hf := len_address_field _ Haddress).
  assert (Hm1 := len_magnitude_or_zeros _ Hquantization).
  assert (Hm2 := len_magnitude_or_zeros _ Hblob).
  assert (Hm3 := len_magnitude_bytes amountTransfer 8 ltac:(lia) Hamount).
  assert (Hp := len_nonneg paths).
  assert (Hbuffer :
            starkSignTransfer_v2_buffer splitPath path transferTokenAddress
              transferQuantizationType transferQuantization
              transferMintableBlobOrTokenId targetPublicKey sourceVault
              destinationVault amountTransfer nonce timestamp
              conditionalTransferAddress conditionalTransferFact = Ok frame).
  { unfold starkSignTransfer_v2_buffer. subst frame.
    destruct (maybeHexBuffer conditionalTransferAddress) as [addressHex|];
      [destruct conditionalTransferFact as [fact|];
       [destruct (Hconditional _ _ eq_refl eq_refl) as [Hca Hcf];
        assert (Hm4 := len_magnitude_bytes fact 32 ltac:(lia) Hcf)|]|];
      cbn [is_present conditional_tail];
      (destruct transferQuantizationType;
       cbn [check_quantization_type rbind]; rewrite Hsplit; cbn [rbind];
       cbv zeta;
       [> rewrite (Buffer_alloc_frame paths _ 193) by lia ..
        | rewrite (Buffer_alloc_frame paths _ 141) by lia
        | rewrite (Buffer_alloc_frame paths _ 141) by lia
        | rewrite (Buffer_alloc_frame paths _ 141) by lia
        | rewrite (Buffer_alloc_frame paths _ 141) by lia
        | rewrite (Buffer_alloc_frame paths _ 141) by lia ];
       do 11 frontier_step; cbn [rbind]).
    1-5: do 2 frontier_step.
    all: cbn [Nat.sub zeros repeat]; rewrite ?app_nil_r;
      now rewrite <- ?app_assoc. }
  split.
  - unfold starkSignTransfer_v2, starkSignTransfer_v2_p1, then1, then2, lift,
      send.
    rewrite Hbuffer. destruct (transport_send sent _); reflexivity.
  - intros addressHex Hsome Hnone. subst frame. rewrite Hsome, Hnone.
    cbn [conditional_tail].
    rewrite !app_assoc.
    match goal with
    | |- skipn ?n (?pre ++ _) = _ =>
        replace n with (Z.to_nat (len pre) + 0)%nat;
        [now rewrite skipn_len_app|]
    end.
    rewrite !len_app, len_path_header, !len_uint32be, !len_cons, len_nil. lia.
Qed.

Lemma starkSignTransfer_v2_frame_witness :
  fst (starkSignTransfer_v2 (answering []) sample_splitPath
         "44'/52752'/0'/0/0" None eth None None
         "0x000102030405060708090a0b0c0d0e0f101112131415161718191a1b1c1d1e1f"
         3 4 513%N 7 8
         (Some "0x0102030405060708090a0b0c0d0e0f1011121314"%string) None [])
  = [mk_apdu 0xf0 0x04 0x05 0x00
       (path_header sample_paths
        ++ hexBuffer "01" ++ zeros 20 ++ zeros 32 ++ zeros 32
        ++ hexBuffer
             "000102030405060708090a0b0c0d0e0f101112131415161718191a1b1c1d1e1f"
        ++ hexBuffer "00000003" ++ hexBuffer "00000004"
        ++ hexBuffer "0000000000000201"
        ++ hexBuffer "00000007" ++ hexBuffer "00000008"
        ++ zeros 52)]
  /\ skipn (Z.to_nat (1 + 4 * len sample_paths + 141))
       (path_header sample_paths
        ++ hexBuffer "01" ++ zeros 20 ++ zeros 32 ++ zeros 32
        ++ hexBuffer
             "000102030405060708090a0b0c0d0e0f101112131415161718191a1b1c1d1e1f"
        ++ hexBuffer "00000003" ++ hexBuffer "00000004"
        ++ hexBuffer "0000000000000201"
        ++ hexBuffer "00000007" ++ hexBuffer "00000008"
        ++ zeros 52)
     = zeros 52.
Proof.
  destruct (starkSignTransfer_v2_frame (answering []) sample_splitPath
              "44'/52752'/0'/0/0" sample_paths None eth None None
              "0x000102030405060708090a0b0c0d0e0f101112131415161718191a1b1c1d1e1f"
              3 4 513%N 7 8
              (Some "0x0102030405060708090a0b0c0d0e0f1011121314"%string) None
              [] eq_refl) as [Hframe Htail].
  - repeat constructor; lia.
  - repeat constructor; lia.
  - discriminate.
  - discriminate.
  - discriminate.
  - reflexivity.
  - reflexivity.
  - discriminate.
  - split; [exact Hframe | exact (Htail _ eq_refl eq_refl)].
Defined.

Lemma skipn_prefix {A} (pre l : list A) (offset : Z) :
  len pre = offset -> skipn (Z.to_nat offset) (pre ++ l) = l.
Proof.
  intros <-. replace (Z.to_nat (len pre)) with (Z.to_nat (len pre) + 0)%nat by lia.
  apply skipn_len_app.
Qed.

Lemma firstn_prefix {A} (pre l : list A) (width : Z) :
  len pre = width -> firstn (Z.to_nat width) (pre ++ l) = pre.
Proof. intros <-. apply firstn_len_app. Qed.

(** The part of a buffer between two parts of known lengths. *)
Lemma slice_part {A} (pre part post : list A) (a b : Z) :
  len pre = a -> a + len part = b ->
  slice (pre ++ part ++ post) (Some a) (Some b) = part.
Proof.
  intros Ha Hb. assert (Hp := len_nonneg pre). assert (Hq := len_nonneg part).
  rewrite slice_clamped by lia.
  rewrite skipn_prefix by assumption.
  apply firstn_prefix. lia.
Qed.

Lemma index_num_part (pre post : Buffer) (value i : Z) :
  len pre = i -> 0 <= value < 256 ->
  index_num (pre ++ byte_of_Z value :: post) (Some i) = Some value.
Proof.
  intros <- Hvalue. assert (Hp := len_nonneg pre).
  unfold index_num, index. destruct (Z.ltb_spec (len pre) 0); [lia|].
  unfold len. rewrite Nat2Z.id, nth_error_app2, Nat.sub_diag by lia.
  cbn [nth_error option_map]. now rewrite Z_of_byte_of_Z.
Qed.

(** X12. A response made of a length-prefixed public key, a
    length-prefixed address and a tail is parsed by [getAddress] into the
    hex of the key, ["0x"] followed by the address bytes read as ASCII,
    and, when the chain code was asked for, the hex of the at most 32
    bytes that follow the address.  The status word, or whatever else the
    tail holds, is not looked at. *)
Theorem getAddress_parses_response :
  forall transport_send splitPath path (boolDisplay boolChaincode : bool) sent
         buffer (keyBytes addressBytes tail : Buffer),
    path_buffer splitPath path = Ok buffer ->
    len keyBytes <= 255 ->
    len addressBytes <= 255 ->
    transport_send sent
      (mk_apdu 0xe0 0x02 (if boolDisplay then 0x01 else 0x00)
         (if boolChaincode then 0x01 else 0x00) buffer)
    = Ok (byte_of_Z (len keyBytes) :: keyBytes
          ++ byte_of_Z (len addressBytes) :: addressBytes ++ tail) ->
    snd (getAddress transport_send splitPath path boolDisplay boolChaincode sent)
    = Ok (mk_AddressResult (toString_hex keyBytes)
            (String.append "0x" (toString_ascii addressBytes))
            (if boolChaincode then Some (toString_hex (firstn 32 tail))
             else None)).
Proof.
  intros transport_send splitPath path boolDisplay boolChaincode sent buffer
    keyBytes addressBytes tail Hbuffer Hkey Haddress Hsend.
  assert (Hk := len_nonneg keyBytes). assert (Ha := len_nonneg addressBytes).
  unfold getAddress, then1, then2, lift, send. rewrite Hbuffer, Hsend.
  set (response := byte_of_Z (len keyBytes) :: keyBytes
                   ++ byte_of_Z (len addressBytes) :: addressBytes ++ tail).
  assert (H0 : index_num response (Some 0) = Some (len keyBytes))
    by (apply (index_num_part [] _ (len keyBytes) 0); [reflexivity|lia]).
  rewrite H0. cbn [jsadd].
  assert (H1 : index_num response (Some (1 + len keyBytes))
               = Some (len addressBytes)).
  { subst response.
    change (byte_of_Z (len keyBytes) :: keyBytes
            ++ byte_of_Z (len addressBytes) :: addressBytes ++ tail)
      with ([byte_of_Z (len keyBytes)]
            ++ keyBytes ++ byte_of_Z (len addressBytes) :: addressBytes ++ tail).
    rewrite app_assoc. apply index_num_part; [|lia].
    rewrite len_app, len_cons, len_nil. lia. }
  rewrite H1. cbn [jsadd].
  assert (Hpk : slice response (Some 1) (Some (1 + len keyBytes)) = keyBytes).
  { subst response.
    apply (slice_part [byte_of_Z (len keyBytes)] keyBytes); reflexivity. }
  assert (Had : slice response (Some (1 + len keyBytes + 1))
                  (Some (1 + len keyBytes + 1 + len addressBytes))
                = addressBytes).
  { subst response.
    change (byte_of_Z (len keyBytes) :: keyBytes
            ++ byte_of_Z (len addressBytes) :: addressBytes ++ tail)
      with ((byte_of_Z (len keyBytes) :: keyBytes)
            ++ [byte_of_Z (len addressBytes)] ++ addressBytes ++ tail).
    rewrite app_assoc. apply slice_part; [|reflexivity].
    rewrite len_app, !len_cons, len_nil. lia. }
  assert (Hcc : slice response (Some (1 + len keyBytes + 1 + len addressBytes))
                  (Some (1 + len keyBytes + 1 + len addressBytes + 32))
                = firstn 32 tail).
  { rewrite slice_clamped by lia. subst response.
    change (byte_of_Z (len keyBytes) :: keyBytes
            ++ byte_of_Z (len addressBytes) :: addressBytes ++ tail)
      with ((byte_of_Z (len keyBytes) :: keyBytes)
            ++ (byte_of_Z (len addressBytes) :: addressBytes) ++ tail).
    rewrite app_assoc, skipn_prefix
      by (rewrite len_app, !len_cons; lia).
    f_equal. lia. }
  rewrite Hpk, Had.
  destruct boolChaincode; [rewrite Hcc|]; reflexivity.
Qed.

Lemma getAddress_parses_response_witness :
  snd (getAddress
         (answering
            (hexBuffer
               "02aabb03616263000102030405060708090a0b0c0d0e0f101112131415161718191a1b1c1d1e1f9000"))
         sample_splitPath "44'/52752'/0'/0/0" false true [])
  = Ok (mk_AddressResult "aabb" "0xabc"
          (Some
             "000102030405060708090a0b0c0d0e0f101112131415161718191a1b1c1d1e1f"%string)).
Proof.
  exact (getAddress_parses_response
           (answering
              (hexBuffer
                 "02aabb03616263000102030405060708090a0b0c0d0e0f101112131415161718191a1b1c1d1e1f9000"))
           sample_splitPath "44'/52752'/0'/0/0" false true []
           (path_header sample_paths) (hexBuffer "aabb") (hexBuffer "616263")
           (hexBuffer
              "000102030405060708090a0b0c0d0e0f101112131415161718191a1b1c1d1e1f9000")
           eq_refl ltac:(vm_compute; discriminate) ltac:(vm_compute; discriminate)
           eq_refl).
Defined.



(** X14. A response of fewer than two bytes to [starkGetPublicKey] or
    [eth2GetPublicKey] is not an error: [slice(0, -2)] has nothing to keep,
    and the call resolves with the empty key. *)
Theorem short_public_key_response_is_empty :
  forall transport_send splitPath path (boolDisplay : bool) sent buffer response,
    path_buffer splitPath path = Ok buffer ->
    len response < 2 ->
    (transport_send sent
       (mk_apdu 0xf0 0x02 (if boolDisplay then 0x01 else 0x00) 0x00 buffer)
     = Ok response ->
     snd (starkGetPublicKey transport_send splitPath path boolDisplay sent)
     = Ok [])
    /\ (transport_send sent
          (mk_apdu 0xe0 0x0e (if boolDisplay then 0x01 else 0x00) 0x00 buffer)
        = Ok response ->
        snd (eth2GetPublicKey transport_send splitPath path boolDisplay sent)
        = Ok EmptyString).
Proof.
  intros transport_send splitPath path boolDisplay sent buffer response
    Hbuffer Hlen.
  assert (Hslice : slice response (Some 0) (Some (-2)) = []).
  { assert (Hl := len_nonneg response).
    unfold slice, adjustOffset. cbn [Z.eqb Z.ltb Z.compare].
    destruct (Z.gtb_spec (-2 + len response) 0); [lia|].
    reflexivity. }
  split; intros Hsend.
  - unfold starkGetPublicKey, then1, then2, lift, send, resolve.
    rewrite Hbuffer, Hsend. cbn [fst snd].
    destruct response as [|b0 [|b1 rest]]; try reflexivity.
    cbn in Hlen. lia.
  - unfold eth2GetPublicKey, then1, then2, lift, send, resolve.
    rewrite Hbuffer, Hsend. cbn [fst snd]. now rewrite Hslice.
Qed.

Lemma short_public_key_response_is_empty_witness :
  snd (starkGetPublicKey (answering (hexBuffer "90")) sample_splitPath
         "44'/52752'/0'/0/0" false [])
  = Ok []
  /\ snd (eth2GetPublicKey (answering (hexBuffer "90")) sample_splitPath
            "12381/3600/0/0" false [])
     = Ok EmptyString.
Proof.
  split.
  - exact (proj1 (short_public_key_response_is_empty (answering (hexBuffer "90"))
                    sample_splitPath "44'/52752'/0'/0/0" false []
                    (path_header sample_paths) (hexBuffer "90") eq_refl
                    eq_refl)
             eq_refl).
  - exact (proj2 (short_public_key_response_is_empty (answering (hexBuffer "90"))
                    sample_splitPath "12381/3600/0/0" false []
                    (path_header sample_paths) (hexBuffer "90") eq_refl
                    eq_refl)
             eq_refl).
Defined.

(** ** The frames of the chunked operations *)

Lemma Ok_inj {A} (a b : A) : @Ok A a = Ok b -> a = b.
Proof. congruence. Qed.

Lemma write_path_header_in_range (b b' : Buffer) (paths : list Z) :
  write_path_header b paths = Ok b' ->
  Forall (fun element => 0 <= element <= 4294967295) paths.
Proof.
  unfold write_path_header. apply forEach_writeUInt32BE_in_range.
Qed.

(** The copy of the first [size] bytes of the source to the zeros that
    end the target. *)
Lemma copy_frontier (source pre : Buffer) (size offset : Z) :
  len pre = offset -> 0 <= size <= len source ->
  copy source (pre ++ zeros (Z.to_nat size)) offset 0 (0 + size)
  = Ok (pre ++ firstn (Z.to_nat size) source).
Proof.
  intros <- Hsize. assert (Hp := len_nonneg pre).
  rewrite copy_fits; [|lia|lia|lia|rewrite len_app, len_zeros; lia].
  replace (0 + size - 0) with size by lia. cbn [Z.to_nat skipn].
  rewrite firstn_len_app.
  replace (Z.to_nat (len pre + size))
    with (Z.to_nat (len pre) + Z.to_nat size)%nat by lia.
  rewrite skipn_len_app, skipn_zeros, Nat.sub_diag.
  cbn [zeros repeat]. now rewrite app_nil_r.
Qed.

Lemma signTransaction_buffer_first_layout (paths : list Z) (rawTx b : Buffer)
    (size : Z) :
  0 <= size <= len rawTx ->
  signTransaction_buffer paths rawTx 0 size = Ok b ->
  b = path_header paths ++ firstn (Z.to_nat size) rawTx.
Proof.
  intros Hsize. unfold signTransaction_buffer. cbn [Z.eqb].
  rewrite (Buffer_alloc_frame paths _ (Z.to_nat size)) by lia. cbn [rbind].
  destruct (write_path_header _ paths) as [b1|e] eqn:Hheader; [|discriminate].
  apply write_path_header_in_range in Hheader as Hpaths.
  rewrite write_path_header_frontier in Hheader by assumption.
  apply Ok_inj in Hheader. subst b1. cbn [rbind].
  rewrite copy_frontier; [|rewrite len_path_header; lia|assumption].
  now intros [= <-].
Qed.

Lemma signPersonalMessage_buffer_first_layout (paths : list Z)
    (message b : Buffer) (size : Z) :
  0 <= size <= len message ->
  signPersonalMessage_buffer paths message 0 size = Ok b ->
  b = path_header paths ++ uint32be (len message)
      ++ firstn (Z.to_nat size) message.
Proof.
  intros Hsize. unfold signPersonalMessage_buffer. cbn [Z.eqb].
  rewrite (Buffer_alloc_frame paths _ (4 + Z.to_nat size)) by lia.
  cbn [rbind].
  destruct (write_path_header _ paths) as [b1|e] eqn:Hheader; [|discriminate].
  apply write_path_header_in_range in Hheader as Hpaths.
  rewrite write_path_header_frontier in Hheader by assumption.
  apply Ok_inj in Hheader. subst b1. cbn [rbind].
  destruct (writeUInt32BE _ (len message) _) as [b2|e] eqn:Hlength;
    [|discriminate].
  apply writeUInt32BE_in_range in Hlength as Hmessage.
  rewrite writeUInt32BE_frontier in Hlength;
    [|assumption|rewrite len_path_header; lia|lia].
  apply Ok_inj in Hlength. subst b2. cbn [rbind].
  replace (4 + Z.to_nat size - 4)%nat with (Z.to_nat size) by lia.
  rewrite copy_frontier;
    [|rewrite len_app, len_path_header, len_uint32be; lia|assumption].
  intros [= <-]. now rewrite <- app_assoc.
Qed.

(** What the loop returns extends the frames it started from. *)
Lemma chunk_loop_extends (chunkSize : Z -> Z) (build : Z -> Z -> result Buffer)
    (length : Z) :
  forall (fuel : nat) (offset : Z) (toSend out : list Buffer),
    chunk_loop chunkSize build length fuel offset toSend = Some (Ok out) ->
    exists frames, out = toSend ++ frames.
Proof.
  induction fuel as [|fuel IH]; intros offset toSend out; [discriminate|].
  cbn [chunk_loop]. destruct (offset =? length).
  - intros [= <-]. exists []. now rewrite app_nil_r.
  - destruct (build offset (chunkSize offset)) as [b|e]; [|discriminate].
    intros H. apply IH in H as [frames ->].
    exists (b :: frames). now rewrite <- app_assoc.
Qed.

(** X15. The first frame [signTransaction] builds is the path header
    followed by the first chunk of the transaction, and the frames after it
    hold the rest of the transaction and nothing else. *)
Theorem signTransaction_first_frame :
  forall paths rawTx rlpTx toSend,
    signTransaction_toSend paths rawTx rlpTx = Some (Ok toSend) ->
    rawTx <> [] ->
    let chunkSize :=
      signTransaction_chunkSize paths rawTx
        (signTransaction_rlpOffset rawTx rlpTx) 0 in
    exists continuation,
      toSend = (path_header paths ++ firstn (Z.to_nat chunkSize) rawTx)
               :: continuation
      /\ List.concat continuation = skipn (Z.to_nat chunkSize) rawTx.
Proof.
  intros paths rawTx rlpTx toSend HtoSend Hnonempty chunkSize.
  assert (Hlen : 0 < len rawTx).
  { destruct rawTx; [congruence|]. rewrite len_cons.
    assert (H := len_nonneg rawTx). lia. }
  unfold signTransaction_toSend in HtoSend.
  apply signTransaction_loop_frames in HtoSend as Hregions.
  destruct Hregions as [Hregions _].
  rewrite signTransaction_loop_shape in HtoSend. cbn [chunk_loop] in HtoSend.
  destruct (Z.eqb_spec 0 (len rawTx)) as [Hzero|_]; [lia|].
  fold chunkSize in HtoSend.
  destruct (signTransaction_buffer paths rawTx 0 chunkSize) as [b|e] eqn:Hb;
    [|discriminate].
  assert (Hsize : 0 <= chunkSize <= len rawTx).
  { split.
    - destruct (Z.lt_ge_cases chunkSize 0) as [Hneg|]; [|assumption].
      exfalso. eapply signTransaction_buffer_negative; [| |exact Hb]; lia.
    - assert (H := signTransaction_chunkSize_fits paths rawTx
                     (signTransaction_rlpOffset rawTx rlpTx) 0 ltac:(lia)).
      subst chunkSize. lia. }
  apply signTransaction_buffer_first_layout in Hb; [|assumption].
  apply chunk_loop_extends in HtoSend as [continuation ->].
  cbn [app] in *. exists continuation. subst b. split; [reflexivity|].
  cbn [payload_regions] in Hregions.
  rewrite skipn_prefix in Hregions by apply len_path_header.
  rewrite <- (firstn_skipn (Z.to_nat chunkSize) rawTx) in Hregions at 2.
  now apply app_inv_head in Hregions.
Qed.

Lemma signTransaction_first_frame_witness :
  exists toSend continuation,
    signTransaction_toSend sample_paths sample_rawTx sample_rlpTx
    = Some (Ok toSend)
    /\ toSend = (path_header sample_paths ++ firstn 128 sample_rawTx)
                :: continuation
    /\ List.concat continuation = skipn 128 sample_rawTx.
Proof.
  destruct (signTransaction_toSend sample_paths sample_rawTx sample_rlpTx)
    as [[toSend|e]|] eqn:H;
    [|vm_compute in H; discriminate H|vm_compute in H; discriminate H].
  destruct (signTransaction_first_frame sample_paths sample_rawTx sample_rlpTx
              toSend H ltac:(discriminate)) as [continuation Hframes].
  exists toSend, continuation. split; [reflexivity|exact Hframes].
Defined.

(** X16. The first frame [signPersonalMessage] builds is the path header,
    the length of the whole message as four bytes, most significant first,
    and the first chunk of the message; the frames after it hold the rest
    of the message and nothing else. *)
Theorem signPersonalMessage_first_frame :
  forall paths message toSend,
    signPersonalMessage_toSend paths message = Some (Ok toSend) ->
    message <> [] ->
    let chunkSize := signPersonalMessage_chunkSize paths message 0 in
    exists continuation,
      toSend = (path_header paths ++ uint32be (len message)
                ++ firstn (Z.to_nat chunkSize) message)
               :: continuation
      /\ List.concat continuation = skipn (Z.to_nat chunkSize) message.
Proof.
  intros paths message toSend HtoSend Hnonempty chunkSize.
  assert (Hlen : 0 < len message).
  { destruct message; [congruence|]. rewrite len_cons.
    assert (H := len_nonneg message). lia. }
  unfold signPersonalMessage_toSend in HtoSend.
  apply signPersonalMessage_loop_frames in HtoSend as Hregions.
  destruct Hregions as [Hregions _].
  rewrite signPersonalMessage_loop_shape in HtoSend.
  cbn [chunk_loop] in HtoSend.
  destruct (Z.eqb_spec 0 (len message)) as [Hzero|_]; [lia|].
  fold chunkSize in HtoSend.
  destruct (signPersonalMessage_buffer paths message 0 chunkSize)
    as [b|e] eqn:Hb; [|discriminate].
  assert (Hsize : 0 <= chunkSize <= len message).
  { split.
    - destruct (Z.lt_ge_cases chunkSize 0) as [Hneg|]; [|assumption].
      exfalso. eapply signPersonalMessage_buffer_negative; [| |exact Hb]; lia.
    - assert (H := signPersonalMessage_chunkSize_fits paths message 0
                     ltac:(lia)).
      subst chunkSize. lia. }
  apply signPersonalMessage_buffer_first_layout in Hb; [|assumption].
  apply chunk_loop_extends in HtoSend as [continuation ->].
  cbn [app] in *. exists continuation. subst b. split; [reflexivity|].
  cbn [payload_regions] in Hregions.
  rewrite app_assoc, skipn_prefix in Hregions
    by (rewrite len_app, len_path_header, len_uint32be; lia).
  rewrite <- (firstn_skipn (Z.to_nat chunkSize) message) in Hregions at 2.
  now apply app_inv_head in Hregions.
Qed.

Lemma signPersonalMessage_first_frame_witness :
  exists toSend continuation,
    signPersonalMessage_toSend sample_paths sample_message = Some (Ok toSend)
    /\ toSend = (path_header sample_paths ++ uint32be 300
                 ++ firstn 125 sample_message)
                :: continuation
    /\ List.concat continuation = skipn 125 sample_message.
Proof.
  destruct (signPersonalMessage_toSend sample_paths sample_message)
    as [[toSend|e]|] eqn:H;
    [|vm_compute in H; discriminate H|vm_compute in H; discriminate H].
  destruct (signPersonalMessage_first_frame sample_paths sample_message
              toSend H ltac:(discriminate)) as [continuation Hframes].
  exists toSend, continuation. split; [reflexivity|exact Hframes].
Defined.

(** The frames of a chain of chunks have the lengths of the chunks, frame 0
    with its header. *)
Lemma chunk_chain_frame_bound (chunkSize : Z -> Z) (bound : Z) :
  (forall offset, chunkSize offset <= bound) ->
  forall (frames : list Buffer) (header offset : Z),
    0 <= header ->
    header + chunkSize offset <= bound ->
    chunk_chain chunkSize offset (chunk_boundaries header offset frames) ->
    Forall (fun frame => header < len frame <= bound) (firstn 1 frames)
    /\ Forall (fun frame => 0 < len frame <= bound) frames.
Proof.
  intros Hbound.
  induction frames as [|frame rest IH]; intros header offset Hheader Hfirst;
    [cbn; auto|].
  cbn [chunk_boundaries chunk_chain firstn].
  intros (Hboundary & Hpositive & Hrest).
  assert (Hframe : len frame = header + chunkSize offset) by lia.
  split; [repeat constructor; lia|].
  constructor; [lia|].
  apply (IH 0 (offset + len frame - header)); [lia| |exact Hrest].
  specialize (Hbound (offset + len frame - header)). lia.
Qed.

(** X17. No frame of [signTransaction] or [signPersonalMessage] is longer
    than 150 bytes or empty, and the first frame holds at least one byte of
    payload after its header. *)
Theorem no_frame_exceeds_150_bytes :
  (forall paths rawTx rlpTx toSend,
      signTransaction_toSend paths rawTx rlpTx = Some (Ok toSend) ->
      Forall (fun frame => 1 + 4 * len paths < len frame <= 150)
        (firstn 1 toSend)
      /\ Forall (fun frame => 0 < len frame <= 150) toSend)
  /\ (forall paths message toSend,
         signPersonalMessage_toSend paths message = Some (Ok toSend) ->
         Forall (fun frame => 1 + 4 * len paths + 4 < len frame <= 150)
           (firstn 1 toSend)
         /\ Forall (fun frame => 0 < len frame <= 150) toSend).
Proof.
  split.
  - intros paths rawTx rlpTx toSend H. assert (Hp := len_nonneg paths).
    apply signTransaction_loop_frames in H as [_ Hchain].
    apply (chunk_chain_frame_bound _ 150) in Hchain; [assumption| |lia|].
    + intros offset. unfold signTransaction_chunkSize. zcases; lia.
    + unfold signTransaction_chunkSize. zcases; lia.
  - intros paths message toSend H. assert (Hp := len_nonneg paths).
    apply signPersonalMessage_loop_frames in H as [_ Hchain].
    apply (chunk_chain_frame_bound _ 150) in Hchain; [assumption| |lia|].
    + intros offset. unfold signPersonalMessage_chunkSize. zcases; lia.
    + unfold signPersonalMessage_chunkSize. zcases; lia.
Qed.

Lemma no_frame_exceeds_150_bytes_witness :
  (exists toSend,
      signTransaction_toSend sample_paths sample_rawTx sample_rlpTx
      = Some (Ok toSend)
      /\ Forall (fun frame => 1 + 4 * len sample_paths < len frame <= 150)
           (firstn 1 toSend)
      /\ Forall (fun frame => 0 < len frame <= 150) toSend)
  /\ (exists toSend,
         signPersonalMessage_toSend sample_paths sample_message
         = Some (Ok toSend)
         /\ Forall (fun frame => 1 + 4 * len sample_paths + 4 < len frame <= 150)
              (firstn 1 toSend)
         /\ Forall (fun frame => 0 < len frame <= 150) toSend).
Proof.
  split.
  - destruct (signTransaction_toSend sample_paths sample_rawTx sample_rlpTx)
      as [[toSend|e]|] eqn:H;
      [|vm_compute in H; discriminate H|vm_compute in H; discriminate H].
    exists toSend. split; [reflexivity|].
    exact (proj1 no_frame_exceeds_150_bytes _ _ _ _ H).
  - destruct (signPersonalMessage_toSend sample_paths sample_message)
      as [[toSend|e]|] eqn:H;
      [|vm_compute in H; discriminate H|vm_compute in H; discriminate H].
    exists toSend. split; [reflexivity|].
    exact (proj2 no_frame_exceeds_150_bytes _ _ _ H).
Defined.

(** ** Paths too long for the first frame *)

Lemma copy_throws (source target : Buffer) (targetStart sourceStart sourceEnd : Z)
    (e : js_error) :
  copy source target targetStart sourceStart sourceEnd = Throw e ->
  exists message, e = RangeError message.
Proof.
  unfold copy.
  repeat match goal with
         | |- context [if ?c then _ else _] => destruct c
         end;
    try discriminate; intros [= <-]; eauto.
Qed.

Lemma write_path_header_throws (b : Buffer) (paths : list Z) (e : js_error) :
  write_path_header b paths = Throw e -> exists message, e = RangeError message.
Proof. unfold write_path_header. apply forEach_writeUInt32BE_throws. Qed.

Lemma Buffer_alloc_throws (size : Z) (e : js_error) :
  Buffer_alloc size = Throw e -> exists message, e = RangeError message.
Proof.
  unfold Buffer_alloc. destruct (size <? 0); [|discriminate].
  intros [= <-]. eauto.
Qed.

(** Building a frame fails with a RangeError or not at all. *)
Lemma signTransaction_buffer_throws (paths : list Z) (rawTx : Buffer)
    (offset size : Z) (e : js_error) :
  signTransaction_buffer paths rawTx offset size = Throw e ->
  exists message, e = RangeError message.
Proof.
  unfold signTransaction_buffer.
  destruct (Buffer_alloc _) as [b0|e0] eqn:Halloc; cbn [rbind];
    [|intros [= <-]; eapply Buffer_alloc_throws; eassumption].
  destruct (offset =? 0); [|apply copy_throws].
  destruct (write_path_header b0 paths) as [b1|e1] eqn:Hheader; cbn [rbind];
    [apply copy_throws|].
  intros [= <-]. eapply write_path_header_throws; eassumption.
Qed.

Lemma signPersonalMessage_buffer_throws (paths : list Z) (message : Buffer)
    (offset size : Z) (e : js_error) :
  signPersonalMessage_buffer paths message offset size = Throw e ->
  exists text, e = RangeError text.
Proof.
  unfold signPersonalMessage_buffer.
  destruct (Buffer_alloc _) as [b0|e0] eqn:Halloc; cbn [rbind];
    [|intros [= <-]; eapply Buffer_alloc_throws; eassumption].
  destruct (offset =? 0); [|apply copy_throws].
  destruct (write_path_header b0 paths) as [b1|e1] eqn:Hheader; cbn [rbind];
    [|intros [= <-]; eapply write_path_header_throws; eassumption].
  destruct (writeUInt32BE b1 (len message) _) as [b2|e2] eqn:Hlength;
    cbn [rbind]; [apply copy_throws|].
  intros [= <-]. eapply writeUInt32BE_throws; eassumption.
Qed.

(** X18. A path too long for the first frame makes the chunked
    operations reject with a RangeError before anything is sent: from 37
    elements on in [signPersonalMessage], from 38 on in [signTransaction],
    whenever the payload is not empty.  The maximal chunk size is then
    negative, and the header or the copy runs out of the buffer. *)
Theorem path_too_long_for_first_frame :
  (forall transport_send splitPath path messageHex paths,
      splitPath path = Ok paths ->
      37 <= len paths ->
      Buffer_from_hex messageHex <> [] ->
      exists text,
        signPersonalMessage transport_send splitPath path messageHex
        = Some (reject (RangeError text)))
  /\ (forall transport_send splitPath decode path rawTxHex paths rlpTx,
         splitPath path = Ok paths ->
         decode (Buffer_from_hex rawTxHex) = Ok rlpTx ->
         38 <= len paths ->
         Buffer_from_hex rawTxHex <> [] ->
         exists text,
           signTransaction transport_send splitPath decode path rawTxHex
           = Some (reject (RangeError text))).
Proof.
  split.
  - intros transport_send splitPath path messageHex paths Hsplit Hlong Hnonempty.
    unfold signPersonalMessage. rewrite Hsplit. cbv zeta.
    set (message := Buffer_from_hex messageHex) in *.
    assert (Hlen : 0 < len message).
    { destruct message; [congruence|]. rewrite len_cons.
      assert (H := len_nonneg message). lia. }
    unfold signPersonalMessage_toSend. rewrite signPersonalMessage_loop_shape.
    cbn [chunk_loop].
    destruct (Z.eqb_spec 0 (len message)) as [Hzero|_]; [lia|].
    destruct (signPersonalMessage_buffer paths message 0
                (signPersonalMessage_chunkSize paths message 0))
      as [b|e] eqn:Hb.
    + exfalso. eapply signPersonalMessage_buffer_negative; [| |exact Hb]; [lia|].
      unfold signPersonalMessage_chunkSize. zcases; lia.
    + apply signPersonalMessage_buffer_throws in Hb as [text ->]. eauto.
  - intros transport_send splitPath decode path rawTxHex paths rlpTx Hsplit
      Hdecode Hlong Hnonempty.
    unfold signTransaction. rewrite Hsplit. cbv zeta. rewrite Hdecode.
    set (rawTx := Buffer_from_hex rawTxHex) in *.
    assert (Hlen : 0 < len rawTx).
    { destruct rawTx; [congruence|]. rewrite len_cons.
      assert (H := len_nonneg rawTx). lia. }
    unfold signTransaction_toSend. rewrite signTransaction_loop_shape.
    cbn [chunk_loop].
    destruct (Z.eqb_spec 0 (len rawTx)) as [Hzero|_]; [lia|].
    destruct (signTransaction_buffer paths rawTx 0
                (signTransaction_chunkSize paths rawTx
                   (signTransaction_rlpOffset rawTx rlpTx) 0))
      as [b|e] eqn:Hb.
    + exfalso. eapply signTransaction_buffer_negative; [| |exact Hb]; [lia|].
      unfold signTransaction_chunkSize. zcases; lia.
    + apply signTransaction_buffer_throws in Hb as [text ->]. eauto.
Qed.

Lemma path_too_long_for_first_frame_witness :
  (exists text,
      signPersonalMessage (answering []) (fun _ => Ok (repeat 0 37))
        "m/0/0"%string "00"%string
      = Some (reject (RangeError text)))
  /\ (exists text,
         signTransaction (answering []) (fun _ => Ok (repeat 0 38))
           (fun _ => Ok sample_rlpTx) "m/0/0"%string
           (toString_hex sample_rawTx)
         = Some (reject (RangeError text))).
Proof.
  split.
  - apply (proj1 path_too_long_for_first_frame (answering [])
             (fun _ => Ok (repeat 0 37)) "m/0/0"%string "00"%string (repeat 0 37) eq_refl).
    + vm_compute. discriminate.
    + discriminate.
  - apply (proj2 path_too_long_for_first_frame (answering [])
             (fun _ => Ok (repeat 0 38)) (fun _ => Ok sample_rlpTx)
             "m/0/0"%string (toString_hex sample_rawTx) (repeat 0 38)
             sample_rlpTx eq_refl).
    + reflexivity.
    + vm_compute. discriminate.
    + vm_compute. discriminate.
Defined.

(** ** Hexadecimal arguments *)

Lemma byte_of_Z_to_N (x : byte) : byte_of_Z (Z.of_N (Byte.to_N x)) = x.
Proof.
  assert (H := Byte.to_N_bounded x).
  unfold byte_of_Z. rewrite Z.mod_small by lia.
  rewrite N2Z.id, Byte.of_to_N. reflexivity.
Qed.

Lemma to_N_digits (x : byte) :
  (Byte.to_N x / 16 < 16)%N /\ (Byte.to_N x mod 16 < 16)%N.
Proof.
  assert (H := Byte.to_N_bounded x). split.
  - apply N.Div0.div_lt_upper_bound. lia.
  - apply N.mod_lt. lia.
Qed.

Lemma Buffer_from_hex_pair (x : byte) (rest : string) :
  Buffer_from_hex
    (String (hexDigit (Byte.to_N x / 16))
       (String (hexDigit (Byte.to_N x mod 16)) rest))
  = x :: Buffer_from_hex rest.
Proof.
  destruct (to_N_digits x) as [Hhi Hlo].
  cbn [Buffer_from_hex]. rewrite !hexValue_hexDigit by assumption.
  f_equal. rewrite <- N.div_mod by lia. apply byte_of_Z_to_N.
Qed.

(** Decoding reads the hex of a buffer back, and stops at what follows it
    when that does not start with two hex digits. *)
Lemma Buffer_from_hex_toString_hex (b : Buffer) (rest : string) :
  Buffer_from_hex rest = [] ->
  Buffer_from_hex (String.append (toString_hex b) rest) = b.
Proof.
  intros Hrest. induction b as [|x b IH]; [exact Hrest|].
  cbn [toString_hex String.append]. now rewrite Buffer_from_hex_pair, IH.
Qed.

Lemma hexBuffer_toString_hex (b : Buffer) (rest : string) :
  hexBuffer (String.append (toString_hex b) rest)
  = match b with
    | [] => hexBuffer rest
    | _ => Buffer_from_hex (String.append (toString_hex b) rest)
    end.
Proof.
  destruct b as [|x b]; [reflexivity|].
  cbn [toString_hex String.append].
  destruct x; reflexivity.
Qed.

(** X19. [hexBuffer] reads back the hex of any buffer, with or without
    the ["0x"] prefix, and does not reject malformed text: it stops at the
    first character that is not a hex digit and drops a trailing single
    digit.  [maybeHexBuffer] takes ["0x"] alone for a present, empty
    buffer. *)
Theorem hexBuffer_reads_hex :
  forall (b : Buffer) (c : ascii) (rest : string),
    hexValue c = None ->
    hexBuffer (toString_hex b) = b
    /\ hexBuffer (String "0" (String "x" (toString_hex b))) = b
    /\ hexBuffer (String "0" (String "x"
                    (String.append (toString_hex b) (String c rest)))) = b
    /\ (forall digit,
           hexBuffer (String "0" (String "x"
                        (String.append (toString_hex b)
                           (String digit EmptyString)))) = b)
    /\ maybeHexBuffer (Some (String "0" (String "x" (toString_hex b))))
       = Some b.
Proof.
  intros b c rest Hc.
  assert (Hplain : Buffer_from_hex (toString_hex b) = b).
  { rewrite <- (Buffer_from_hex_toString_hex b EmptyString) at 2 by reflexivity.
    f_equal. clear. induction b as [|x b IH]; [reflexivity|].
    cbn [toString_hex String.append]. now rewrite <- IH. }
  assert (Hinvalid : Buffer_from_hex (String c rest) = []).
  { destruct rest as [|c' rest]; [reflexivity|].
    cbn [Buffer_from_hex]. now rewrite Hc. }
  split; [|split; [|split; [|split]]].
  - assert (H := hexBuffer_toString_hex b EmptyString).
    replace (String.append (toString_hex b) EmptyString) with (toString_hex b)
      in H.
    + rewrite H. destruct b; [reflexivity|exact Hplain].
    + clear. induction b as [|x b IH]; [reflexivity|].
      cbn [toString_hex String.append]. now rewrite <- IH.
  - exact Hplain.
  - cbn [hexBuffer]. now apply Buffer_from_hex_toString_hex.
  - intros digit. cbn [hexBuffer]. now apply Buffer_from_hex_toString_hex.
  - cbn [maybeHexBuffer hexBuffer]. now rewrite Hplain.
Qed.

Lemma hexBuffer_reads_hex_witness :
  hexBuffer "0a0b" = [x0a; x0b]
  /\ hexBuffer "0x0a0b" = [x0a; x0b]
  /\ hexBuffer "0x0a0bzz0c" = [x0a; x0b]
  /\ (forall digit,
         hexBuffer (String "0" (String "x"
                      (String.append "0a0b" (String digit EmptyString))))
         = [x0a; x0b])
  /\ maybeHexBuffer (Some "0x0a0b"%string) = Some [x0a; x0b].
Proof.
  exact (hexBuffer_reads_hex [x0a; x0b] "z" "z0c" eq_refl).
Defined.

(** ** [getAppConfiguration] *)

(** X20. [getAppConfiguration] sends one frame without data.  The four
    flags it returns are bits 0 to 3 of the first byte of the response,
    each left at its place: a set flag reads 1, 2, 4 or 8, not [true].
    An empty response is not an error: every flag is then 0 and the
    version reads ["undefined.undefined.undefined"]. *)
Theorem getAppConfiguration_flags :
  forall transport_send sent,
    fst (getAppConfiguration transport_send sent)
    = sent ++ [mk_apdu 0xe0 0x06 0x00 0x00 []]
    /\ (forall flags rest,
           transport_send sent (mk_apdu 0xe0 0x06 0x00 0x00 [])
           = Ok (flags :: rest) ->
           exists configuration,
             snd (getAppConfiguration transport_send sent) = Ok configuration
             /\ arbitraryDataEnabled configuration
                = (if Z.testbit (Z_of_byte flags) 0 then 1 else 0)
             /\ erc20ProvisioningNecessary configuration
                = (if Z.testbit (Z_of_byte flags) 1 then 2 else 0)
             /\ starkEnabled configuration
                = (if Z.testbit (Z_of_byte flags) 2 then 4 else 0)
             /\ starkv2Supported configuration
                = (if Z.testbit (Z_of_byte flags) 3 then 8 else 0))
    /\ (transport_send sent (mk_apdu 0xe0 0x06 0x00 0x00 []) = Ok [] ->
        snd (getAppConfiguration transport_send sent)
        = Ok (mk_AppConfiguration 0 0 0 0 "undefined.undefined.undefined")).
Proof.
  intros transport_send sent. split; [|split].
  - unfold getAppConfiguration, then1, then2, send, resolve.
    destruct (transport_send sent _); reflexivity.
  - intros flags rest Hsend.
    unfold getAppConfiguration, then1, then2, send, resolve.
    rewrite Hsend. cbn [fst snd]. eexists. split; [reflexivity|].
    cbn [arbitraryDataEnabled erc20ProvisioningNecessary starkEnabled
         starkv2Supported index Z.ltb Z.compare Z.to_nat nth_error].
    destruct flags; repeat split; reflexivity.
  - intros Hsend.
    unfold getAppConfiguration, then1, then2, send, resolve.
    rewrite Hsend. reflexivity.
Qed.

Lemma getAppConfiguration_flags_witness :
  exists configuration,
    snd (getAppConfiguration (answering (hexBuffer "0a0102039000")) [])
    = Ok configuration
    /\ arbitraryDataEnabled configuration = 0
    /\ erc20ProvisioningNecessary configuration = 2
    /\ starkEnabled configuration = 0
    /\ starkv2Supported configuration = 8.
Proof.
  exact (proj1 (proj2 (getAppConfiguration_flags
                         (answering (hexBuffer "0a0102039000")) []))
           x0a (hexBuffer "0102039000") eq_refl).
Defined.

(** ** C2: [rlpOffset] and the structural suffix *)

Lemma slice_last3_skipn {A} (l : list A) :
  6 < len l ->
  slice l (Some (-3)) (Some (len l)) = skipn (List.length l - 3) l.
Proof.
  intros H. unfold slice, adjustOffset.
  zcases; try lia.
  replace (Z.to_nat (-3 + len l)) with (List.length l - 3)%nat
    by (unfold len; lia).
  apply firstn_all2. rewrite length_skipn. unfold len. lia.
Qed.

(** The raw transaction of a decoded array ends with the structural
    suffix, which begins at the offset the specification calls X. *)
Lemma structural_suffix_ends_rawTx (items : list rlp_value) :
  skipn (Z.to_nat (structural_suffix_offset (encode (RlpArray items))
                     (RlpArray items)))
    (encode (RlpArray items))
  = structural_suffix (RlpArray items).
Proof.
  unfold structural_suffix_offset, structural_suffix.
  cbn [trailing_elements encode].
  set (n := (List.length items - 3)%nat).
  assert (Hitems :
            List.concat (List.map encode items)
            = List.concat (List.map encode (firstn n items))
              ++ List.concat (List.map encode (skipn n items)))
    by now rewrite <- concat_app, <- map_app, firstn_skipn.
  rewrite Hitems, app_assoc.
  apply skipn_prefix. rewrite !len_app. lia.
Qed.

(** [rlpOffset] is X when the list header of the re-encoded trailing
    elements takes one byte, which [rlpVrs.length - 1] presumes, and falls
    before X when that header is longer. *)
Lemma signTransaction_rlpOffset_and_suffix (items : list rlp_value) :
  6 < len items ->
  let rlpTx := RlpArray items in
  let rawTx := encode rlpTx in
  signTransaction_rlpOffset rawTx rlpTx
  = structural_suffix_offset rawTx rlpTx
    - (len (encodeLength (len (structural_suffix rlpTx)) 192) - 1)
  /\ (len (structural_suffix rlpTx) < 56 ->
      signTransaction_rlpOffset rawTx rlpTx
      = structural_suffix_offset rawTx rlpTx).
Proof.
  intros Hlen rlpTx rawTx.
  assert (Hoffset :
            signTransaction_rlpOffset rawTx rlpTx
            = structural_suffix_offset rawTx rlpTx
              - (len (encodeLength (len (structural_suffix rlpTx)) 192) - 1)).
  { unfold signTransaction_rlpOffset, structural_suffix_offset,
      structural_suffix.
    subst rlpTx. cbn [rlp_length rlp_slice trailing_elements].
    destruct (Z.gtb_spec (len items) 6) as [_|]; [|lia].
    rewrite slice_last3_skipn by assumption.
    cbn [encode]. rewrite len_app. lia. }
  split; [exact Hoffset|].
  intros Hshort. rewrite Hoffset, encodeLength_short by assumption. lia.
Qed.

(** C2 fails on the code.  For the signed transaction [signed_rlpTx], of
    nine elements, the structural suffix begins at offset 129 of the 196
    bytes; [signTransaction] computes [rlpOffset = 128], the list header of
    the re-encoded suffix taking two bytes where the code subtracts one;
    and with a path of five elements the first frame ends on 129, on the
    start of the suffix. *)
Theorem chunk_boundary_on_structural_suffix :
  6 < rlp_length signed_rlpTx
  /\ structural_suffix_offset signed_rawTx signed_rlpTx = 129
  /\ skipn 129 signed_rawTx = structural_suffix signed_rlpTx
  /\ signTransaction_rlpOffset signed_rawTx signed_rlpTx = 128
  /\ exists toSend,
      signTransaction_toSend sample_paths signed_rawTx signed_rlpTx
      = Some (Ok toSend)
      /\ chunk_boundaries (1 + 4 * len sample_paths) 0 toSend = [129; 196]
      /\ In (structural_suffix_offset signed_rawTx signed_rlpTx)
           (chunk_boundaries (1 + 4 * len sample_paths) 0 toSend).
Proof.
  split; [reflexivity|].
  split; [reflexivity|].
  split; [reflexivity|].
  split; [reflexivity|].
  destruct (signTransaction_toSend sample_paths signed_rawTx signed_rlpTx)
    as [[toSend|e]|] eqn:H;
    [|vm_compute in H; discriminate H|vm_compute in H; discriminate H].
  exists toSend. split; [reflexivity|].
  vm_compute in H. injection H as <-.
  split; [reflexivity|]. left. reflexivity.
Qed.

(** ** C8: a conditional address without a fact *)

(** C8 fails on the code.  With a conditional address and no fact, no
    address/fact pair is supplied, yet [starkSignTransfer_v2] sends
    [param1 = 0x05] and a frame 52 bytes longer than the base frame: the
    allocation and [param1] test the address alone, where the write of the
    two fields tests the pair.  The 52 bytes after the timestamp are all
    zero, and the bytes before them are the frame of the same call without
    the address, which is sent with [param1 = 0x04]. *)
Theorem conditional_address_without_fact :
  let address := Some "0x2122232425262728292a2b2c2d2e2f3031323334"%string in
  let key :=
    "0x000102030405060708090a0b0c0d0e0f101112131415161718191a1b1c1d1e1f"%string in
  let base := 1 + 4 * len sample_paths + 141 in
  exists frame plain,
    fst (starkSignTransfer_v2 (answering []) sample_splitPath
           "44'/52752'/0'/0/0" None eth None None key 1 2 3%N 4 5
           address None [])
    = [mk_apdu 0xf0 0x04 0x05 0x00 frame]
    /\ len frame = base + 52
    /\ skipn (Z.to_nat base) frame = zeros 52
    /\ fst (starkSignTransfer_v2 (answering []) sample_splitPath
              "44'/52752'/0'/0/0" None eth None None key 1 2 3%N 4 5
              None None [])
       = [mk_apdu 0xf0 0x04 0x04 0x00 plain]
    /\ len plain = base
    /\ firstn (Z.to_nat base) frame = plain.
Proof.
  cbv zeta.
  destruct (starkSignTransfer_v2_buffer sample_splitPath "44'/52752'/0'/0/0"
              None eth None None
              "0x000102030405060708090a0b0c0d0e0f101112131415161718191a1b1c1d1e1f"
              1 2 3%N 4 5
              (Some "0x2122232425262728292a2b2c2d2e2f3031323334"%string) None)
    as [frame|e] eqn:Hframe; [|vm_compute in Hframe; discriminate Hframe].
  destruct (starkSignTransfer_v2_buffer sample_splitPath "44'/52752'/0'/0/0"
              None eth None None
              "0x000102030405060708090a0b0c0d0e0f101112131415161718191a1b1c1d1e1f"
              1 2 3%N 4 5 None None)
    as [plain|e] eqn:Hplain; [|vm_compute in Hplain; discriminate Hplain].
  exists frame, plain.
  unfold starkSignTransfer_v2, then1, then2, lift, send.
  rewrite Hframe, Hplain.
  vm_compute in Hframe. injection Hframe as <-.
  vm_compute in Hplain. injection Hplain as <-.
  repeat split; vm_compute; reflexivity.
Qed.
